(** * v8go.cc: the C boundary between a host program and the V8 engine

    A shallow embedding of [v8go.cc].  The wrapper objects the file
    allocates with [new] ([m_ctx], [m_value], [m_object_template]) and the
    isolates it obtains from the engine live in one store indexed by
    address; every exported function is a computation over that store that
    either returns, runs into C++ undefined behaviour, or is aborted by a
    failed engine API check.  The engine itself is an interface ([V8]):
    its answers are parameters of the development. *)

From Stdlib Require Import ZArith String Ascii DecimalString.
From stdpp Require Import gmap strings list fin_maps.

Open Scope Z_scope.

(** ** Outcomes of a call *)

(** [Undefined]: the call left defined C++ behaviour (use of a null,
    dangling, wrongly typed or indeterminate pointer, use of an empty
    handle, signed overflow).  [Fatal]: a V8 API check failed
    ([ToLocalChecked] on an empty handle, [ToChecked] on [Nothing]) and the
    engine aborted the process. *)
Inductive outcome (A : Type) : Type :=
| Ret (a : A)
| Undefined
| Fatal.
Arguments Ret {A} a.
Arguments Undefined {A}.
Arguments Fatal {A}.

(** ** Addresses, handles and struct fields *)

Abbreviation Ptr := N (only parsing).
Definition nullptr : Ptr := 0%N.

(** [v8::Local<T>], [v8::MaybeLocal<T>], [v8::Maybe<T>] and
    [v8::Persistent<T>] may all be empty. *)
Definition Local (T : Type) := option T.
Definition MaybeLocal (T : Type) := option T.
Definition Maybe (T : Type) := option T.
Definition Persistent (T : Type) := option T.

(** A scalar member of a struct created by [new T;]: such a member holds an
    indeterminate value until it is assigned. *)
Inductive field (A : Type) : Type :=
| Indeterminate
| Assigned (a : A).
Arguments Indeterminate {A}.
Arguments Assigned {A} a.

(** ** C strings *)

Definition NUL : ascii := Ascii.zero.

(** The text a [char*] designates: the bytes before the first zero byte.
    It is also what [std::string(const char* )] and [ostream << const char*]
    read. *)
Fixpoint c_str (s : string) : string :=
  match s with
  | EmptyString => EmptyString
  | String c r => if Ascii.eqb c NUL then EmptyString else String c (c_str r)
  end.

(** A [const char*] handed to the caller: [None] is [nullptr], [Some t] a
    buffer whose NUL-terminated text is [t]. *)
Definition c_string := option string.

(** [String::Utf8Value]: [None] when the value could not be converted
    ([str_ == NULL], [length_ == 0]), else the UTF-8 bytes of the string. *)
Definition Utf8Value := option string.

Definition Utf8Value_length (value : Utf8Value) : Z :=
  match value with
  | Some s => Z.of_nat (String.length s)
  | None => 0
  end.

(** [const char* CopyString(std::string str)]: [len + 1] bytes are
    allocated, the [len] bytes of [str] copied and a zero byte appended.
    ([int len = str.length()] is taken to be exact: the strings of this
    file are shorter than [2^31] bytes.) *)
Definition CopyString (str : string) : c_string :=
  Some (c_str (str +:+ String NUL EmptyString)).

(** [const char* CopyString(String::Utf8Value& value)]; [*value] is turned
    into the [std::string] argument by [std::string(const char* )]. *)
Definition CopyString_Utf8Value (value : Utf8Value) : c_string :=
  if Utf8Value_length value =? 0 then None
  else match value with
       | Some s => CopyString (c_str s)
       | None => None
       end.

(** [ostream << int]: decimal digits, a leading minus sign for negatives. *)
Definition show_int (n : Z) : string := NilZero.string_of_int (Z.to_int n).

Definition INT_MIN : Z := - 2 ^ 31.
Definition INT_MAX : Z := 2 ^ 31 - 1.

(** ** UTF-8 well-formedness (RFC 3629) *)

Inductive utf8_state : Type :=
| U_start
| U_cont (n : nat) (lo hi : N)
| U_bad.

Definition utf8_step (q : utf8_state) (c : ascii) : utf8_state :=
  let b := N_of_ascii c in
  match q with
  | U_bad => U_bad
  | U_start =>
      if (b <=? 0x7F)%N then U_start
      else if ((0xC2 <=? b) && (b <=? 0xDF))%N then U_cont 1 0x80 0xBF
      else if (b =? 0xE0)%N then U_cont 2 0xA0 0xBF
      else if (b =? 0xED)%N then U_cont 2 0x80 0x9F
      else if ((0xE1 <=? b) && (b <=? 0xEF))%N then U_cont 2 0x80 0xBF
      else if (b =? 0xF0)%N then U_cont 3 0x90 0xBF
      else if ((0xF1 <=? b) && (b <=? 0xF3))%N then U_cont 3 0x80 0xBF
      else if (b =? 0xF4)%N then U_cont 3 0x80 0x8F
      else U_bad
  | U_cont n lo hi =>
      if ((lo <=? b) && (b <=? hi))%N then
        match n with
        | 1%nat => U_start
        | S n' => U_cont n' 0x80 0xBF
        | O => U_bad
        end
      else U_bad
  end.

Fixpoint utf8_run (q : utf8_state) (s : string) : utf8_state :=
  match s with
  | EmptyString => q
  | String c r => utf8_run (utf8_step q c) r
  end.

Definition valid_utf8 (s : string) : bool :=
  match utf8_run U_start s with
  | U_start => true
  | _ => false
  end.

(** ** The engine interface *)

(** [v8::Message] as [ExceptionError] reads it. *)
Record v8_Message (Value : Type) : Type := {
  ResourceName : Local Value;     (* GetScriptOrigin().ResourceName() *)
  GetLineNumber : Maybe Z;        (* Maybe<int> *)
  GetStartColumn : Maybe Z        (* Maybe<int> *)
}.
Arguments ResourceName {Value} _.
Arguments GetLineNumber {Value} _.
Arguments GetStartColumn {Value} _.

(** [v8::TryCatch] after a failed compilation or run, observed in the
    context the script was submitted to. *)
Record TryCatch (Value : Type) : Type := {
  HasTerminated : bool;
  Exception : Local Value;
  Message : Local (v8_Message Value);
  StackTrace : MaybeLocal Value
}.
Arguments HasTerminated {Value} _.
Arguments Exception {Value} _.
Arguments Message {Value} _.
Arguments StackTrace {Value} _.

(** [v8::HeapStatistics], through its accessors. *)
Record v8_HeapStatistics : Type := {
  hs_total_heap_size : Z;
  hs_total_heap_size_executable : Z;
  hs_total_physical_size : Z;
  hs_total_available_size : Z;
  hs_used_heap_size : Z;
  hs_heap_size_limit : Z;
  hs_malloced_memory : Z;
  hs_external_memory : Z;
  hs_peak_malloced_memory : Z;
  hs_number_of_native_contexts : Z;
  hs_number_of_detached_contexts : Z
}.

(** The questions [v8::Value] answers with a [bool]; [ValueIsK] of the source
    is [ValueIs IsK] below. *)
Inductive predicate : Type :=
| IsUndefined | IsNull | IsNullOrUndefined | IsTrue | IsFalse | IsName
| IsString | IsSymbol | IsFunction | IsObject | IsBigInt | IsBoolean
| IsNumber | IsExternal | IsInt32 | IsUint32 | IsDate | IsArgumentsObject
| IsBigIntObject | IsNumberObject | IsStringObject | IsSymbolObject
| IsNativeError | IsRegExp | IsAsyncFunction | IsGeneratorFunction
| IsGeneratorObject | IsPromise | IsMap | IsSet | IsMapIterator
| IsSetIterator | IsWeakMap | IsWeakSet | IsArray | IsArrayBuffer
| IsArrayBufferView | IsTypedArray | IsUint8Array | IsUint8ClampedArray
| IsInt8Array | IsUint16Array | IsInt16Array | IsUint32Array
| IsInt32Array | IsFloat32Array | IsFloat64Array | IsBigInt64Array
| IsBigUint64Array | IsDataView | IsSharedArrayBuffer | IsProxy
| IsWasmModuleObject | IsModuleNamespaceObject.

(** The part of the V8 API that [v8go.cc] calls.  Values, contexts and
    templates are opaque handles.  What an isolate holds behind them, and
    what scripts, context creation and template construction change, is
    its [v8_Heap].  The conversions of a value are taken as functions of
    the value and the context. *)
Class V8 : Type := {
  v8_Value : Type;
  v8_Context : Type;
  v8_ObjectTemplate : Type;
  v8_Script : Type;
  v8_Heap : Type;
  v8_double : Type;
  (* Isolate *)
  Isolate_New : v8_Heap;
  Isolate_GetHeapStatistics : v8_Heap -> v8_HeapStatistics;
  (* templates, contexts, scripts *)
  ObjectTemplate_New : v8_Heap -> v8_ObjectTemplate * v8_Heap;
  ObjectTemplate_Set :
    v8_Heap -> v8_ObjectTemplate -> v8_Value ->
    v8_Value + v8_ObjectTemplate -> Z -> v8_Heap;
  Context_New : v8_Heap -> MaybeLocal v8_ObjectTemplate -> v8_Context * v8_Heap;
  Script_Compile :
    v8_Context -> v8_Value -> v8_Value -> v8_Script + TryCatch v8_Value;
  Script_Run :
    v8_Script -> v8_Context -> v8_Heap ->
    (v8_Value + TryCatch v8_Value) * v8_Heap;
  (* primitives *)
  String_NewFromUtf8 : string -> MaybeLocal v8_Value;
  String_Utf8Value : v8_Value -> Utf8Value;
  Integer_New : Z -> v8_Value;
  Integer_NewFromUnsigned : Z -> v8_Value;
  Boolean_New : bool -> v8_Value;
  Number_New : v8_double -> v8_Value;
  BigInt_New : Z -> v8_Value;
  BigInt_NewFromUnsigned : Z -> v8_Value;
  BigInt_NewFromWords : v8_Context -> Z -> Z -> list Z -> MaybeLocal v8_Value;
  BigInt_WordCount : v8_Value -> Z;
  BigInt_ToWordsArray : v8_Value -> Z -> Z * Z * list Z;
  (* inspection *)
  Value_Is : predicate -> v8_Value -> bool;
  Value_ToArrayIndex : v8_Context -> v8_Value -> MaybeLocal Z;
  Value_BooleanValue : v8_Value -> bool;
  Value_Int32Value : v8_Context -> v8_Value -> Maybe Z;
  Value_IntegerValue : v8_Context -> v8_Value -> Maybe Z;
  Value_NumberValue : v8_Context -> v8_Value -> Maybe v8_double;
  Value_Uint32Value : v8_Context -> v8_Value -> Maybe Z;
  Value_ToDetailString : v8_Context -> v8_Value -> MaybeLocal v8_Value;
  Value_ToBigInt : v8_Context -> v8_Value -> MaybeLocal v8_Value
}.

(** [String::Utf8Value utf8(iso, value)] for a handle that may be empty. *)
Definition Utf8Value_of `{V8} (value : Local v8_Value) : Utf8Value :=
  match value with
  | Some v => String_Utf8Value v
  | None => None
  end.

(** ** Records crossing the boundary *)

(** Modelled from the spec: the struct [RtnError] of [v8go.h], which is not
    part of the sources at hand ("a fixed record of three optional strings:
    message, location, stack"); the member names are the ones
    [ExceptionError] assigns. *)
Record RtnError : Type := {
  msg : c_string;
  location : c_string;
  stack : c_string
}.

(** Modelled from the spec: the struct [RtnValue] of [v8go.h] ("a pair of
    (handle-or-null, error-or-null)"); members as [RunScript] assigns them. *)
Record RtnValue : Type := {
  value : Ptr;
  error : RtnError
}.

(** Modelled from the spec: the struct [ValueBigInt] of [v8go.h] ("a record
    of (word array pointer, word count, sign bit)"), in the order of the
    initialisers of [ValueToBigInt].  [words] is [None] for [nullptr]. *)
Record ValueBigInt : Type := {
  words : option (list Z);
  word_count : Z;
  sign_bit : Z
}.

(** Modelled from the spec: the struct [IsolateHStatistics] of [v8go.h] ("a
    fixed record of eleven unsigned integers"), in the order of the
    initialisers of [IsolationGetHeapStatistics]. *)
Record IsolateHStatistics : Type := {
  total_heap_size : Z;
  total_heap_size_executable : Z;
  total_physical_size : Z;
  total_available_size : Z;
  used_heap_size : Z;
  heap_size_limit : Z;
  malloced_memory : Z;
  external_memory : Z;
  peak_malloced_memory : Z;
  number_of_native_contexts : Z;
  number_of_detached_contexts : Z
}.

(** An error record none of whose members is set, as in
    [RtnValue rtn = {nullptr, nullptr}]. *)
Definition RtnError_null : RtnError :=
  {| msg := None; location := None; stack := None |}.

Definition RtnError_is_null (e : RtnError) : bool :=
  match msg e, location e, stack e with
  | None, None, None => true
  | _, _, _ => false
  end.

(** ** Objects and the store *)

Section Objects.
Context `{E : V8}.

(** The state of a [v8::Isolate] as far as this file depends on it: the
    flag [NewContext] sets and the engine's heap. *)
Record Isolate : Type := {
  capture_stack_trace_for_uncaught_exceptions : bool;
  heap : v8_Heap
}.

Record m_ctx : Type := {
  m_ctx_ptr : Persistent v8_Context;
  m_ctx_iso : field Ptr
}.

Record m_value : Type := {
  m_value_ptr : Persistent v8_Value;
  m_value_iso : field Ptr;
  m_value_ctx_ptr : field Ptr
}.

Record m_object_template : Type := {
  m_object_template_ptr : Persistent v8_ObjectTemplate;
  m_object_template_iso : field Ptr
}.

(** What an address of the store holds.  The boundary passes [void*]: a
    [static_cast] to the wrong type is not detected by the code. *)
Inductive object : Type :=
| OIsolate (i : Isolate)
| OContext (c : m_ctx)
| OValue (v : m_value)
| OObjectTemplate (ot : m_object_template).

End Objects.

Abbreviation State := (gmap N object) (only parsing).

(** ** Computations over the store *)

Definition M `{E : V8} (A : Type) : Type := State -> outcome (A * State).

Global Instance M_ret `{E : V8} : MRet M := fun A a st => Ret (a, st).

Global Instance M_bind `{E : V8} : MBind M := fun A B k m st =>
  match m st with
  | Ret (a, st') => k a st'
  | Undefined => Undefined
  | Fatal => Fatal
  end.

Section Primitives.
Context `{E : V8}.

Definition undefined {A : Type} : M A := fun _ => Undefined.
Definition fatal {A : Type} : M A := fun _ => Fatal.

(** [*p]: the address must hold a live object. *)
Definition load (p : Ptr) : M object := fun st =>
  match st !! p with
  | Some o => Ret (o, st)
  | None => Undefined
  end.

Definition store (p : Ptr) (o : object) : M unit := fun st =>
  Ret (tt, <[p := o]> st).

(** [new T]: an address that is neither null nor in use. *)
Definition new (o : object) : M Ptr := fun st =>
  let p := fresh ({[nullptr]} ∪ dom st) in Ret (p, <[p := o]> st).

Definition free (p : Ptr) : M unit := fun st => Ret (tt, delete p st).

(** Reading a member that was never assigned. *)
Definition read {A : Type} (f : field A) : M A :=
  match f with
  | Assigned a => mret a
  | Indeterminate => undefined
  end.

(** [operator->] / [operator*] on a handle that may be empty. *)
Definition deref {T : Type} (h : Local T) : M T :=
  match h with
  | Some x => mret x
  | None => undefined
  end.

Definition ToLocalChecked {T : Type} (h : MaybeLocal T) : M T :=
  match h with
  | Some x => mret x
  | None => fatal
  end.

Definition ToChecked {T : Type} (h : Maybe T) : M T :=
  match h with
  | Some x => mret x
  | None => fatal
  end.

(** [static_cast<T*>(ptr)] followed by a member access. *)
Definition as_isolate (p : Ptr) : M Isolate :=
  o ← load p; match o with OIsolate i => mret i | _ => undefined end.

Definition as_ctx (p : Ptr) : M m_ctx :=
  o ← load p; match o with OContext c => mret c | _ => undefined end.

Definition as_value (p : Ptr) : M m_value :=
  o ← load p; match o with OValue v => mret v | _ => undefined end.

Definition as_object_template (p : Ptr) : M m_object_template :=
  o ← load p; match o with OObjectTemplate t => mret t | _ => undefined end.

(** [int + int]; overflow is undefined. *)
Definition int_add (a b : Z) : M Z :=
  if (INT_MIN <=? a + b) && (a + b <=? INT_MAX) then mret (a + b)
  else undefined.

End Primitives.

(** ** Scopes *)

Section Code.
Context `{E : V8}.

(** [Locker locker(iso); Isolate::Scope isolate_scope(iso);
    HandleScope handle_scope(iso);] -- the isolate must be alive. *)
Definition Locker (iso : Ptr) : M Isolate := as_isolate iso.

(** [ISOLATE_SCOPE(iso_ptr)] *)
Definition ISOLATE_SCOPE (iso_ptr : Ptr) : M Isolate := Locker iso_ptr.

(** The isolate with another heap. *)
Definition with_heap (i : Isolate) (h : v8_Heap) : object :=
  OIsolate {| capture_stack_trace_for_uncaught_exceptions :=
                capture_stack_trace_for_uncaught_exceptions i;
              heap := h |}.

(** ** The error marshaller *)

(** [sb << *origin]: the stream reads a C string; a null [char*] breaks the
    precondition of the inserter. *)
Definition put_c_str (sb : string) (s : Utf8Value) : M string :=
  match s with
  | Some t => mret (sb +:+ c_str t)
  | None => undefined
  end.

Definition ExceptionError (try_catch : TryCatch v8_Value) (iso : Ptr)
    (ctx : Local v8_Context) : M RtnError :=
  _ ← Locker iso;
  if HasTerminated try_catch then
    mret {| msg := CopyString
                     "ExecutionTerminated: script execution has been terminated";
            location := None;
            stack := None |}
  else
    let exception := Utf8Value_of (Exception try_catch) in
    let rtn_msg := CopyString_Utf8Value exception in
    rtn_location ←
      match Message try_catch with
      | Some m =>
          let origin := Utf8Value_of (ResourceName m) in
          sb ← put_c_str EmptyString origin;
          sb ← match GetLineNumber m with
               | Some line => mret (sb +:+ ":" +:+ show_int line)
               | None => mret sb
               end;
          sb ← match GetStartColumn m with
               | Some start =>
                   column ← int_add start 1;
                   mret (sb +:+ ":" +:+ show_int column)
               | None => mret sb
               end;
          mret (CopyString sb)
      | None => mret None
      end;
    let rtn_stack :=
      match StackTrace try_catch with
      | Some s => CopyString_Utf8Value (Utf8Value_of (Some s))
      | None => None
      end in
    mret {| msg := rtn_msg; location := rtn_location; stack := rtn_stack |}.

(** ** Isolate *)

Definition NewIsolate : M Ptr :=
  new (OIsolate {| capture_stack_trace_for_uncaught_exceptions := false;
                   heap := Isolate_New |}).

Definition IsolateDispose (ptr : Ptr) : M unit :=
  if decide (ptr = nullptr) then mret tt
  else
    _ ← as_isolate ptr;          (* iso->Dispose() *)
    free ptr.

(** The request only matters to a script that is running. *)
Definition IsolateTerminateExecution (ptr : Ptr) : M unit :=
  _ ← as_isolate ptr;
  mret tt.

Definition IsolationGetHeapStatistics (ptr : Ptr) : M IsolateHStatistics :=
  if decide (ptr = nullptr) then
    (* IsolateHStatistics{0}: the first member is 0, the others are
       value-initialised *)
    mret {| total_heap_size := 0;
            total_heap_size_executable := 0;
            total_physical_size := 0;
            total_available_size := 0;
            used_heap_size := 0;
            heap_size_limit := 0;
            malloced_memory := 0;
            external_memory := 0;
            peak_malloced_memory := 0;
            number_of_native_contexts := 0;
            number_of_detached_contexts := 0 |}
  else
    iso ← as_isolate ptr;
    let hs := Isolate_GetHeapStatistics (heap iso) in
    mret {| total_heap_size := hs_total_heap_size hs;
            total_heap_size_executable := hs_total_heap_size_executable hs;
            total_physical_size := hs_total_physical_size hs;
            total_available_size := hs_total_available_size hs;
            used_heap_size := hs_used_heap_size hs;
            heap_size_limit := hs_heap_size_limit hs;
            malloced_memory := hs_malloced_memory hs;
            external_memory := hs_external_memory hs;
            peak_malloced_memory := hs_peak_malloced_memory hs;
            number_of_native_contexts := hs_number_of_native_contexts hs;
            number_of_detached_contexts := hs_number_of_detached_contexts hs |}.

(** ** ObjectTemplate *)

(** [LOCAL_OBJECT_TEMPLATE(ptr)]: yields [iso], the isolate it designates
    and the handle [object_template]. *)
Definition LOCAL_OBJECT_TEMPLATE (ptr : Ptr)
    : M (Ptr * Isolate * Local v8_ObjectTemplate) :=
  ot ← as_object_template ptr;
  iso ← read (m_object_template_iso ot);
  i ← Locker iso;
  mret (iso, i, m_object_template_ptr ot).

Definition NewObjectTemplate (iso_ptr : Ptr) : M Ptr :=
  iso ← Locker iso_ptr;
  let made := ObjectTemplate_New (heap iso) in   (* ObjectTemplate::New(iso) *)
  _ ← store iso_ptr (with_heap iso made.2);
  new (OObjectTemplate
         {| m_object_template_ptr := Some made.1;
            m_object_template_iso := Assigned iso_ptr |}).

(** [delete static_cast<m_object_template*>(ptr)]: deleting a null pointer
    does nothing; the destructor of [Persistent] does not reset the handle. *)
Definition ObjectTemplateDispose (ptr : Ptr) : M unit :=
  if decide (ptr = nullptr) then mret tt
  else
    _ ← as_object_template ptr;
    free ptr.

Definition ObjectTemplateSetValue (ptr : Ptr) (name : string) (val_ptr : Ptr)
    (attributes : Z) : M unit :=
  l ← LOCAL_OBJECT_TEMPLATE ptr;
  prop_name ← ToLocalChecked (String_NewFromUtf8 (c_str name));
  val ← as_value val_ptr;
  object_template ← deref l.2;
  v ← deref (m_value_ptr val);
  store l.1.1
    (with_heap l.1.2
       (ObjectTemplate_Set (heap l.1.2) object_template prop_name (inl v)
          attributes)).

Definition ObjectTemplateSetObjectTemplate (ptr : Ptr) (name : string)
    (obj_ptr : Ptr) (attributes : Z) : M unit :=
  l ← LOCAL_OBJECT_TEMPLATE ptr;
  prop_name ← ToLocalChecked (String_NewFromUtf8 (c_str name));
  obj ← as_object_template obj_ptr;
  object_template ← deref l.2;
  t ← deref (m_object_template_ptr obj);
  store l.1.1
    (with_heap l.1.2
       (ObjectTemplate_Set (heap l.1.2) object_template prop_name (inr t)
          attributes)).

(** ** Context *)

Definition NewContext (iso_ptr : Ptr) (global_template_ptr : Ptr) : M Ptr :=
  iso ← Locker iso_ptr;
  (* the handle [global_template] and the heap once it exists *)
  global_template ←
    (if decide (global_template_ptr ≠ nullptr) then
       ob ← as_object_template global_template_ptr;
       mret (m_object_template_ptr ob, heap iso)
     else
       let made := ObjectTemplate_New (heap iso) in
       mret (Some made.1, made.2));
  (* iso->SetCaptureStackTraceForUncaughtExceptions(true);
     Context::New(iso, nullptr, global_template), which allocates the
     context in the isolate's heap *)
  let created := Context_New global_template.2 global_template.1 in
  _ ← store iso_ptr
        (OIsolate {| capture_stack_trace_for_uncaught_exceptions := true;
                     heap := created.2 |});
  new (OContext {| m_ctx_ptr := Some created.1;
                   m_ctx_iso := Assigned iso_ptr |}).

Definition RunScript (ctx_ptr : Ptr) (source origin : string) : M RtnValue :=
  ctx ← as_ctx ctx_ptr;
  iso ← read (m_ctx_iso ctx);
  i ← Locker iso;
  local_ctx ← deref (m_ctx_ptr ctx);        (* Context::Scope *)
  src ← ToLocalChecked (String_NewFromUtf8 (c_str source));
  ogn ← ToLocalChecked (String_NewFromUtf8 (c_str origin));
  match Script_Compile local_ctx src ogn with
  | inr try_catch =>
      rtn_error ← ExceptionError try_catch iso (Some local_ctx);
      mret {| value := nullptr; error := rtn_error |}
  | inl script =>
      (* script.ToLocalChecked()->Run(local_ctx); the run leaves the
         isolate's heap as the engine says *)
      let ran := Script_Run script local_ctx (heap i) in
      _ ← store iso (with_heap i ran.2);
      match ran.1 with
      | inr try_catch =>
          rtn_error ← ExceptionError try_catch iso (Some local_ctx);
          mret {| value := nullptr; error := rtn_error |}
      | inl result =>
          val ← new (OValue {| m_value_ptr := Some result;
                               m_value_iso := Assigned iso;
                               m_value_ctx_ptr := Assigned ctx_ptr |});
          mret {| value := val; error := RtnError_null |}
      end
  end.

Definition ContextDispose (ptr : Ptr) : M unit :=
  if decide (ptr = nullptr) then mret tt
  else
    _ ← as_ctx ptr;              (* ctx->ptr.Reset() *)
    free ptr.

(** ** Value *)

(** [LOCAL_VALUE(ptr)]: yields [iso], the context entered through
    [ctx->ptr.Get(iso)] and the handle [value]. *)
Definition LOCAL_VALUE (ptr : Ptr)
    : M (Ptr * v8_Context * Local v8_Value) :=
  val ← as_value ptr;
  ctx ← read (m_value_ctx_ptr val);
  iso ← read (m_value_iso val);
  _ ← Locker iso;
  c ← as_ctx ctx;                           (* ctx->ptr *)
  local_ctx ← deref (m_ctx_ptr c);          (* Context::Scope *)
  mret (iso, local_ctx, m_value_ptr val).

(** [m_value* val = new m_value; val->iso = iso; val->ptr.Reset(iso, ...)]:
    the statements every [NewValue] constructor consists of.  [ctx_ptr] is
    not assigned. *)
Definition new_m_value (iso : Ptr) (v : v8_Value) : M Ptr :=
  new (OValue {| m_value_ptr := Some v;
                 m_value_iso := Assigned iso;
                 m_value_ctx_ptr := Indeterminate |}).

Definition NewValueInteger (iso_ptr : Ptr) (v : Z) : M Ptr :=
  _ ← ISOLATE_SCOPE iso_ptr;
  new_m_value iso_ptr (Integer_New v).

Definition NewValueIntegerFromUnsigned (iso_ptr : Ptr) (v : Z) : M Ptr :=
  _ ← ISOLATE_SCOPE iso_ptr;
  new_m_value iso_ptr (Integer_NewFromUnsigned v).

Definition NewValueString (iso_ptr : Ptr) (v : string) : M Ptr :=
  _ ← ISOLATE_SCOPE iso_ptr;
  s ← ToLocalChecked (String_NewFromUtf8 (c_str v));
  new_m_value iso_ptr s.

(** [Boolean::New(iso, v)] converts the [int] to [bool]. *)
Definition NewValueBoolean (iso_ptr : Ptr) (v : Z) : M Ptr :=
  _ ← ISOLATE_SCOPE iso_ptr;
  new_m_value iso_ptr (Boolean_New (negb (v =? 0))).

Definition NewValueNumber (iso_ptr : Ptr) (v : v8_double) : M Ptr :=
  _ ← ISOLATE_SCOPE iso_ptr;
  new_m_value iso_ptr (Number_New v).

Definition NewValueBigInt (iso_ptr : Ptr) (v : Z) : M Ptr :=
  _ ← ISOLATE_SCOPE iso_ptr;
  new_m_value iso_ptr (BigInt_New v).

Definition NewValueBigIntFromUnsigned (iso_ptr : Ptr) (v : Z) : M Ptr :=
  _ ← ISOLATE_SCOPE iso_ptr;
  new_m_value iso_ptr (BigInt_NewFromUnsigned v).

(** [words] is the array the caller passes; the engine reads its first
    [word_count] elements, and reading past the end of the array is
    undefined.  The temporary context is created in the isolate's heap. *)
Definition NewValueBigIntFromWords (iso_ptr : Ptr) (sign_bit word_count : Z)
    (words : list Z) : M Ptr :=
  iso ← ISOLATE_SCOPE iso_ptr;
  let created := Context_New (heap iso) None in       (* Context::New(iso) *)
  _ ← store iso_ptr (with_heap iso created.2);
  _ ← (if Z.of_nat (length words) <? word_count then undefined else mret tt);
  bigint ← ToLocalChecked
             (BigInt_NewFromWords created.1 sign_bit word_count
                (take (Z.to_nat word_count) words));
  new_m_value iso_ptr bigint.

(** [delete static_cast<m_value*>(ptr)]: as for [ObjectTemplateDispose],
    nothing happens for a null pointer. *)
Definition ValueDispose (ptr : Ptr) : M unit :=
  if decide (ptr = nullptr) then mret tt
  else
    _ ← as_value ptr;
    free ptr.

(** The [uint32_t] allocated for the result is returned by content;
    [None] is [nullptr]. *)
Definition ValueToArrayIndex (ptr : Ptr) : M (option Z) :=
  l ← LOCAL_VALUE ptr;
  v ← deref l.2;
  mret (Value_ToArrayIndex l.1.2 v).

Definition ValueToBoolean (ptr : Ptr) : M Z :=
  l ← LOCAL_VALUE ptr;
  v ← deref l.2;
  mret (if Value_BooleanValue v then 1 else 0).

Definition ValueToInt32 (ptr : Ptr) : M Z :=
  l ← LOCAL_VALUE ptr;
  v ← deref l.2;
  ToChecked (Value_Int32Value l.1.2 v).

Definition ValueToInteger (ptr : Ptr) : M Z :=
  l ← LOCAL_VALUE ptr;
  v ← deref l.2;
  ToChecked (Value_IntegerValue l.1.2 v).

Definition ValueToNumber (ptr : Ptr) : M v8_double :=
  l ← LOCAL_VALUE ptr;
  v ← deref l.2;
  ToChecked (Value_NumberValue l.1.2 v).

Definition ValueToDetailString (ptr : Ptr) : M c_string :=
  l ← LOCAL_VALUE ptr;
  v ← deref l.2;
  ds ← ToLocalChecked (Value_ToDetailString l.1.2 v);
  mret (CopyString_Utf8Value (Utf8Value_of (Some ds))).

Definition ValueToString (ptr : Ptr) : M c_string :=
  l ← LOCAL_VALUE ptr;
  mret (CopyString_Utf8Value (Utf8Value_of l.2)).

Definition ValueToUint32 (ptr : Ptr) : M Z :=
  l ← LOCAL_VALUE ptr;
  v ← deref l.2;
  ToChecked (Value_Uint32Value l.1.2 v).

Definition ValueToBigInt (ptr : Ptr) : M ValueBigInt :=
  l ← LOCAL_VALUE ptr;
  v ← deref l.2;
  match Value_ToBigInt l.1.2 v with
  | None => mret {| words := None; word_count := 0; sign_bit := 0 |}
  | Some bint =>
      let count := BigInt_WordCount bint in
      let written := BigInt_ToWordsArray bint count in
      mret {| words := Some written.2;
              word_count := written.1.2;
              sign_bit := written.1.1 |}
  end.

(** [ValueIsUndefined], ..., [ValueIsModuleNamespaceObject]: fifty-four
    functions of the shape [LOCAL_VALUE(ptr); return value->IsK();]. *)
Definition ValueIs (k : predicate) (ptr : Ptr) : M Z :=
  l ← LOCAL_VALUE ptr;
  v ← deref l.2;
  mret (if Value_Is k v then 1 else 0).

(** ** The two families of value operations *)

(** The constructors of host values, with their arguments. *)
Inductive construction : Type :=
| Integer (v : Z)
| IntegerFromUnsigned (v : Z)
| String_ (v : string)
| Boolean (v : Z)
| Number (v : v8_double)
| BigInt (v : Z)
| BigIntFromUnsigned (v : Z)
| BigIntFromWords (sign_bit word_count : Z) (words : list Z).

Definition NewValue (c : construction) (iso_ptr : Ptr) : M Ptr :=
  match c with
  | Integer v => NewValueInteger iso_ptr v
  | IntegerFromUnsigned v => NewValueIntegerFromUnsigned iso_ptr v
  | String_ v => NewValueString iso_ptr v
  | Boolean v => NewValueBoolean iso_ptr v
  | Number v => NewValueNumber iso_ptr v
  | BigInt v => NewValueBigInt iso_ptr v
  | BigIntFromUnsigned v => NewValueBigIntFromUnsigned iso_ptr v
  | BigIntFromWords sign_bit word_count words =>
      NewValueBigIntFromWords iso_ptr sign_bit word_count words
  end.

(** The conversions and predicates on a value handle. *)
Inductive inspection : Type :=
| ToArrayIndex
| ToBoolean
| ToInt32
| ToInteger
| ToNumber
| ToDetailString
| ToString
| ToUint32
| ToBigInt
| Is (k : predicate).

(** Running an inspection for its outcome, whatever the type of its
    result. *)
Definition inspect (op : inspection) (ptr : Ptr) : M unit :=
  match op with
  | ToArrayIndex => _ ← ValueToArrayIndex ptr; mret tt
  | ToBoolean => _ ← ValueToBoolean ptr; mret tt
  | ToInt32 => _ ← ValueToInt32 ptr; mret tt
  | ToInteger => _ ← ValueToInteger ptr; mret tt
  | ToNumber => _ ← ValueToNumber ptr; mret tt
  | ToDetailString => _ ← ValueToDetailString ptr; mret tt
  | ToString => _ ← ValueToString ptr; mret tt
  | ToUint32 => _ ← ValueToUint32 ptr; mret tt
  | ToBigInt => _ ← ValueToBigInt ptr; mret tt
  | Is k => _ ← ValueIs k ptr; mret tt
  end.

(** ** Sequences of calls *)

(** A call of an exported function with its arguments ([Init] and
    [Version], which do not touch the store, are left out). *)
Inductive call : Type :=
| CallNewIsolate
| CallIsolateDispose (ptr : Ptr)
| CallIsolateTerminateExecution (ptr : Ptr)
| CallIsolationGetHeapStatistics (ptr : Ptr)
| CallNewObjectTemplate (iso_ptr : Ptr)
| CallObjectTemplateDispose (ptr : Ptr)
| CallObjectTemplateSetValue (ptr : Ptr) (name : string) (val_ptr : Ptr)
    (attributes : Z)
| CallObjectTemplateSetObjectTemplate (ptr : Ptr) (name : string)
    (obj_ptr : Ptr) (attributes : Z)
| CallNewContext (iso_ptr global_template_ptr : Ptr)
| CallRunScript (ctx_ptr : Ptr) (source origin : string)
| CallContextDispose (ptr : Ptr)
| CallNewValue (c : construction) (iso_ptr : Ptr)
| CallValueDispose (ptr : Ptr)
| CallInspect (op : inspection) (ptr : Ptr).

(** The effect of a call on the store; the caller keeps the result. *)
Definition run_call (c : call) : M unit :=
  match c with
  | CallNewIsolate => _ ← NewIsolate; mret tt
  | CallIsolateDispose ptr => IsolateDispose ptr
  | CallIsolateTerminateExecution ptr => IsolateTerminateExecution ptr
  | CallIsolationGetHeapStatistics ptr =>
      _ ← IsolationGetHeapStatistics ptr; mret tt
  | CallNewObjectTemplate iso_ptr => _ ← NewObjectTemplate iso_ptr; mret tt
  | CallObjectTemplateDispose ptr => ObjectTemplateDispose ptr
  | CallObjectTemplateSetValue ptr name val_ptr attributes =>
      ObjectTemplateSetValue ptr name val_ptr attributes
  | CallObjectTemplateSetObjectTemplate ptr name obj_ptr attributes =>
      ObjectTemplateSetObjectTemplate ptr name obj_ptr attributes
  | CallNewContext iso_ptr global_template_ptr =>
      _ ← NewContext iso_ptr global_template_ptr; mret tt
  | CallRunScript ctx_ptr source origin =>
      _ ← RunScript ctx_ptr source origin; mret tt
  | CallContextDispose ptr => ContextDispose ptr
  | CallNewValue c iso_ptr => _ ← NewValue c iso_ptr; mret tt
  | CallValueDispose ptr => ValueDispose ptr
  | CallInspect op ptr => inspect op ptr
  end.

Fixpoint run_calls (cs : list call) : M unit :=
  match cs with
  | [] => mret tt
  | c :: cs' => _ ← run_call c; run_calls cs'
  end.

(** [m] only reads the store. *)
Definition reads {A : Type} (m : M A) : Prop :=
  forall (st st' : gmap N object) (a : A), m st = Ret (a, st') -> st' = st.

(** [m] leaves the value object at [h] as it is. *)
Definition preserves {A : Type} (h : Ptr) (m : M A) : Prop :=
  forall (st st' : gmap N object) (a : A) (val : m_value),
    st !! h = Some (OValue val) ->
    m st = Ret (a, st') ->
    st' !! h = Some (OValue val).

End Code.

(** ** A small engine, to run the code on concrete inputs *)

Module Toy.

Inductive value : Type :=
| Undef
| Bool (b : bool)
| Num (n : Z)
| Str (s : string)
| Big (negative : bool) (magnitude : list Z)
| Sym.                                   (* has no string conversion *)

(** A compiled script is what running it will do. *)
Inductive script : Type :=
| Yield (v : value)
| Throw (caught : TryCatch value).

(** A context remembers the names its global object started with. *)
Record context : Type := {
  context_id : nat;
  global_names : list string
}.

(** The heap: how many contexts were created, and for each template
    created the names set on it. *)
Record heap : Type := {
  contexts : nat;
  templates : list (list string)
}.

Definition utf8 (v : value) : Utf8Value :=
  match v with
  | Undef => Some "undefined"%string
  | Bool b => Some (if b then "true" else "false")%string
  | Num n => Some (show_int n)
  | Str s => Some s
  | Big negative magnitude => Some "[bigint]"%string
  | Sym => None
  end.

Definition statistics (h : heap) : v8_HeapStatistics :=
  {| hs_total_heap_size := 4096;
     hs_total_heap_size_executable := 0;
     hs_total_physical_size := 4096;
     hs_total_available_size := 1024;
     hs_used_heap_size := 2048;
     hs_heap_size_limit := 8192;
     hs_malloced_memory := 64;
     hs_external_memory := 0;
     hs_peak_malloced_memory := 64;
     hs_number_of_native_contexts := Z.of_nat (contexts h);
     hs_number_of_detached_contexts := 0 |}.

Definition holds (k : predicate) (v : value) : bool :=
  match k, v with
  | IsUndefined, Undef | IsNullOrUndefined, Undef => true
  | IsBoolean, Bool _ | IsTrue, Bool true | IsFalse, Bool false => true
  | IsNumber, Num _ | IsInt32, Num _ => true
  | IsString, Str _ | IsName, Str _ => true
  | IsBigInt, Big _ _ => true
  | IsSymbol, Sym | IsName, Sym => true
  | _, _ => false
  end.

Definition number (v : value) : option Z :=
  match v with
  | Num n => Some n
  | _ => None
  end.

(** The engine whose compiler is [compile source origin]. *)
Definition engine
    (compile : string -> string -> script + TryCatch value) : V8 :=
  {| v8_Value := value;
     v8_Context := context;
     v8_ObjectTemplate := nat;
     v8_Script := script;
     v8_Heap := heap;
     v8_double := Z;
     Isolate_New := {| contexts := O; templates := [] |};
     Isolate_GetHeapStatistics := statistics;
     ObjectTemplate_New := fun h =>
       (length (templates h),
        {| contexts := contexts h; templates := templates h ++ [[]] |});
     ObjectTemplate_Set := fun h t name _ _ =>
       {| contexts := contexts h;
          templates :=
            alter (fun names => names ++ [default EmptyString (utf8 name)])
              t (templates h) |};
     Context_New := fun h t =>
       ({| context_id := contexts h;
           global_names :=
             match t with
             | Some n => default [] (templates h !! n)
             | None => []
             end |},
        {| contexts := S (contexts h); templates := templates h |});
     Script_Compile := fun _ src ogn =>
       match utf8 src, utf8 ogn with
       | Some s, Some o => compile s o
       | _, _ => compile EmptyString EmptyString
       end;
     Script_Run := fun s _ h =>
       match s with
       | Yield v => (inl v, h)
       | Throw caught => (inr caught, h)
       end;
     String_NewFromUtf8 := fun s => Some (Str s);
     String_Utf8Value := utf8;
     Integer_New := Num;
     Integer_NewFromUnsigned := Num;
     Boolean_New := Bool;
     Number_New := Num;
     BigInt_New := fun n => Big (n <? 0) [Z.abs n];
     BigInt_NewFromUnsigned := fun n => Big false [n];
     BigInt_NewFromWords := fun _ sign count ws =>
       if count <? 0 then None else Some (Big (negb (sign =? 0)) ws);
     BigInt_WordCount := fun v =>
       match v with
       | Big _ ws => Z.of_nat (length ws)
       | _ => 0
       end;
     BigInt_ToWordsArray := fun v capacity =>
       match v with
       | Big negative ws =>
           (if negative then 1 else 0, Z.of_nat (length ws),
            take (Z.to_nat capacity) ws)
       | _ => (0, 0, [])
       end;
     Value_Is := holds;
     Value_ToArrayIndex := fun _ v =>
       match v with
       | Num n => if 0 <=? n then Some n else None
       | _ => None
       end;
     Value_BooleanValue := fun v =>
       match v with
       | Undef | Bool false | Num 0 | Str EmptyString => false
       | _ => true
       end;
     Value_Int32Value := fun _ => number;
     Value_IntegerValue := fun _ => number;
     Value_NumberValue := fun _ => number;
     Value_Uint32Value := fun _ => number;
     Value_ToDetailString := fun _ v =>
       match utf8 v with
       | Some s => Some (Str s)
       | None => Some (Str "Symbol()")
       end;
     Value_ToBigInt := fun _ v =>
       match v with
       | Big _ _ => Some v
       | _ => None
       end |}.

End Toy.

(** ** Vocabulary of the statements *)

(** [s] holds no zero byte: it is the text of a C string. *)
Definition is_c_str (s : string) : Prop := c_str s = s.

(** The engine's contract for strings: a well-formed UTF-8 C string that
    the engine accepts is stored without loss. *)
Definition utf8_lossless `{E : V8} : Prop :=
  forall (s : string) (v : v8_Value),
    valid_utf8 s = true -> c_str s = s ->
    String_NewFromUtf8 s = Some v -> String_Utf8Value v = Some s.

(** What the engine makes of a script submitted to [RunScript]: its result
    or the exception it captured, and the heap afterwards. *)
Definition submit `{E : V8} (local_ctx : v8_Context) (src ogn : v8_Value)
    (h : v8_Heap) : (v8_Value + TryCatch v8_Value) * v8_Heap :=
  match Script_Compile local_ctx src ogn with
  | inr try_catch => (inr try_catch, h)
  | inl script => Script_Run script local_ctx h
  end.

(** The location as the specification words it: the resource name, then
    [":" line] if there is a line, then [":" column + 1] if there is a
    column. *)
Definition location_format (name : string) (line start : Maybe Z) : string :=
  name
  +:+ match line with
      | Some l => ":" +:+ show_int l
      | None => EmptyString
      end
  +:+ match start with
      | Some c => ":" +:+ show_int (c + 1)
      | None => EmptyString
      end.

(** A captured exception that leaves every member of the error record
    unset: not a termination, no text, no message, no stack text. *)
Definition silent `{E : V8} (try_catch : TryCatch v8_Value) : Prop :=
  HasTerminated try_catch = false /\
  Utf8Value_length (Utf8Value_of (Exception try_catch)) = 0 /\
  Message try_catch = None /\
  Utf8Value_length
    (match StackTrace try_catch with
     | Some s => String_Utf8Value s
     | None => None
     end) = 0.

(** A captured exception that [ExceptionError] marshals within defined
    behaviour: the resource name of its message has a string conversion
    and [column + 1] is an [int]. *)
Definition marshallable `{E : V8} (try_catch : TryCatch v8_Value) : Prop :=
  HasTerminated try_catch = true \/
  forall m, Message try_catch = Some m ->
    Utf8Value_of (ResourceName m) <> None /\
    forall c, GetStartColumn m = Some c -> INT_MIN <= c + 1 <= INT_MAX.


(** ** Concrete engines and stores *)

Module Demo.
Import Toy.

(** An exception thrown at [origin:line:column+1]. *)
Definition caught (text : value) (origin : string) (line column : Z)
    (trace : MaybeLocal value) : TryCatch value :=
  {| HasTerminated := false;
     Exception := Some text;
     Message := Some {| ResourceName := Some (Str origin);
                        GetLineNumber := Some line;
                        GetStartColumn := Some column |};
     StackTrace := trace |}.

Definition terminated : TryCatch value :=
  {| HasTerminated := true;
     Exception := None;
     Message := None;
     StackTrace := None |}.

(** An exception with an empty text to which the engine attached
    nothing. *)
Definition bare : TryCatch value :=
  {| HasTerminated := false;
     Exception := Some (Str EmptyString);
     Message := None;
     StackTrace := None |}.

(** The scripts of the demonstration; any other source is a syntax
    error. *)
Definition compile (source origin : string) : script + TryCatch value :=
  if String.eqb source "1+1" then inl (Yield (Num 2))
  else if String.eqb source "'café'" then inl (Yield (Str "café"))
  else if String.eqb source "''" then inl (Yield (Str EmptyString))
  else if String.eqb source "1n" then inl (Yield (Big false [1]))
  else if String.eqb source "for(;;){}" then inl (Throw terminated)
  else if String.eqb source "throw ''" then
    inl (Throw (caught (Str EmptyString) origin 1 0 None))
  else if String.eqb source "throw {stack: ''}" then
    inl (Throw (caught (Str "[object Object]") origin 1 0
                  (Some (Str EmptyString))))
  else if String.eqb source "nonexistentFn()" then
    inl (Throw (caught (Str "ReferenceError: nonexistentFn is not defined")
                  origin 1 0
                  (Some (Str "ReferenceError: nonexistentFn is not defined at main.js:1:1"))))
  else inr (caught (Str "SyntaxError: Unexpected token '('") origin 1 9 None).

Definition E : V8 := engine compile.

(** An engine every script of which fails with [bare]. *)
Definition mute : V8 := engine (fun _ _ => inl (Throw bare)).

Definition iso : Ptr := 1%N.
Definition ctx : Ptr := 2%N.

Definition the_context : context :=
  {| context_id := 0; global_names := [] |}.

(** The heap of an isolate in which one context was created from a fresh
    template. *)
Definition one_context : heap :=
  {| contexts := 1; templates := [[]] |}.

(** Objects of the store of an engine [engine f]. *)
Definition isolate_object (V : V8) (capture : bool) (h : @v8_Heap V)
    : @object V :=
  @OIsolate V (@Build_Isolate V capture h).

Definition context_object (V : V8) (c : @v8_Context V) : @object V :=
  @OContext V (@Build_m_ctx V (Some c) (Assigned iso)).

Definition value_object (V : V8) (v : @v8_Value V) (back : field Ptr)
    : @object V :=
  @OValue V (@Build_m_value V (Some v) (Assigned iso) back).

(** The store after [NewIsolate()]. *)
Definition fresh_isolate : gmap N (@object E) :=
  {[ iso := isolate_object E false {| contexts := O; templates := [] |} ]}.

(** The store after [NewIsolate()] and [NewContext(iso, nullptr)]. *)
Definition booted : gmap N (@object E) :=
  <[ ctx := context_object E the_context ]>
    (<[ iso := isolate_object E true one_context ]> ∅).

Definition booted_mute : gmap N (@object mute) :=
  <[ ctx := context_object mute the_context ]>
    (<[ iso := isolate_object mute true one_context ]> ∅).

(** [booted] with the result of a script at address 3. *)
Definition with_result (v : value) : gmap N (@object E) :=
  <[ 3%N := value_object E v (Assigned ctx) ]> booted.

(** [booted] with a host-constructed value at address 3. *)
Definition with_host_value (v : value) : gmap N (@object E) :=
  <[ 3%N := value_object E v Indeterminate ]> booted.

(** The store after [NewIsolate()] and
    [NewValueBigIntFromWords(iso, 0, 1, {1})]: the temporary context is
    counted in the heap, the value is at address 2. *)
Definition with_host_bigint : gmap N (@object E) :=
  <[ 2%N := value_object E (Big false [1]) Indeterminate ]>
    (<[ iso := isolate_object E false {| contexts := 1; templates := [] |} ]>
       ∅).

End Demo.

(** ** Vocabulary of the properties of the store *)

(** The member, if it was assigned. *)
Definition assigned {A : Type} (f : field A) : option A :=
  match f with
  | Assigned a => Some a
  | Indeterminate => None
  end.

(** The isolate a wrapper object is bound to: its [iso] member. *)
Definition iso_of `{E : V8} (o : object) : option Ptr :=
  match o with
  | OIsolate _ => None
  | OContext c => assigned (m_ctx_iso c)
  | OValue v => assigned (m_value_iso v)
  | OObjectTemplate ot => assigned (m_object_template_iso ot)
  end.

(** The objects this file allocates itself, as opposed to the isolates. *)
Definition is_wrapper `{E : V8} (o : object) : bool :=
  match o with
  | OIsolate _ => false
  | _ => true
  end.

(** A wrapper whose persistent handle is not empty and whose [iso] member
    was assigned. *)
Definition initialised `{E : V8} (o : object) : bool :=
  match o with
  | OIsolate _ => true
  | OContext c =>
      match m_ctx_ptr c, m_ctx_iso c with
      | Some _, Assigned _ => true
      | _, _ => false
      end
  | OValue v =>
      match m_value_ptr v, m_value_iso v with
      | Some _, Assigned _ => true
      | _, _ => false
      end
  | OObjectTemplate ot =>
      match m_object_template_ptr ot, m_object_template_iso ot with
      | Some _, Assigned _ => true
      | _, _ => false
      end
  end.

(** No object lives at the null address, and every wrapper is
    initialised. *)
Definition well_formed `{E : V8} (st : State) : Prop :=
  st !! nullptr = None /\
  forall (p : Ptr) (o : object), st !! p = Some o -> initialised o = true.

(** The one address in use that a call may write to or free, read off its
    arguments in the store in which it starts: the handle for a disposal
    and for [IsolateTerminateExecution], the isolate argument for a
    constructor, the isolate the handle is bound to for [RunScript], the
    template setters and the inspections. *)
Definition target `{E : V8} (st : State) (c : call) : option Ptr :=
  match c with
  | CallIsolateDispose p | CallObjectTemplateDispose p
  | CallContextDispose p | CallValueDispose p
  | CallIsolateTerminateExecution p => Some p
  | CallNewObjectTemplate iso_ptr | CallNewContext iso_ptr _
  | CallNewValue _ iso_ptr => Some iso_ptr
  | CallObjectTemplateSetValue p _ _ _
  | CallObjectTemplateSetObjectTemplate p _ _ _
  | CallRunScript p _ _ | CallInspect _ p => st !! p ≫= iso_of
  | CallNewIsolate | CallIsolationGetHeapStatistics _ => None
  end.

(** [c] is a disposal of the handle [h]. *)
Definition disposes `{E : V8} (h : Ptr) (c : call) : bool :=
  match c with
  | CallIsolateDispose p | CallObjectTemplateDispose p
  | CallContextDispose p | CallValueDispose p => bool_decide (p = h)
  | _ => false
  end.

(** [c] is a call of a function that allocates a wrapper or an isolate. *)
Definition allocates `{E : V8} (c : call) : bool :=
  match c with
  | CallNewIsolate | CallNewObjectTemplate _ | CallNewContext _ _
  | CallRunScript _ _ _ | CallNewValue _ _ => true
  | _ => false
  end.

(** The constructors that only wrap an engine value made from their
    argument: all but [NewValueString] and [NewValueBigIntFromWords]. *)
Definition scalar `{E : V8} (c : construction) : bool :=
  match c with
  | String_ _ | BigIntFromWords _ _ _ => false
  | _ => true
  end.

(** [m] leaves every object in place except, possibly, the one at [t]. *)
Definition frames `{E : V8} {A : Type} (t : option Ptr) (m : M A) : Prop :=
  forall (st st' : gmap N object) (a : A) (q : Ptr) (o : object),
    t <> Some q -> st !! q = Some o -> m st = Ret (a, st') ->
    st' !! q = Some o.

(** [m] leaves an isolate at [q] an isolate. *)
Definition stays_isolate `{E : V8} {A : Type} (q : Ptr) (m : M A) : Prop :=
  forall (st st' : gmap N object) (a : A) (i : Isolate),
    st !! q = Some (OIsolate i) -> m st = Ret (a, st') ->
    exists i', st' !! q = Some (OIsolate i').

(** [m] gives the address [p], if it is free, to no object. *)
Definition leaves_free `{E : V8} {A : Type} (p : Ptr) (m : M A) : Prop :=
  forall (st st' : gmap N object) (a : A),
    st !! p = None -> m st = Ret (a, st') -> st' !! p = None.

(** [m] takes well-formed stores to well-formed stores. *)
Definition keeps_well_formed `{E : V8} {A : Type} (m : M A) : Prop :=
  forall (st st' : gmap N object) (a : A),
    well_formed st -> m st = Ret (a, st') -> well_formed st'.

(** The store a sequence of calls leaves ([st] itself if the sequence does
    not return). *)
Definition store_after `{E : V8} (cs : list call) (st : State) : State :=
  match run_calls cs st with
  | Ret (_, st') => st'
  | _ => st
  end.

(** ** A longer session and an engine that rejects strings *)

Module Tour.
Import Toy.

(** An isolate (address 1), a context (2), a script result (3), a host
    value (4), a template (5) with the host value set on it, a context made
    from that template (6); then the first context and the script result
    are disposed of. *)
Definition session : list (@call Demo.E) :=
  [ @CallNewIsolate Demo.E;
    @CallNewContext Demo.E 1%N nullptr;
    @CallRunScript Demo.E 2%N "1+1" "main.js";
    @CallNewValue Demo.E (@Integer Demo.E 7) 1%N;
    @CallNewObjectTemplate Demo.E 1%N;
    @CallObjectTemplateSetValue Demo.E 5%N "seven" 4%N 0;
    @CallNewContext Demo.E 1%N 5%N;
    @CallInspect Demo.E (Is IsNumber) 3%N;
    @CallContextDispose Demo.E 2%N;
    @CallValueDispose Demo.E 3%N ].

Definition after_session : gmap N (@object Demo.E) :=
  @store_after Demo.E session ∅.

(** An isolate (1), a context (2), a template (3) and a host value (4). *)
Definition workshop : gmap N (@object Demo.E) :=
  @store_after Demo.E
    [ @CallNewIsolate Demo.E;
      @CallNewContext Demo.E 1%N nullptr;
      @CallNewObjectTemplate Demo.E 1%N;
      @CallNewValue Demo.E (@Integer Demo.E 7) 1%N ] ∅.

(** The heap of the isolate of [workshop]. *)
Definition workshop_heap : heap :=
  {| contexts := 1; templates := [[]; []] |}.

(** The demonstration engine with a bound on the length of strings:
    [String::NewFromUtf8] returns an empty handle for a longer one. *)
Definition limited (limit : nat) : V8 :=
  {| v8_Value := @v8_Value Demo.E;
     v8_Context := @v8_Context Demo.E;
     v8_ObjectTemplate := @v8_ObjectTemplate Demo.E;
     v8_Script := @v8_Script Demo.E;
     v8_Heap := @v8_Heap Demo.E;
     v8_double := @v8_double Demo.E;
     Isolate_New := @Isolate_New Demo.E;
     Isolate_GetHeapStatistics := @Isolate_GetHeapStatistics Demo.E;
     ObjectTemplate_New := @ObjectTemplate_New Demo.E;
     ObjectTemplate_Set := @ObjectTemplate_Set Demo.E;
     Context_New := @Context_New Demo.E;
     Script_Compile := @Script_Compile Demo.E;
     Script_Run := @Script_Run Demo.E;
     String_NewFromUtf8 := fun s =>
       if (limit <? String.length s)%nat then None else Some (Str s);
     String_Utf8Value := @String_Utf8Value Demo.E;
     Integer_New := @Integer_New Demo.E;
     Integer_NewFromUnsigned := @Integer_NewFromUnsigned Demo.E;
     Boolean_New := @Boolean_New Demo.E;
     Number_New := @Number_New Demo.E;
     BigInt_New := @BigInt_New Demo.E;
     BigInt_NewFromUnsigned := @BigInt_NewFromUnsigned Demo.E;
     BigInt_NewFromWords := @BigInt_NewFromWords Demo.E;
     BigInt_WordCount := @BigInt_WordCount Demo.E;
     BigInt_ToWordsArray := @BigInt_ToWordsArray Demo.E;
     Value_Is := @Value_Is Demo.E;
     Value_ToArrayIndex := @Value_ToArrayIndex Demo.E;
     Value_BooleanValue := @Value_BooleanValue Demo.E;
     Value_Int32Value := @Value_Int32Value Demo.E;
     Value_IntegerValue := @Value_IntegerValue Demo.E;
     Value_NumberValue := @Value_NumberValue Demo.E;
     Value_Uint32Value := @Value_Uint32Value Demo.E;
     Value_ToDetailString := @Value_ToDetailString Demo.E;
     Value_ToBigInt := @Value_ToBigInt Demo.E |}.

(** An isolate (1), a context (2) and a template (3) of the engine whose
    strings hold at most eight bytes. *)
Definition cramped : gmap N (@object (limited 8)) :=
  @store_after (limited 8)
    [ @CallNewIsolate (limited 8);
      @CallNewContext (limited 8) 1%N nullptr;
      @CallNewObjectTemplate (limited 8) 1%N ] ∅.

End Tour.

(** * Facts about the marshalling of strings *)

Lemma c_str_idemp (s : string) : c_str (c_str s) = c_str s.
Proof.
  induction s as [|c r IH]; simpl; [reflexivity|].
  destruct (Ascii.eqb c NUL) eqn:Hc; simpl; [reflexivity|].
  rewrite Hc, IH. reflexivity.
Qed.

Lemma c_str_app (a b : string) :
  is_c_str a -> c_str (a +:+ b) = a +:+ c_str b.
Proof.
  unfold is_c_str. induction a as [|c r IH]; simpl; [reflexivity|].
  destruct (Ascii.eqb c NUL) eqn:Hc; [discriminate|].
  intros [= Hr]. rewrite (IH Hr). reflexivity.
Qed.

Lemma is_c_str_app (a b : string) :
  is_c_str a -> is_c_str b -> is_c_str (a +:+ b).
Proof.
  intros Ha Hb. unfold is_c_str. rewrite (c_str_app a b Ha), Hb. reflexivity.
Qed.

Lemma c_str_terminated (s : string) :
  c_str (s +:+ String NUL EmptyString) = c_str s.
Proof.
  induction s as [|c r IH]; simpl; [reflexivity|].
  destruct (Ascii.eqb c NUL); [reflexivity|]. rewrite IH. reflexivity.
Qed.

Lemma CopyString_text (str : string) : CopyString str = Some (c_str str).
Proof. unfold CopyString. rewrite c_str_terminated. reflexivity. Qed.

Lemma Utf8Value_length_0 (s : string) :
  Utf8Value_length (Some s) = 0 <-> s = EmptyString.
Proof.
  unfold Utf8Value_length. destruct s; simpl; split; intros H;
    try reflexivity; try discriminate; lia.
Qed.

(** The overload for [String::Utf8Value]: a failed conversion and a string
    of length zero give [nullptr]; anything else gives its C text. *)
Lemma CopyString_Utf8Value_Some (s : string) :
  CopyString_Utf8Value (Some s) =
  match s with
  | EmptyString => None
  | String _ _ => Some (c_str s)
  end.
Proof.
  unfold CopyString_Utf8Value. destruct s as [|c r]; [reflexivity|].
  replace (Utf8Value_length (Some (String c r)) =? 0) with false.
  - rewrite CopyString_text, c_str_idemp. reflexivity.
  - symmetry. apply Z.eqb_neq. intros H%Utf8Value_length_0. discriminate.
Qed.

Lemma CopyString_Utf8Value_None (value : Utf8Value) :
  CopyString_Utf8Value value = None <-> Utf8Value_length value = 0.
Proof.
  destruct value as [s|]; [|split; reflexivity].
  rewrite CopyString_Utf8Value_Some, Utf8Value_length_0.
  destruct s; split; intros H; try reflexivity; discriminate.
Qed.

Lemma string_of_uint_is_c_str (d : Decimal.uint) :
  is_c_str (NilEmpty.string_of_uint d).
Proof.
  unfold is_c_str. induction d; simpl; try reflexivity; rewrite IHd;
    reflexivity.
Qed.

Lemma show_int_is_c_str (n : Z) : is_c_str (show_int n).
Proof.
  unfold show_int, NilZero.string_of_int, NilZero.string_of_uint.
  destruct (Z.to_int n) as [d|d].
  - destruct d; try reflexivity; apply (string_of_uint_is_c_str (_ d)).
  - unfold is_c_str. simpl.
    destruct d; try reflexivity;
      apply (f_equal (String "-")), (string_of_uint_is_c_str (_ d)).
Qed.

(** The well-formedness check at work: two-byte and four-byte sequences
    are accepted; a lone continuation byte, an overlong encoding, an
    encoded surrogate and a truncated sequence are not. *)
Example valid_utf8_examples :
  valid_utf8 "café" = true /\
  valid_utf8 "😀" = true /\
  valid_utf8 (String (ascii_of_N 0xA9) EmptyString) = false /\
  valid_utf8 (String (ascii_of_N 0xC0) (String (ascii_of_N 0x80) EmptyString))
    = false /\
  valid_utf8 (String (ascii_of_N 0xED)
                (String (ascii_of_N 0xA0)
                   (String (ascii_of_N 0x80) EmptyString))) = false /\
  valid_utf8 (String (ascii_of_N 0xE2) (String (ascii_of_N 0x82) EmptyString))
    = false.
Proof. repeat split. Qed.

(** What a C string keeps of a text with a zero byte. *)
Example c_str_truncates :
  c_str (String "a" (String NUL (String "b" EmptyString))) = "a"%string /\
  CopyString_Utf8Value (Some (String NUL (String "b" EmptyString)))
    = Some EmptyString.
Proof. split; reflexivity. Qed.

(** * Facts about computations over the store *)

Section StoreFacts.
Context `{E : V8}.
Implicit Types (st : gmap N object) (p : Ptr).

Lemma bind_Ret {A B : Type} (m : M A) (k : A -> M B) st a st' :
  m st = Ret (a, st') -> (m ≫= k) st = k a st'.
Proof. intros H. unfold mbind, M_bind. rewrite H. reflexivity. Qed.

Lemma bind_Undefined {A B : Type} (m : M A) (k : A -> M B) st :
  m st = Undefined -> (m ≫= k) st = Undefined.
Proof. intros H. unfold mbind, M_bind. rewrite H. reflexivity. Qed.

Lemma bind_inv {A B : Type} (m : M A) (k : A -> M B) st b st2 :
  (m ≫= k) st = Ret (b, st2) ->
  exists a st1, m st = Ret (a, st1) /\ k a st1 = Ret (b, st2).
Proof.
  unfold mbind, M_bind. destruct (m st) as [[a st1]| |]; try discriminate.
  intros H. exists a, st1. split; [reflexivity|exact H].
Qed.

Lemma load_Ret st p o : st !! p = Some o -> load p st = Ret (o, st).
Proof. intros H. unfold load. rewrite H. reflexivity. Qed.

Lemma load_inv st p o st' :
  load p st = Ret (o, st') -> st' = st /\ st !! p = Some o.
Proof.
  unfold load. destruct (st !! p); [|discriminate].
  intros [= -> ->]. split; reflexivity.
Qed.

Lemma as_isolate_Ret st p i :
  st !! p = Some (OIsolate i) -> as_isolate p st = Ret (i, st).
Proof. intros H. unfold as_isolate. rewrite (bind_Ret _ _ _ _ _ (load_Ret _ _ _ H)). reflexivity. Qed.

Lemma as_ctx_Ret st p c :
  st !! p = Some (OContext c) -> as_ctx p st = Ret (c, st).
Proof. intros H. unfold as_ctx. rewrite (bind_Ret _ _ _ _ _ (load_Ret _ _ _ H)). reflexivity. Qed.

Lemma as_value_Ret st p v :
  st !! p = Some (OValue v) -> as_value p st = Ret (v, st).
Proof. intros H. unfold as_value. rewrite (bind_Ret _ _ _ _ _ (load_Ret _ _ _ H)). reflexivity. Qed.

Lemma as_object_template_Ret st p t :
  st !! p = Some (OObjectTemplate t) -> as_object_template p st = Ret (t, st).
Proof.
  intros H. unfold as_object_template.
  rewrite (bind_Ret _ _ _ _ _ (load_Ret _ _ _ H)). reflexivity.
Qed.

Lemma as_isolate_inv st p i st' :
  as_isolate p st = Ret (i, st') -> st' = st /\ st !! p = Some (OIsolate i).
Proof.
  intros (o & st1 & [-> Ho]%load_inv & H)%bind_inv.
  destruct o; try discriminate. injection H as -> ->. split; [reflexivity|exact Ho].
Qed.

Lemma as_ctx_inv st p c st' :
  as_ctx p st = Ret (c, st') -> st' = st /\ st !! p = Some (OContext c).
Proof.
  intros (o & st1 & [-> Ho]%load_inv & H)%bind_inv.
  destruct o; try discriminate. injection H as -> ->. split; [reflexivity|exact Ho].
Qed.

Lemma as_value_inv st p v st' :
  as_value p st = Ret (v, st') -> st' = st /\ st !! p = Some (OValue v).
Proof.
  intros (o & st1 & [-> Ho]%load_inv & H)%bind_inv.
  destruct o; try discriminate. injection H as -> ->. split; [reflexivity|exact Ho].
Qed.

Lemma as_object_template_inv st p t st' :
  as_object_template p st = Ret (t, st') ->
  st' = st /\ st !! p = Some (OObjectTemplate t).
Proof.
  intros (o & st1 & [-> Ho]%load_inv & H)%bind_inv.
  destruct o; try discriminate. injection H as -> ->. split; [reflexivity|exact Ho].
Qed.

(** [new] returns an address that is not null and was not in use. *)
Lemma new_Ret st o :
  exists p, new o st = Ret (p, <[p := o]> st) /\ p <> nullptr /\ st !! p = None.
Proof.
  exists (fresh ({[nullptr]} ∪ dom st)). split; [reflexivity|].
  pose proof (is_fresh ({[nullptr]} ∪ dom st)) as Hfresh.
  split.
  - intros Heq. apply Hfresh. rewrite Heq. set_solver.
  - apply not_elem_of_dom. set_solver.
Qed.

Lemma new_inv st o p st' :
  new o st = Ret (p, st') ->
  st' = <[p := o]> st /\ p <> nullptr /\ st !! p = None.
Proof.
  destruct (new_Ret st o) as (q & Hq & Hnull & Hfree).
  rewrite Hq. intros [= <- <-]. auto.
Qed.

End StoreFacts.

(** The step of a proof at which the code allocates: names the address
    [new] returns, with the facts that it is not null and was free. *)
Ltac allocate p Hnew Hnull Hfree :=
  match goal with
  | |- context [new ?o ?s] =>
      destruct (new_Ret s o) as (p & Hnew & Hnull & Hfree)
  | |- context [new ?o] =>
      match goal with
      | |- context [(_ ≫= _) ?s] =>
          destruct (new_Ret s o) as (p & Hnew & Hnull & Hfree)
      end
  end.


(** * Facts about value handles *)

Section ValueFacts.
Context `{E : V8}.
Implicit Types (st : gmap N object) (p : Ptr).

(** [LOCAL_VALUE] returns only for a handle whose [iso] and [ctx_ptr]
    members were assigned and designate a live isolate and a live [m_ctx]
    with a non-empty context; it changes nothing and never aborts. *)
Lemma LOCAL_VALUE_cases st ptr :
  match LOCAL_VALUE ptr st with
  | Ret (r, st') =>
      st' = st /\
      exists val ctx iso i c local_ctx,
        st !! ptr = Some (OValue val) /\
        m_value_ctx_ptr val = Assigned ctx /\
        m_value_iso val = Assigned iso /\
        st !! iso = Some (OIsolate i) /\
        st !! ctx = Some (OContext c) /\
        m_ctx_ptr c = Some local_ctx /\
        r = (iso, local_ctx, m_value_ptr val)
  | Undefined => True
  | Fatal => False
  end.
Proof.
  unfold LOCAL_VALUE, as_value, as_ctx, Locker, as_isolate, load, read, deref,
    mbind, M_bind, mret, M_ret, undefined.
  destruct (st !! ptr) as [[| |val|]|] eqn:Hptr; try exact I.
  destruct (m_value_ctx_ptr val) as [|ctx] eqn:Hctx; try exact I.
  destruct (m_value_iso val) as [|iso] eqn:Hiso; try exact I.
  destruct (st !! iso) as [[i| | |]|] eqn:Hi; try exact I.
  destruct (st !! ctx) as [[|c| |]|] eqn:Hc; try exact I.
  destruct (m_ctx_ptr c) as [lc|] eqn:Hlc; try exact I.
  split; [reflexivity|]. exists val, ctx, iso, i, c, lc. auto 10.
Qed.

Lemma LOCAL_VALUE_Ret st ptr val ctx iso i c local_ctx :
  st !! ptr = Some (OValue val) ->
  m_value_ctx_ptr val = Assigned ctx ->
  m_value_iso val = Assigned iso ->
  st !! iso = Some (OIsolate i) ->
  st !! ctx = Some (OContext c) ->
  m_ctx_ptr c = Some local_ctx ->
  LOCAL_VALUE ptr st = Ret ((iso, local_ctx, m_value_ptr val), st).
Proof.
  intros Hptr Hctx Hiso Hi Hc Hlc.
  unfold LOCAL_VALUE, as_value, as_ctx, Locker, as_isolate, load, read, deref,
    mbind, M_bind, mret, M_ret.
  rewrite Hptr, Hctx, Hiso. simpl. rewrite Hi, Hc, Hlc. reflexivity.
Qed.

Lemma LOCAL_VALUE_Indeterminate st ptr val :
  st !! ptr = Some (OValue val) ->
  m_value_ctx_ptr val = Indeterminate ->
  LOCAL_VALUE ptr st = Undefined.
Proof.
  intros Hptr Hctx.
  unfold LOCAL_VALUE, as_value, load, read, mbind, M_bind, mret, M_ret.
  rewrite Hptr, Hctx. reflexivity.
Qed.

(** Every inspection starts with [LOCAL_VALUE]. *)
Lemma inspect_LOCAL_VALUE_Undefined op st ptr :
  LOCAL_VALUE ptr st = Undefined -> inspect op ptr st = Undefined.
Proof.
  intros H.
  destruct op; unfold inspect; apply bind_Undefined;
    [ unfold ValueToArrayIndex | unfold ValueToBoolean | unfold ValueToInt32
    | unfold ValueToInteger | unfold ValueToNumber
    | unfold ValueToDetailString | unfold ValueToString
    | unfold ValueToUint32 | unfold ValueToBigInt | unfold ValueIs ];
    apply bind_Undefined, H.
Qed.

Lemma inspect_defined op st ptr :
  inspect op ptr st <> Undefined ->
  exists r, LOCAL_VALUE ptr st = Ret (r, st).
Proof.
  intros Hdef. pose proof (LOCAL_VALUE_cases st ptr) as Hcases.
  destruct (LOCAL_VALUE ptr st) as [[r st']| |] eqn:Hlocal.
  - destruct Hcases as [-> _]. exists r. reflexivity.
  - exfalso. apply Hdef, inspect_LOCAL_VALUE_Undefined, Hlocal.
  - contradiction.
Qed.

(** What a constructor leaves at the address it returns. *)
Lemma new_m_value_inv st iso v ptr st' :
  new_m_value iso v st = Ret (ptr, st') ->
  ptr <> nullptr /\ st !! ptr = None /\
  st' = <[ptr := OValue {| m_value_ptr := Some v;
                           m_value_iso := Assigned iso;
                           m_value_ctx_ptr := Indeterminate |}]> st.
Proof.
  unfold new_m_value. intros (-> & Hnull & Hfree)%new_inv. auto.
Qed.

Lemma NewValue_inv st c iso_ptr ptr st' :
  NewValue c iso_ptr st = Ret (ptr, st') ->
  exists v, st' !! ptr = Some (OValue {| m_value_ptr := Some v;
                                        m_value_iso := Assigned iso_ptr;
                                        m_value_ctx_ptr := Indeterminate |}).
Proof.
  destruct c; simpl;
    [ unfold NewValueInteger | unfold NewValueIntegerFromUnsigned
    | unfold NewValueString | unfold NewValueBoolean | unfold NewValueNumber
    | unfold NewValueBigInt | unfold NewValueBigIntFromUnsigned
    | unfold NewValueBigIntFromWords ];
    intros (i & st1 & _ & H)%bind_inv.
  1,2,4,5,6,7:
    apply new_m_value_inv in H as (_ & _ & ->); eexists;
    apply lookup_insert_eq.
  - apply bind_inv in H as (s & st2 & _ & H).
    apply new_m_value_inv in H as (_ & _ & ->). eexists.
    apply lookup_insert_eq.
  - apply bind_inv in H as (? & st2 & _ & H).
    apply bind_inv in H as (? & st3 & _ & H).
    apply bind_inv in H as (b & st4 & _ & H).
    apply new_m_value_inv in H as (_ & _ & ->). eexists.
    apply lookup_insert_eq.
Qed.

End ValueFacts.

(** * Disposal and statistics on a null handle *)

(** C9.  Each of the four disposal operations ([IsolateDispose],
    [ContextDispose], [ObjectTemplateDispose], [ValueDispose]), called with
    a null handle, returns and leaves the store as it was.  This holds in
    every store, also in one where a dereference of the null address would
    be undefined: the null branch does not dereference the handle. *)
Theorem dispose_nullptr_is_noop `{E : V8} (st : gmap N object) :
  IsolateDispose nullptr st = Ret (tt, st) /\
  ContextDispose nullptr st = Ret (tt, st) /\
  ObjectTemplateDispose nullptr st = Ret (tt, st) /\
  ValueDispose nullptr st = Ret (tt, st).
Proof.
  unfold IsolateDispose, ContextDispose, ObjectTemplateDispose, ValueDispose.
  rewrite !decide_True by reflexivity. repeat split.
Qed.

(** A non-null handle is dereferenced: disposing of an address that holds
    no object of the expected type is undefined. *)
Lemma dispose_dangling_is_undefined `{E : V8} (st : gmap N object) (p : Ptr) :
  p <> nullptr -> st !! p = None ->
  IsolateDispose p st = Undefined /\
  ContextDispose p st = Undefined /\
  ObjectTemplateDispose p st = Undefined /\
  ValueDispose p st = Undefined.
Proof.
  intros Hp Hfree.
  unfold IsolateDispose, ContextDispose, ObjectTemplateDispose, ValueDispose.
  rewrite !decide_False by exact Hp.
  unfold as_isolate, as_ctx, as_object_template, as_value, load,
    mbind, M_bind.
  rewrite Hfree. repeat split.
Qed.

(** C8.  [IsolationGetHeapStatistics] called with a null handle returns a
    record whose eleven members are all zero, and leaves the store (hence
    every isolate in it) unchanged. *)
Theorem GetHeapStatistics_nullptr_zeroed `{E : V8} (st : gmap N object) :
  exists hs : IsolateHStatistics,
    IsolationGetHeapStatistics nullptr st = Ret (hs, st) /\
    total_heap_size hs = 0 /\
    total_heap_size_executable hs = 0 /\
    total_physical_size hs = 0 /\
    total_available_size hs = 0 /\
    used_heap_size hs = 0 /\
    heap_size_limit hs = 0 /\
    malloced_memory hs = 0 /\
    external_memory hs = 0 /\
    peak_malloced_memory hs = 0 /\
    number_of_native_contexts hs = 0 /\
    number_of_detached_contexts hs = 0.
Proof.
  unfold IsolationGetHeapStatistics. rewrite decide_True by reflexivity.
  eexists. split; [reflexivity|]. repeat split.
Qed.

(** The other branch reads the engine's counters and does not write. *)
Lemma GetHeapStatistics_read_only `{E : V8} (st st' : gmap N object)
    (ptr : Ptr) (hs : IsolateHStatistics) :
  IsolationGetHeapStatistics ptr st = Ret (hs, st') -> st' = st.
Proof.
  unfold IsolationGetHeapStatistics. case_decide.
  - intros [= _ <-]. reflexivity.
  - intros (i & st1 & [-> _]%as_isolate_inv & [= _ <-])%bind_inv. reflexivity.
Qed.

(** * Host-constructed values *)

(** C10.  Every conversion and predicate on a value handle enters the
    context its [ctx_ptr] member designates before it reads the value: an
    inspection that is not undefined was given a handle whose [ctx_ptr] was
    assigned and designates a live [m_ctx].  No [NewValue] constructor
    assigns [ctx_ptr]: the handle it returns holds an indeterminate
    [ctx_ptr], and every inspection of that handle is undefined. *)
Theorem host_value_ctx_ptr_indeterminate `{E : V8} (st st' : gmap N object)
    (c : construction) (iso_ptr ptr : Ptr) :
  NewValue c iso_ptr st = Ret (ptr, st') ->
  (forall (op : inspection) (q : Ptr) (st2 : gmap N object),
      inspect op q st2 <> Undefined ->
      exists val back mc,
        st2 !! q = Some (OValue val) /\
        m_value_ctx_ptr val = Assigned back /\
        st2 !! back = Some (OContext mc)) /\
  (exists val,
      st' !! ptr = Some (OValue val) /\
      m_value_ctx_ptr val = Indeterminate) /\
  (forall op : inspection, inspect op ptr st' = Undefined).
Proof.
  intros Hnew. split; [|split].
  - intros op q st2 (r & Hlocal)%inspect_defined.
    pose proof (LOCAL_VALUE_cases st2 q) as Hcases. rewrite Hlocal in Hcases.
    destruct Hcases as (_ & val & back & iso & i & mc & lc & Hq & Hback & _ & _ & Hmc & _).
    exists val, back, mc. auto.
  - destruct (NewValue_inv _ _ _ _ _ Hnew) as (v & Hptr).
    eexists. split; [exact Hptr|reflexivity].
  - intros op. destruct (NewValue_inv _ _ _ _ _ Hnew) as (v & Hptr).
    apply inspect_LOCAL_VALUE_Undefined.
    apply (LOCAL_VALUE_Indeterminate _ _ _ Hptr). reflexivity.
Qed.

Lemma host_value_ctx_ptr_indeterminate_witness :
  @NewValue Demo.E (Integer 7) Demo.iso Demo.booted
    = Ret (3%N, Demo.with_host_value (Toy.Num 7)) /\
  forall op : inspection,
    @inspect Demo.E op 3%N (Demo.with_host_value (Toy.Num 7)) = Undefined.
Proof.
  assert (H : @NewValue Demo.E (Integer 7) Demo.iso Demo.booted
              = Ret (3%N, Demo.with_host_value (Toy.Num 7)))
    by (vm_compute; reflexivity).
  split; [exact H|].
  apply (@host_value_ctx_ptr_indeterminate Demo.E _ _ _ _ _ H).
Defined.

(** C6.  [ValueToBigInt] applied to the handle that
    [NewValueBigIntFromWords] returns is undefined, whatever the sign and
    the words: the constructor leaves [ctx_ptr] indeterminate and the
    conversion dereferences it.  The round trip of [(0, [1])] does not come
    back with [(0, [1])]. *)
Theorem BigIntFromWords_ToBigInt_undefined `{E : V8}
    (st st' : gmap N object) (iso_ptr ptr : Ptr) (sign_bit word_count : Z)
    (words : list Z) :
  NewValueBigIntFromWords iso_ptr sign_bit word_count words st
    = Ret (ptr, st') ->
  ValueToBigInt ptr st' = Undefined.
Proof.
  intros Hnew.
  destruct (NewValue_inv st (BigIntFromWords sign_bit word_count words)
              iso_ptr ptr st' Hnew) as (v & Hptr).
  unfold ValueToBigInt. apply bind_Undefined.
  apply (LOCAL_VALUE_Indeterminate _ _ _ Hptr). reflexivity.
Qed.

Lemma BigIntFromWords_ToBigInt_undefined_witness :
  @NewValueBigIntFromWords Demo.E Demo.iso 0 1 [1] Demo.fresh_isolate
    = Ret (2%N, Demo.with_host_bigint) /\
  @ValueToBigInt Demo.E 2%N Demo.with_host_bigint = Undefined.
Proof.
  assert (H : @NewValueBigIntFromWords Demo.E Demo.iso 0 1 [1]
                Demo.fresh_isolate = Ret (2%N, Demo.with_host_bigint))
    by (vm_compute; reflexivity).
  split; [exact H|].
  apply (@BigIntFromWords_ToBigInt_undefined Demo.E _ _ _ _ _ _ _ H).
Defined.

(** The same BigInt as the result of a script, hence bound to its context,
    converts to sign 0 and the words [[1]]. *)
Example script_BigInt_ToBigInt :
  @ValueToBigInt Demo.E 3%N (Demo.with_result (Toy.Big false [1]))
  = Ret ({| words := Some [1]; word_count := 1; sign_bit := 0 |},
         Demo.with_result (Toy.Big false [1])).
Proof. vm_compute. reflexivity. Qed.

(** * The error marshaller *)

Lemma append_assoc (a b c : string) : (a +:+ b) +:+ c = a +:+ (b +:+ c).
Proof.
  induction a as [|x a IH]; [reflexivity|].
  change (String x ((a +:+ b) +:+ c) = String x (a +:+ (b +:+ c))).
  f_equal. exact IH.
Qed.

Lemma append_nil_r (a : string) : a +:+ EmptyString = a.
Proof.
  induction a as [|x a IH]; [reflexivity|].
  change (String x (a +:+ EmptyString) = String x a).
  f_equal. exact IH.
Qed.

Lemma location_format_is_c_str (name : string) (line start : Maybe Z) :
  is_c_str (location_format (c_str name) line start).
Proof.
  unfold location_format.
  apply is_c_str_app; [apply c_str_idemp|].
  apply is_c_str_app.
  - destruct line; [|reflexivity].
    apply is_c_str_app; [reflexivity|apply show_int_is_c_str].
  - destruct start; [|reflexivity].
    apply is_c_str_app; [reflexivity|apply show_int_is_c_str].
Qed.

(** What the stream holds when [ExceptionError] copies it. *)
Lemma stream_location_format (name : string) (line start : Maybe Z) :
  (let sb := EmptyString +:+ c_str name in
   let sb := match line with
             | Some l => sb +:+ ":" +:+ show_int l
             | None => sb
             end in
   match start with
   | Some c => sb +:+ ":" +:+ show_int (c + 1)
   | None => sb
   end) = location_format (c_str name) line start.
Proof.
  unfold location_format. destruct line, start; simpl;
    rewrite ?append_assoc, ?append_nil_r; reflexivity.
Qed.

Section MarshallerFacts.
Context `{E : V8}.
Implicit Types (st : gmap N object) (try_catch : TryCatch v8_Value).

(** The outcome of [ExceptionError], case by case: the record it returns,
    and when it does not return. *)
Lemma ExceptionError_cases st try_catch iso ctx :
  match ExceptionError try_catch iso ctx st with
  | Ret (e, st') =>
      st' = st /\
      (exists i, st !! iso = Some (OIsolate i)) /\
      marshallable try_catch /\
      if HasTerminated try_catch then
        e = {| msg := Some "ExecutionTerminated: script execution has been terminated"%string;
               location := None;
               stack := None |}
      else
        msg e = CopyString_Utf8Value (Utf8Value_of (Exception try_catch)) /\
        stack e = CopyString_Utf8Value
                    (match StackTrace try_catch with
                     | Some s => String_Utf8Value s
                     | None => None
                     end) /\
        location e =
          match Message try_catch with
          | Some m =>
              match Utf8Value_of (ResourceName m) with
              | Some name =>
                  Some (location_format (c_str name) (GetLineNumber m)
                          (GetStartColumn m))
              | None => None
              end
          | None => None
          end
  | Undefined =>
      (forall i, st !! iso <> Some (OIsolate i)) \/ ~ marshallable try_catch
  | Fatal => False
  end.
Proof.
  unfold ExceptionError, Locker, as_isolate, load, mbind, M_bind, mret, M_ret,
    undefined.
  destruct (st !! iso) as [[i| | |]|] eqn:Hiso;
    try (left; intros i' Hi'; discriminate).
  destruct (HasTerminated try_catch) eqn:Hterm.
  { split; [reflexivity|]. split; [eauto|]. split; [left; exact Hterm|].
    reflexivity. }
  destruct (Message try_catch) as [m|] eqn:Hmsg.
  2:{ split; [reflexivity|]. split; [eauto|]. split.
      - right. intros m' Hm'. congruence.
      - simpl. destruct (StackTrace try_catch); auto. }
  unfold put_c_str.
  destruct (Utf8Value_of (ResourceName m)) as [name|] eqn:Hname.
  2:{ right. intros [Ht|Hm]; [congruence|].
      destruct (Hm m Hmsg) as [Hnone _]. apply Hnone. exact Hname. }
  pose proof (stream_location_format name (GetLineNumber m)
                (GetStartColumn m)) as Hstream.
  pose proof (location_format_is_c_str name (GetLineNumber m)
                (GetStartColumn m)) as Htext.
  assert (Hstack :
            match StackTrace try_catch with
            | Some s => CopyString_Utf8Value (Utf8Value_of (Some s))
            | None => None
            end
            = CopyString_Utf8Value
                match StackTrace try_catch with
                | Some s => String_Utf8Value s
                | None => None
                end)
    by (destruct (StackTrace try_catch); reflexivity).
  destruct (GetStartColumn m) as [c|] eqn:Hcol.
  - unfold int_add, mret, M_ret, undefined.
    destruct ((INT_MIN <=? c + 1) && (c + 1 <=? INT_MAX)) eqn:Hrange.
    + destruct (GetLineNumber m) as [l|] eqn:Hline;
        (split; [reflexivity|]; split; [eauto|]; split;
         [ right; intros m' Hm'; assert (m' = m) as -> by congruence;
           split; [congruence|];
           intros c' Hc'; rewrite Hcol in Hc'; injection Hc' as <-;
           apply andb_prop in Hrange; lia
         | split; [reflexivity|]; split; [exact Hstack|];
           cbn [location]; rewrite CopyString_text;
           cbn zeta in Hstream; rewrite Hstream, Htext; reflexivity ]).
    + destruct (GetLineNumber m) as [l|] eqn:Hline;
        (right; intros [Ht|Hm]; [congruence|];
         destruct (Hm m Hmsg) as [_ Hin]; specialize (Hin c Hcol);
         apply andb_false_iff in Hrange; lia).
  - destruct (GetLineNumber m) as [l|] eqn:Hline;
      (split; [reflexivity|]; split; [eauto|]; split;
       [ right; intros m' Hm'; assert (m' = m) as -> by congruence;
           split; [congruence|];
         intros c' Hc'; congruence
       | split; [reflexivity|]; split; [exact Hstack|];
         cbn [location]; rewrite CopyString_text;
         cbn zeta in Hstream; rewrite Hstream, Htext; reflexivity ]).
Qed.

(** On a live isolate a marshallable exception is marshalled: the call
    returns and leaves the store unchanged. *)
Lemma ExceptionError_returns st try_catch iso ctx i :
  st !! iso = Some (OIsolate i) -> marshallable try_catch ->
  exists e, ExceptionError try_catch iso ctx st = Ret (e, st).
Proof.
  intros Hiso Hm. pose proof (ExceptionError_cases st try_catch iso ctx) as H.
  destruct (ExceptionError try_catch iso ctx st) as [[e st']| |].
  - destruct H as [-> _]. exists e. reflexivity.
  - destruct H as [H|H]; [destruct (H i Hiso)|contradiction].
  - contradiction.
Qed.

End MarshallerFacts.

(** C4.  For a captured exception that is not a termination and to which
    the engine attached a message, the location member is the resource
    name (the C text of its string conversion), followed by [":"] and the
    line number only if the engine reports one, followed by [":"] and the
    start column plus one only if the engine reports one; a piece the
    engine does not report is left out, not written as zero.  The
    hypotheses on the engine's answers are those of defined behaviour:
    the resource name has a string conversion and [column + 1] is an
    [int]. *)
Theorem ExceptionError_location `{E : V8} (st : gmap N object)
    (try_catch : TryCatch v8_Value) (iso : Ptr) (ctx : Local v8_Context)
    (i : Isolate) (m : v8_Message v8_Value) (name : string) :
  st !! iso = Some (OIsolate i) ->
  HasTerminated try_catch = false ->
  Message try_catch = Some m ->
  Utf8Value_of (ResourceName m) = Some name ->
  (forall c, GetStartColumn m = Some c -> INT_MIN <= c + 1 <= INT_MAX) ->
  exists e,
    ExceptionError try_catch iso ctx st = Ret (e, st) /\
    location e =
      Some (location_format (c_str name) (GetLineNumber m) (GetStartColumn m)).
Proof.
  intros Hiso Hterm Hmsg Hname Hcol.
  assert (Hm : marshallable try_catch).
  { right. intros m' Hm'. assert (m' = m) as -> by congruence.
    split; [congruence|exact Hcol]. }
  destruct (ExceptionError_returns st try_catch iso ctx i Hiso Hm) as [e He].
  exists e. split; [exact He|].
  pose proof (ExceptionError_cases st try_catch iso ctx) as H.
  rewrite He, Hterm, Hmsg, Hname in H.
  destruct H as (_ & _ & _ & _ & _ & Hloc). exact Hloc.
Qed.

Lemma ExceptionError_location_witness :
  exists e,
    @ExceptionError Demo.E
      (Demo.caught (Toy.Str "ReferenceError: nonexistentFn is not defined")
         "main.js" 3 4 None)
      Demo.iso (Some Demo.the_context) Demo.booted = Ret (e, Demo.booted) /\
    location e = Some "main.js:3:5"%string.
Proof.
  apply (@ExceptionError_location Demo.E Demo.booted
           (Demo.caught
              (Toy.Str "ReferenceError: nonexistentFn is not defined")
              "main.js" 3 4 None)
           Demo.iso (Some Demo.the_context)
           (@Build_Isolate Demo.E true Demo.one_context)
           {| ResourceName := Some (Toy.Str "main.js");
              GetLineNumber := Some 3;
              GetStartColumn := Some 4 |}
           "main.js").
  - reflexivity.
  - reflexivity.
  - reflexivity.
  - reflexivity.
  - intros c [= <-]. unfold INT_MIN, INT_MAX. lia.
Defined.

(** A piece the engine does not report is left out. *)
Example location_without_column :
  location_format "main.js" (Some 3) None = "main.js:3"%string /\
  location_format "main.js" None (Some 0) = "main.js:1"%string /\
  location_format "main.js" None None = "main.js"%string.
Proof. repeat split. Qed.

(** C5, as the code has it.  In an error record that [ExceptionError]
    returns, each member is either absent ([nullptr]) or a C string.  The
    message and the stack go through the overload of [CopyString] that
    answers [nullptr] for a string of length zero: the message is absent
    exactly when the exception has no text, the stack is absent exactly
    when execution was terminated or there is no stack trace or the stack
    trace is the empty string -- an empty stack trace is returned as the
    absent marker, as is a missing one.  The location is absent exactly
    when execution was terminated or the engine attached no message. *)
Theorem ExceptionError_members `{E : V8} (st st' : gmap N object)
    (try_catch : TryCatch v8_Value) (iso : Ptr) (ctx : Local v8_Context)
    (e : RtnError) :
  ExceptionError try_catch iso ctx st = Ret (e, st') ->
  (msg e = None <->
     HasTerminated try_catch = false /\
     Utf8Value_length (Utf8Value_of (Exception try_catch)) = 0) /\
  (location e = None <->
     HasTerminated try_catch = true \/ Message try_catch = None) /\
  (stack e = None <->
     HasTerminated try_catch = true \/
     Utf8Value_length
       (match StackTrace try_catch with
        | Some s => String_Utf8Value s
        | None => None
        end) = 0) /\
  (forall s, StackTrace try_catch = Some s ->
             String_Utf8Value s = Some EmptyString -> stack e = None) /\
  (forall t, msg e = Some t \/ location e = Some t \/ stack e = Some t ->
             c_str t = t).
Proof.
  intros He. pose proof (ExceptionError_cases st try_catch iso ctx) as H.
  rewrite He in H. destruct H as (_ & _ & Hm & H).
  destruct (HasTerminated try_catch) eqn:Hterm.
  { subst e. cbn [msg location stack]. repeat split; try tauto;
      try discriminate.
    - intros [? _]. discriminate.
    - intros t [[= <-]|[?|?]]; [reflexivity|discriminate|discriminate]. }
  destruct H as (Hmsg & Hstack & Hloc).
  destruct Hm as [?|Hm]; [congruence|].
  rewrite Hmsg, Hstack, Hloc, !CopyString_Utf8Value_None.
  split; [tauto|]. split; [|split; [|split]].
  - destruct (Message try_catch) as [m|]; [|tauto].
    destruct (Hm m eq_refl) as [Hname _].
    destruct (Utf8Value_of (ResourceName m)); [|contradiction].
    split; [discriminate|]. intros [?|?]; discriminate.
  - split; [auto|]. intros [?|?]; [discriminate|assumption].
  - intros s -> ->. reflexivity.
  - intros t [Ht|[Ht|Ht]].
    + destruct (Utf8Value_of (Exception try_catch)) as [x|]; [|discriminate].
      rewrite CopyString_Utf8Value_Some in Ht.
      destruct x as [|a x]; [discriminate|]. injection Ht as <-.
      apply (c_str_idemp (String a x)).
    + destruct (Message try_catch) as [m|]; [|discriminate].
      destruct (Utf8Value_of (ResourceName m)); [|discriminate].
      injection Ht as <-. apply location_format_is_c_str.
    + destruct (StackTrace try_catch) as [s|]; [|discriminate].
      destruct (String_Utf8Value s) as [x|]; [|discriminate].
      rewrite CopyString_Utf8Value_Some in Ht.
      destruct x as [|a x]; [discriminate|]. injection Ht as <-.
      apply (c_str_idemp (String a x)).
Qed.

Lemma ExceptionError_members_witness :
  let try_catch :=
    Demo.caught (Toy.Str "[object Object]") "main.js" 1 0
      (Some (Toy.Str EmptyString)) in
  let e := {| msg := Some "[object Object]"%string;
              location := Some "main.js:1:1"%string;
              stack := None |} in
  @ExceptionError Demo.E try_catch Demo.iso (Some Demo.the_context)
    Demo.booted = Ret (e, Demo.booted) /\
  (msg e = None <->
     HasTerminated try_catch = false /\
     Utf8Value_length (@Utf8Value_of Demo.E (Exception try_catch)) = 0) /\
  (location e = None <->
     HasTerminated try_catch = true \/ Message try_catch = None) /\
  (stack e = None <->
     HasTerminated try_catch = true \/
     Utf8Value_length
       (match StackTrace try_catch with
        | Some s => @String_Utf8Value Demo.E s
        | None => None
        end) = 0) /\
  (forall s, StackTrace try_catch = Some s ->
             @String_Utf8Value Demo.E s = Some EmptyString ->
             stack e = None) /\
  (forall t, msg e = Some t \/ location e = Some t \/ stack e = Some t ->
             c_str t = t).
Proof.
  intros try_catch e.
  assert (H : @ExceptionError Demo.E try_catch Demo.iso
                (Some Demo.the_context) Demo.booted = Ret (e, Demo.booted))
    by (vm_compute; reflexivity).
  split; [exact H|].
  exact (@ExceptionError_members Demo.E _ _ _ _ _ _ H).
Defined.

(** C5, as the claim words it, fails: the stack trace of [throw {stack: ''}]
    is the empty string, and the stack member of the error record is the
    absent marker, not an empty string; the record is the one of an
    exception without any stack trace. *)
Lemma empty_stack_trace_is_absent :
  exists e,
    @ExceptionError Demo.E
      (Demo.caught (Toy.Str "[object Object]") "main.js" 1 0
         (Some (Toy.Str EmptyString)))
      Demo.iso (Some Demo.the_context) Demo.booted = Ret (e, Demo.booted) /\
    stack e = None /\
    stack e <> Some EmptyString /\
    @ExceptionError Demo.E
      (Demo.caught (Toy.Str "[object Object]") "main.js" 1 0 None)
      Demo.iso (Some Demo.the_context) Demo.booted = Ret (e, Demo.booted).
Proof.
  eexists. split; [vm_compute; reflexivity|].
  split; [reflexivity|]. split; [discriminate|]. vm_compute. reflexivity.
Qed.

(** * Running a script *)

Section RunScriptFacts.
Context `{E : V8}.
Implicit Types (st : gmap N object) (try_catch : TryCatch v8_Value).

(** What [RunScript] does once the scopes are entered and the two strings
    exist. *)
Lemma RunScript_entered st ctx_ptr mc iso i local_ctx source origin src ogn :
  st !! ctx_ptr = Some (OContext mc) ->
  m_ctx_iso mc = Assigned iso ->
  st !! iso = Some (OIsolate i) ->
  m_ctx_ptr mc = Some local_ctx ->
  String_NewFromUtf8 (c_str source) = Some src ->
  String_NewFromUtf8 (c_str origin) = Some ogn ->
  RunScript ctx_ptr source origin st =
  match Script_Compile local_ctx src ogn with
  | inr try_catch =>
      (rtn_error ← ExceptionError try_catch iso (Some local_ctx);
       mret {| value := nullptr; error := rtn_error |}) st
  | inl script =>
      let ran := Script_Run script local_ctx (heap i) in
      let st1 :=
        <[iso := OIsolate {| capture_stack_trace_for_uncaught_exceptions :=
                               capture_stack_trace_for_uncaught_exceptions i;
                             heap := ran.2 |}]> st in
      match ran.1 with
      | inr try_catch =>
          (rtn_error ← ExceptionError try_catch iso (Some local_ctx);
           mret {| value := nullptr; error := rtn_error |}) st1
      | inl result =>
          (val ← new (OValue {| m_value_ptr := Some result;
                                m_value_iso := Assigned iso;
                                m_value_ctx_ptr := Assigned ctx_ptr |});
           mret {| value := val; error := RtnError_null |}) st1
      end
  end.
Proof.
  intros Hctx Hiso Hi Hlc Hsrc Hogn. unfold RunScript.
  rewrite (bind_Ret _ _ _ _ _ (as_ctx_Ret _ _ _ Hctx)).
  rewrite Hiso. cbn [read]. rewrite (bind_Ret _ _ st iso st eq_refl).
  unfold Locker. rewrite (bind_Ret _ _ _ _ _ (as_isolate_Ret _ _ _ Hi)).
  rewrite Hlc. cbn [deref]. rewrite (bind_Ret _ _ st local_ctx st eq_refl).
  rewrite Hsrc. cbn [ToLocalChecked]. rewrite (bind_Ret _ _ st src st eq_refl).
  rewrite Hogn. cbn [ToLocalChecked]. rewrite (bind_Ret _ _ st ogn st eq_refl).
  destruct (Script_Compile local_ctx src ogn) as [script|try_catch];
    [|reflexivity].
  cbn zeta.
  rewrite (bind_Ret (store iso _) _ st tt _ eq_refl).
  destruct (Script_Run script local_ctx (heap i)).1; reflexivity.
Qed.

(** A failed script: the error marshaller runs in a store where the
    isolate is alive, and its record is returned with a null value. *)
Lemma RunScript_failure st ctx_ptr mc iso i local_ctx source origin src ogn
    try_catch :
  st !! ctx_ptr = Some (OContext mc) ->
  m_ctx_iso mc = Assigned iso ->
  st !! iso = Some (OIsolate i) ->
  m_ctx_ptr mc = Some local_ctx ->
  String_NewFromUtf8 (c_str source) = Some src ->
  String_NewFromUtf8 (c_str origin) = Some ogn ->
  (submit local_ctx src ogn (heap i)).1 = inr try_catch ->
  exists st1 i1,
    st1 !! iso = Some (OIsolate i1) /\
    RunScript ctx_ptr source origin st =
    (rtn_error ← ExceptionError try_catch iso (Some local_ctx);
     mret {| value := nullptr; error := rtn_error |}) st1.
Proof.
  intros Hctx Hiso Hi Hlc Hsrc Hogn Hsub.
  rewrite (RunScript_entered _ _ _ _ _ _ _ _ _ _ Hctx Hiso Hi Hlc Hsrc Hogn).
  unfold submit in Hsub.
  destruct (Script_Compile local_ctx src ogn) as [script|tc].
  - cbn zeta. rewrite Hsub. eexists _, _. split; [apply lookup_insert_eq|].
    reflexivity.
  - injection Hsub as ->. exists st, i. split; [exact Hi|reflexivity].
Qed.

(** A script that yields a result: a new handle holds it, bound to the
    isolate and to the context it ran in. *)
Lemma RunScript_success st ctx_ptr mc iso i local_ctx source origin src ogn
    result :
  st !! ctx_ptr = Some (OContext mc) ->
  m_ctx_iso mc = Assigned iso ->
  st !! iso = Some (OIsolate i) ->
  m_ctx_ptr mc = Some local_ctx ->
  String_NewFromUtf8 (c_str source) = Some src ->
  String_NewFromUtf8 (c_str origin) = Some ogn ->
  (submit local_ctx src ogn (heap i)).1 = inl result ->
  exists val st',
    RunScript ctx_ptr source origin st
      = Ret ({| value := val; error := RtnError_null |}, st') /\
    val <> nullptr /\
    st !! val = None /\
    st' !! val = Some (OValue {| m_value_ptr := Some result;
                                 m_value_iso := Assigned iso;
                                 m_value_ctx_ptr := Assigned ctx_ptr |}).
Proof.
  intros Hctx Hiso Hi Hlc Hsrc Hogn Hsub.
  rewrite (RunScript_entered _ _ _ _ _ _ _ _ _ _ Hctx Hiso Hi Hlc Hsrc Hogn).
  unfold submit in Hsub.
  destruct (Script_Compile local_ctx src ogn) as [script|tc];
    [|discriminate].
  cbn zeta. rewrite Hsub.
  allocate val Hnew Hnull Hfree.
  rewrite (bind_Ret _ _ _ _ _ Hnew).
  eexists val, _. split; [reflexivity|]. split; [exact Hnull|].
  split; [|apply lookup_insert_eq].
  destruct (decide (val = iso)) as [->|Hne].
  - rewrite lookup_insert_eq in Hfree. discriminate.
  - rewrite lookup_insert_ne in Hfree by congruence. exact Hfree.
Qed.

End RunScriptFacts.

Lemma RtnError_is_null_iff (e : RtnError) :
  RtnError_is_null e = true <->
  msg e = None /\ location e = None /\ stack e = None.
Proof.
  destruct e as [[a|] [b|] [c|]]; cbn; split;
    first [discriminate | intros (? & ? & ?); discriminate | auto].
Qed.

(** The record of a marshalled exception has no member set exactly when
    the exception is [silent]. *)
Lemma ExceptionError_null_iff `{E : V8} (st st' : gmap N object)
    (try_catch : TryCatch v8_Value) (iso : Ptr) (ctx : Local v8_Context)
    (e : RtnError) :
  ExceptionError try_catch iso ctx st = Ret (e, st') ->
  RtnError_is_null e = true <-> silent try_catch.
Proof.
  intros He. pose proof (ExceptionError_cases st try_catch iso ctx) as H.
  rewrite He in H. destruct H as (_ & _ & Hm & H).
  rewrite RtnError_is_null_iff. unfold silent.
  destruct (HasTerminated try_catch) eqn:Hterm.
  { subst e. cbn. split; intros [? _]; discriminate. }
  destruct Hm as [?|Hm]; [congruence|].
  destruct H as (Hmsg & Hstack & Hloc).
  rewrite Hmsg, Hstack, Hloc, !CopyString_Utf8Value_None.
  assert (Hnone : match Message try_catch with
                  | Some m =>
                      match Utf8Value_of (ResourceName m) with
                      | Some name =>
                          Some (location_format (c_str name)
                                  (GetLineNumber m) (GetStartColumn m))
                      | None => None
                      end
                  | None => None
                  end = None <-> Message try_catch = None).
  { destruct (Message try_catch) as [m|]; [|tauto].
    destruct (Hm m eq_refl) as [Hname _].
    destruct (Utf8Value_of (ResourceName m)); [|contradiction].
    split; discriminate. }
  rewrite Hnone. tauto.
Qed.

(** The message member is absent exactly when the exception is not a
    termination and has no text. *)
Lemma ExceptionError_msg_None_iff `{E : V8} (st st' : gmap N object)
    (try_catch : TryCatch v8_Value) (iso : Ptr) (ctx : Local v8_Context)
    (e : RtnError) :
  ExceptionError try_catch iso ctx st = Ret (e, st') ->
  msg e = None <->
  HasTerminated try_catch = false /\
  Utf8Value_length (Utf8Value_of (Exception try_catch)) = 0.
Proof.
  intros He. pose proof (ExceptionError_cases st try_catch iso ctx) as H.
  rewrite He in H. destruct H as (_ & _ & _ & H).
  destruct (HasTerminated try_catch).
  - subst e. cbn. split; [discriminate|]. intros [? _]. discriminate.
  - destruct H as (-> & _ & _). rewrite CopyString_Utf8Value_None. tauto.
Qed.

(** What [RunScript] returns, case by case, whatever the engine.  Let
    [RunScript] be called on a live context of a live isolate with a source and an origin the engine accepts as
    strings.  If the script compiles and runs to a result, the call
    returns a non-null value and an error record with no member set.  If
    compilation or execution fails, every call that returns gives a null
    value together with the marshalled exception, and it does return when
    the exception is marshallable; the error record then has a member set
    unless the exception is [silent] (no termination, no text, no message,
    no stack text), in which case value and error are both null; its
    message member is set unless the exception is no termination and has
    no text. *)
Theorem RunScript_value_or_error `{E : V8} (st : gmap N object)
    (ctx_ptr iso : Ptr) (mc : m_ctx) (i : Isolate) (local_ctx : v8_Context)
    (source origin : string) (src ogn : v8_Value) :
  st !! ctx_ptr = Some (OContext mc) ->
  m_ctx_iso mc = Assigned iso ->
  st !! iso = Some (OIsolate i) ->
  m_ctx_ptr mc = Some local_ctx ->
  String_NewFromUtf8 (c_str source) = Some src ->
  String_NewFromUtf8 (c_str origin) = Some ogn ->
  match (submit local_ctx src ogn (heap i)).1 with
  | inl result =>
      exists rtn st',
        RunScript ctx_ptr source origin st = Ret (rtn, st') /\
        value rtn <> nullptr /\
        RtnError_is_null (error rtn) = true
  | inr try_catch =>
      (marshallable try_catch ->
       exists rtn st', RunScript ctx_ptr source origin st = Ret (rtn, st')) /\
      (forall rtn st',
          RunScript ctx_ptr source origin st = Ret (rtn, st') ->
          value rtn = nullptr /\
          (RtnError_is_null (error rtn) = true <-> silent try_catch) /\
          (msg (error rtn) = None <->
             HasTerminated try_catch = false /\
             Utf8Value_length (Utf8Value_of (Exception try_catch)) = 0))
  end.
Proof.
  intros Hctx Hiso Hi Hlc Hsrc Hogn.
  destruct (submit local_ctx src ogn (heap i)).1 as [result|try_catch]
    eqn:Hsub.
  - destruct (RunScript_success _ _ _ _ _ _ _ _ _ _ _
                Hctx Hiso Hi Hlc Hsrc Hogn Hsub)
      as (val & st' & Hrun & Hnull & _ & _).
    eexists _, st'. split; [exact Hrun|]. split; [exact Hnull|reflexivity].
  - destruct (RunScript_failure _ _ _ _ _ _ _ _ _ _ _
                Hctx Hiso Hi Hlc Hsrc Hogn Hsub)
      as (st1 & i1 & Hi1 & Hrun).
    rewrite Hrun. split.
    + intros Hm.
      destruct (ExceptionError_returns st1 try_catch iso (Some local_ctx) i1
                  Hi1 Hm) as [e He].
      rewrite (bind_Ret _ _ _ _ _ He). eexists _, _. reflexivity.
    + intros rtn st' (e & st2 & He & [= <- <-])%bind_inv.
      split; [reflexivity|]. cbn [error].
      split; [exact (ExceptionError_null_iff _ _ _ _ _ _ He)|].
      exact (ExceptionError_msg_None_iff _ _ _ _ _ _ He).
Qed.

Lemma RunScript_value_or_error_witness :
  (exists rtn st',
      @RunScript Demo.E Demo.ctx "1+1" "main.js" Demo.booted
        = Ret (rtn, st') /\
      value rtn <> nullptr /\
      RtnError_is_null (error rtn) = true) /\
  let try_catch := Demo.caught (Toy.Str EmptyString) "main.js" 1 0 None in
  (@marshallable Demo.E try_catch ->
   exists rtn st',
     @RunScript Demo.E Demo.ctx "throw ''" "main.js" Demo.booted
       = Ret (rtn, st')) /\
  (forall rtn st',
      @RunScript Demo.E Demo.ctx "throw ''" "main.js" Demo.booted
        = Ret (rtn, st') ->
      value rtn = nullptr /\
      (RtnError_is_null (error rtn) = true <-> @silent Demo.E try_catch) /\
      (msg (error rtn) = None <->
         HasTerminated try_catch = false /\
         Utf8Value_length (@Utf8Value_of Demo.E (Exception try_catch)) = 0)).
Proof.
  split.
  - apply (@RunScript_value_or_error Demo.E Demo.booted Demo.ctx Demo.iso
             (@Build_m_ctx Demo.E (Some Demo.the_context)
                (Assigned Demo.iso))
             (@Build_Isolate Demo.E true Demo.one_context) Demo.the_context
             "1+1" "main.js" (Toy.Str "1+1") (Toy.Str "main.js"));
      reflexivity.
  - apply (@RunScript_value_or_error Demo.E Demo.booted Demo.ctx Demo.iso
             (@Build_m_ctx Demo.E (Some Demo.the_context)
                (Assigned Demo.iso))
             (@Build_Isolate Demo.E true Demo.one_context) Demo.the_context
             "throw ''" "main.js" (Toy.Str "throw ''") (Toy.Str "main.js"));
      reflexivity.
Defined.

(** A failing script, through the same statement: [throw ''] has a message,
    hence a location, and the error is present though its message is
    not. *)
Example RunScript_throw_empty_string :
  exists st',
    @RunScript Demo.E Demo.ctx "throw ''" "main.js" Demo.booted
    = Ret ({| value := nullptr;
              error := {| msg := None;
                          location := Some "main.js:1:1"%string;
                          stack := None |} |}, st').
Proof. eexists. vm_compute. reflexivity. Qed.

(** The contract of the engine is needed: an engine that reported a failed
    run with an exception of empty text and neither message nor stack trace
    would make [RunScript] return a null value and an error record with no
    member set. *)
Lemma RunScript_both_null :
  exists st',
    @RunScript Demo.mute Demo.ctx "f()" "main.js" Demo.booted_mute
      = Ret ({| value := nullptr; error := RtnError_null |}, st') /\
    value {| value := nullptr; error := RtnError_null |} = nullptr /\
    RtnError_is_null (error {| value := nullptr; error := RtnError_null |})
      = true.
Proof. eexists. split; [vm_compute; reflexivity|]. split; reflexivity. Qed.





(** C3, as the code has it.  When a [RunScript] call ends because
    execution was terminated, it returns a null value and an error record
    whose message is exactly the sentinel
    ["ExecutionTerminated: script execution has been terminated"] and whose
    location and stack are absent. *)
Theorem RunScript_terminated `{E : V8} (st : gmap N object)
    (ctx_ptr iso : Ptr) (mc : m_ctx) (i : Isolate) (local_ctx : v8_Context)
    (source origin : string) (src ogn : v8_Value)
    (try_catch : TryCatch v8_Value) :
  st !! ctx_ptr = Some (OContext mc) ->
  m_ctx_iso mc = Assigned iso ->
  st !! iso = Some (OIsolate i) ->
  m_ctx_ptr mc = Some local_ctx ->
  String_NewFromUtf8 (c_str source) = Some src ->
  String_NewFromUtf8 (c_str origin) = Some ogn ->
  (submit local_ctx src ogn (heap i)).1 = inr try_catch ->
  HasTerminated try_catch = true ->
  exists st',
    RunScript ctx_ptr source origin st
    = Ret ({| value := nullptr;
              error :=
                {| msg := Some "ExecutionTerminated: script execution has been terminated"%string;
                   location := None;
                   stack := None |} |}, st').
Proof.
  intros Hctx Hiso Hi Hlc Hsrc Hogn Hsub Hterm.
  destruct (RunScript_failure _ _ _ _ _ _ _ _ _ _ _
              Hctx Hiso Hi Hlc Hsrc Hogn Hsub)
    as (st1 & i1 & Hi1 & Hrun).
  destruct (ExceptionError_returns st1 try_catch iso (Some local_ctx) i1 Hi1
              (or_introl Hterm)) as [e He].
  pose proof (ExceptionError_cases st1 try_catch iso (Some local_ctx)) as H.
  rewrite He, Hterm in H. destruct H as (_ & _ & _ & ->).
  exists st1. rewrite Hrun, (bind_Ret _ _ _ _ _ He). reflexivity.
Qed.

Lemma RunScript_terminated_witness :
  exists st',
    @RunScript Demo.E Demo.ctx "for(;;){}" "main.js" Demo.booted
    = Ret ({| value := nullptr;
              error :=
                {| msg := Some "ExecutionTerminated: script execution has been terminated"%string;
                   location := None;
                   stack := None |} |}, st').
Proof.
  apply (@RunScript_terminated Demo.E Demo.booted Demo.ctx Demo.iso
           (@Build_m_ctx Demo.E (Some Demo.the_context) (Assigned Demo.iso))
           (@Build_Isolate Demo.E true Demo.one_context) Demo.the_context
           "for(;;){}" "main.js" (Toy.Str "for(;;){}") (Toy.Str "main.js")
           Demo.terminated);
    reflexivity.
Defined.

(** C3, as the claim words it, fails: the message of a terminated run is
    not ["execution terminated"]. *)
Lemma terminated_message_differs :
  exists rtn st',
    @RunScript Demo.E Demo.ctx "for(;;){}" "main.js" Demo.booted
      = Ret (rtn, st') /\
    msg (error rtn) <> Some "execution terminated"%string /\
    location (error rtn) = None /\
    stack (error rtn) = None.
Proof.
  eexists _, _. split; [vm_compute; reflexivity|].
  split; [discriminate|]. split; reflexivity.
Qed.

(** * Creating a context *)

(** [NewContext] on a live isolate, with a template handle that is null or
    designates a live template: the call returns a fresh address holding
    the new context, and the isolate captures stack traces afterwards.
    [global_template] and [h] are the template handle and the heap with
    which [Context::New] is called. *)
Lemma NewContext_Ret `{E : V8} (st : gmap N object) (iso_ptr tmpl : Ptr)
    (i : Isolate) (global_template : MaybeLocal v8_ObjectTemplate)
    (h : v8_Heap) :
  st !! iso_ptr = Some (OIsolate i) ->
  (tmpl = nullptr /\
   global_template = Some (ObjectTemplate_New (heap i)).1 /\
   h = (ObjectTemplate_New (heap i)).2) \/
  (tmpl <> nullptr /\
   exists ot, st !! tmpl = Some (OObjectTemplate ot) /\
              global_template = m_object_template_ptr ot /\
              h = heap i) ->
  exists ctx,
    ctx <> nullptr /\ st !! ctx = None /\ ctx <> iso_ptr /\
    NewContext iso_ptr tmpl st =
    Ret (ctx,
         <[ctx := OContext
                    {| m_ctx_ptr := Some (Context_New h global_template).1;
                       m_ctx_iso := Assigned iso_ptr |}]>
           (<[iso_ptr := OIsolate
                           {| capture_stack_trace_for_uncaught_exceptions :=
                                true;
                              heap := (Context_New h global_template).2 |}]>
              st)).
Proof.
  intros Hi Htmpl. unfold NewContext, Locker.
  rewrite (bind_Ret _ _ _ _ _ (as_isolate_Ret _ _ _ Hi)).
  assert (Hgt :
            (if decide (tmpl ≠ nullptr)
             then ob ← as_object_template tmpl;
                  mret (m_object_template_ptr ob, heap i)
             else let made := ObjectTemplate_New (heap i) in
                  mret (Some made.1, made.2)) st
            = Ret ((global_template, h), st)).
  { destruct Htmpl as [(-> & -> & ->)|(Hne & ot & Hot & -> & ->)].
    - rewrite decide_False by (intros H; apply H; reflexivity). reflexivity.
    - rewrite decide_True by exact Hne.
      rewrite (bind_Ret _ _ _ _ _ (as_object_template_Ret _ _ _ Hot)).
      reflexivity. }
  rewrite (bind_Ret _ _ _ _ _ Hgt). cbn zeta. cbn [fst snd].
  rewrite (bind_Ret (store iso_ptr _) _ st tt _ eq_refl).
  allocate ctx Hnew Hnull Hfree.
  exists ctx. rewrite Hnew.
  assert (Hne : ctx <> iso_ptr).
  { intros ->. rewrite lookup_insert_eq in Hfree. discriminate. }
  rewrite lookup_insert_ne in Hfree by congruence. auto.
Qed.

(** C7.  A [NewContext] call on a live isolate, with a template handle
    that is null or live, returns a new context; when the template
    argument is null, the global object of that context is built from a
    fresh empty object template: the one [ObjectTemplate::New] creates
    during the call.  The call turns on the capture of stack traces for
    uncaught exceptions of the isolate, and the setting is idempotent:
    after a further [NewContext] call on the same isolate it is still
    on. *)
Theorem NewContext_default_global_and_capture `{E : V8}
    (st : gmap N object) (iso_ptr tmpl tmpl2 : Ptr) (i : Isolate) :
  st !! iso_ptr = Some (OIsolate i) ->
  tmpl = nullptr \/ (exists ot, st !! tmpl = Some (OObjectTemplate ot)) ->
  tmpl2 = nullptr \/ (exists ot, st !! tmpl2 = Some (OObjectTemplate ot)) ->
  exists ctx st1 i1 mc,
    NewContext iso_ptr tmpl st = Ret (ctx, st1) /\
    ctx <> nullptr /\
    st !! ctx = None /\
    st1 !! ctx = Some (OContext mc) /\
    m_ctx_iso mc = Assigned iso_ptr /\
    (tmpl = nullptr ->
     m_ctx_ptr mc =
       Some (Context_New (ObjectTemplate_New (heap i)).2
               (Some (ObjectTemplate_New (heap i)).1)).1) /\
    st1 !! iso_ptr = Some (OIsolate i1) /\
    capture_stack_trace_for_uncaught_exceptions i1 = true /\
    exists ctx2 st2 i2,
      NewContext iso_ptr tmpl2 st1 = Ret (ctx2, st2) /\
      st2 !! iso_ptr = Some (OIsolate i2) /\
      capture_stack_trace_for_uncaught_exceptions i2 = true.
Proof.
  intros Hi Htmpl Htmpl2.
  assert (Hargs : forall (s : gmap N object) (j : Isolate) (t : Ptr),
             t = nullptr \/ (exists ot, s !! t = Some (OObjectTemplate ot)) ->
             exists gt h,
               (t = nullptr /\
                gt = Some (ObjectTemplate_New (heap j)).1 /\
                h = (ObjectTemplate_New (heap j)).2) \/
               (t <> nullptr /\
                exists ot, s !! t = Some (OObjectTemplate ot) /\
                           gt = m_object_template_ptr ot /\ h = heap j)).
  { intros s j t Ht.
    destruct (decide (t = nullptr)) as [->|Hnn];
      [eexists _, _; left; eauto|].
    destruct Ht as [?|[ot Hot]]; [contradiction|].
    exists (m_object_template_ptr ot), (heap j). right. eauto 6. }
  destruct (Hargs st i tmpl Htmpl) as (gt & h & Hgt).
  destruct (NewContext_Ret st iso_ptr tmpl i gt h Hi Hgt)
    as (ctx & Hnull & Hfree & Hne & Hrun).
  match type of Hrun with
  | _ = Ret (_, ?s) => set (st1 := s) in *
  end.
  assert (Hi1 : st1 !! iso_ptr
                = Some (OIsolate
                          {| capture_stack_trace_for_uncaught_exceptions :=
                               true;
                             heap := (Context_New h gt).2 |})).
  { unfold st1. rewrite lookup_insert_ne by exact Hne.
    apply lookup_insert_eq. }
  eexists ctx, st1, _, _. split; [exact Hrun|].
  split; [exact Hnull|]. split; [exact Hfree|].
  split; [apply lookup_insert_eq|]. split; [reflexivity|].
  split.
  { intros ->. destruct Hgt as [(_ & -> & ->)|(Hnn & _)];
      [reflexivity|contradiction]. }
  split; [exact Hi1|]. split; [reflexivity|].
  assert (Htmpl2' : tmpl2 = nullptr \/
                    (exists ot, st1 !! tmpl2 = Some (OObjectTemplate ot))).
  { destruct Htmpl2 as [?|[ot Hot]]; [left; assumption|right].
    exists ot. unfold st1. rewrite !lookup_insert_ne by congruence.
    exact Hot. }
  destruct (Hargs st1
              {| capture_stack_trace_for_uncaught_exceptions := true;
                 heap := (Context_New h gt).2 |} tmpl2 Htmpl2')
    as (gt2 & h2 & Hgt2).
  destruct (NewContext_Ret st1 iso_ptr tmpl2 _ gt2 h2 Hi1 Hgt2)
    as (ctx2 & _ & _ & Hne2 & Hrun2).
  eexists ctx2, _, _. split; [exact Hrun2|].
  split; [rewrite lookup_insert_ne by exact Hne2; apply lookup_insert_eq|].
  reflexivity.
Qed.

Lemma NewContext_default_global_and_capture_witness :
  exists ctx st1 i1 mc,
    @NewContext Demo.E Demo.iso nullptr Demo.fresh_isolate = Ret (ctx, st1) /\
    ctx <> nullptr /\
    Demo.fresh_isolate !! ctx = None /\
    st1 !! ctx = Some (OContext mc) /\
    m_ctx_iso mc = Assigned Demo.iso /\
    (nullptr = nullptr -> m_ctx_ptr mc = Some Demo.the_context) /\
    st1 !! Demo.iso = Some (OIsolate i1) /\
    capture_stack_trace_for_uncaught_exceptions i1 = true /\
    exists ctx2 st2 i2,
      @NewContext Demo.E Demo.iso nullptr st1 = Ret (ctx2, st2) /\
      st2 !! Demo.iso = Some (OIsolate i2) /\
      capture_stack_trace_for_uncaught_exceptions i2 = true.
Proof.
  apply (@NewContext_default_global_and_capture Demo.E Demo.fresh_isolate
           Demo.iso nullptr nullptr
           (@Build_Isolate Demo.E false (@Isolate_New Demo.E))).
  - reflexivity.
  - left. reflexivity.
  - left. reflexivity.
Defined.

(** In the demonstration engine the global object of such a context starts
    without any name, and a template on which names were set gives them to
    the global object of its context. *)
Example NewContext_global_names :
  (exists st, (iso ← @NewIsolate Demo.E; NewContext iso nullptr) ∅
              = Ret (2%N, st) /\
              st !! 2%N = Some (Demo.context_object Demo.E
                                  {| Toy.context_id := 0;
                                     Toy.global_names := [] |})) /\
  (exists st, (iso ← @NewIsolate Demo.E;
               tmpl ← NewObjectTemplate iso;
               one ← NewValueInteger iso 1;
               _ ← ObjectTemplateSetValue tmpl "x" one 0;
               NewContext iso tmpl) ∅ = Ret (4%N, st) /\
              st !! 4%N = Some (Demo.context_object Demo.E
                                  {| Toy.context_id := 0;
                                     Toy.global_names := ["x"%string] |})).
Proof. split; eexists; split; vm_compute; reflexivity. Qed.

(** The store [Demo.booted] is the one the code reaches. *)
Example boot_reaches_booted :
  (iso ← @NewIsolate Demo.E; NewContext iso nullptr) ∅
  = Ret (Demo.ctx, Demo.booted).
Proof. vm_compute. reflexivity. Qed.

(** * Strings through construction and conversion *)

(** [ValueToString] on a handle bound to a live context: the UTF-8 text of
    the value, or [nullptr] when the text has length zero or the value
    cannot be converted. *)
Lemma ValueToString_Ret `{E : V8} (st : gmap N object) (ptr back iso : Ptr)
    (val : m_value) (i : Isolate) (mc : m_ctx) (local_ctx : v8_Context) :
  st !! ptr = Some (OValue val) ->
  m_value_ctx_ptr val = Assigned back ->
  m_value_iso val = Assigned iso ->
  st !! iso = Some (OIsolate i) ->
  st !! back = Some (OContext mc) ->
  m_ctx_ptr mc = Some local_ctx ->
  ValueToString ptr st
  = Ret (CopyString_Utf8Value (Utf8Value_of (m_value_ptr val)), st).
Proof.
  intros Hptr Hback Hiso Hi Hmc Hlc. unfold ValueToString.
  rewrite (bind_Ret _ _ _ _ _
             (LOCAL_VALUE_Ret _ _ _ _ _ _ _ _ Hptr Hback Hiso Hi Hmc Hlc)).
  reflexivity.
Qed.

(** The two halves of the round trip, each as the code has it.  Let [s]
    be a well-formed UTF-8 string without zero byte that the engine accepts, and let the engine store such
    strings without loss.  On a live isolate, [NewValueString] returns a
    new, non-null handle that holds the engine string of [s] and is bound
    to the isolate.  [ValueToString], on a handle that holds this string
    and whose context back-reference designates a live context, returns
    [s] when [s] is not empty and [nullptr] when [s] is empty. *)
Theorem NewValueString_ValueToString `{E : V8} (st st2 : gmap N object)
    (iso_ptr q back iso2 : Ptr) (i i2 : Isolate) (s : string) (v : v8_Value)
    (val : m_value) (mc : m_ctx) (local_ctx : v8_Context) :
  utf8_lossless ->
  valid_utf8 s = true ->
  c_str s = s ->
  String_NewFromUtf8 s = Some v ->
  st !! iso_ptr = Some (OIsolate i) ->
  st2 !! q = Some (OValue val) ->
  m_value_ptr val = Some v ->
  m_value_iso val = Assigned iso2 ->
  st2 !! iso2 = Some (OIsolate i2) ->
  m_value_ctx_ptr val = Assigned back ->
  st2 !! back = Some (OContext mc) ->
  m_ctx_ptr mc = Some local_ctx ->
  (exists ptr st' val',
      NewValueString iso_ptr s st = Ret (ptr, st') /\
      ptr <> nullptr /\
      st !! ptr = None /\
      st' !! ptr = Some (OValue val') /\
      m_value_ptr val' = Some v /\
      m_value_iso val' = Assigned iso_ptr) /\
  ValueToString q st2
  = Ret (match s with
         | EmptyString => None
         | String _ _ => Some s
         end, st2).
Proof.
  intros Hlossless Hvalid Hc Hv Hi Hq Hval Hiso2 Hi2 Hback Hmc Hlc. split.
  - unfold NewValueString, ISOLATE_SCOPE, Locker.
    rewrite (bind_Ret _ _ _ _ _ (as_isolate_Ret _ _ _ Hi)).
    rewrite Hc, Hv. cbn [ToLocalChecked].
    rewrite (bind_Ret _ _ st v st eq_refl).
    unfold new_m_value.
    allocate ptr Hnew Hnull Hfree.
    eexists ptr, _, _. split; [exact Hnew|].
    split; [exact Hnull|]. split; [exact Hfree|].
    split; [apply lookup_insert_eq|]. split; reflexivity.
  - rewrite (ValueToString_Ret _ _ _ _ _ _ _ _ Hq Hback Hiso2 Hi2 Hmc Hlc).
    rewrite Hval. cbn [Utf8Value_of].
    rewrite (Hlossless s v Hvalid Hc Hv), CopyString_Utf8Value_Some.
    destruct s; [reflexivity|]. rewrite Hc. reflexivity.
Qed.

Lemma Demo_utf8_lossless : @utf8_lossless Demo.E.
Proof. intros s v _ _ [= <-]. reflexivity. Qed.

Lemma NewValueString_ValueToString_witness :
  (exists ptr st' val',
      @NewValueString Demo.E Demo.iso "café" Demo.booted = Ret (ptr, st') /\
      ptr <> nullptr /\
      Demo.booted !! ptr = None /\
      st' !! ptr = Some (OValue val') /\
      m_value_ptr val' = Some (Toy.Str "café") /\
      m_value_iso val' = Assigned Demo.iso) /\
  @ValueToString Demo.E 3%N (Demo.with_result (Toy.Str "café"))
  = Ret (Some "café"%string, Demo.with_result (Toy.Str "café")).
Proof.
  apply (@NewValueString_ValueToString Demo.E Demo.booted
           (Demo.with_result (Toy.Str "café")) Demo.iso 3%N Demo.ctx Demo.iso
           (@Build_Isolate Demo.E true Demo.one_context)
           (@Build_Isolate Demo.E true Demo.one_context)
           "café" (Toy.Str "café")
           (@Build_m_value Demo.E (Some (Toy.Str "café")) (Assigned Demo.iso)
              (Assigned Demo.ctx))
           (@Build_m_ctx Demo.E (Some Demo.the_context) (Assigned Demo.iso))
           Demo.the_context).
  - exact Demo_utf8_lossless.
  - reflexivity.
  - reflexivity.
  - reflexivity.
  - reflexivity.
  - reflexivity.
  - reflexivity.
  - reflexivity.
  - reflexivity.
  - reflexivity.
  - reflexivity.
  - reflexivity.
Defined.

(** The handle of [Demo.with_result] is the one [RunScript] creates. *)
Example RunScript_reaches_with_result :
  @RunScript Demo.E Demo.ctx "'café'" "main.js" Demo.booted
  = Ret ({| value := 3%N; error := RtnError_null |},
         Demo.with_result (Toy.Str "café")).
Proof. vm_compute. reflexivity. Qed.

(** The empty string: the handle that [NewValueString] returns for it does
    not convert back to the empty string, and the same engine string in a
    handle bound to a live context converts to [nullptr]. *)
Lemma empty_string_does_not_round_trip :
  valid_utf8 EmptyString = true /\
  @NewValueString Demo.E Demo.iso EmptyString Demo.booted
    = Ret (3%N, Demo.with_host_value (Toy.Str EmptyString)) /\
  @ValueToString Demo.E 3%N (Demo.with_host_value (Toy.Str EmptyString))
    <> Ret (Some EmptyString, Demo.with_host_value (Toy.Str EmptyString)) /\
  @ValueToString Demo.E 3%N (Demo.with_result (Toy.Str EmptyString))
    = Ret (None, Demo.with_result (Toy.Str EmptyString)).
Proof.
  split; [reflexivity|]. split; [vm_compute; reflexivity|].
  split; [|vm_compute; reflexivity].
  replace (@ValueToString Demo.E 3%N
             (Demo.with_host_value (Toy.Str EmptyString)))
    with (@Undefined (c_string * gmap N (@object Demo.E)))
    by (vm_compute; reflexivity).
  discriminate.
Qed.

(** C1.  [ValueToString] applied to the handle that [NewValueString]
    returns is undefined, whatever the string: the constructor assigns
    [iso] and [ptr] and leaves [ctx_ptr] indeterminate, and the conversion
    dereferences [ctx_ptr] through [LOCAL_VALUE].  The round trip of
    ["café"] does not come back with ["café"]; the same engine string in
    the handle [RunScript] creates, whose [ctx_ptr] is assigned, does. *)
Theorem NewValueString_ValueToString_undefined `{E : V8}
    (st st' : gmap N object) (iso_ptr ptr : Ptr) (s : string) :
  NewValueString iso_ptr s st = Ret (ptr, st') ->
  ValueToString ptr st' = Undefined.
Proof.
  intros Hnew.
  destruct (NewValue_inv st (String_ s) iso_ptr ptr st' Hnew) as (v & Hptr).
  unfold ValueToString. apply bind_Undefined.
  apply (LOCAL_VALUE_Indeterminate _ _ _ Hptr). reflexivity.
Qed.

Lemma NewValueString_ValueToString_undefined_witness :
  @NewValueString Demo.E Demo.iso "café" Demo.booted
    = Ret (3%N, Demo.with_host_value (Toy.Str "café")) /\
  @ValueToString Demo.E 3%N (Demo.with_host_value (Toy.Str "café"))
    = Undefined.
Proof.
  assert (H : @NewValueString Demo.E Demo.iso "café" Demo.booted
              = Ret (3%N, Demo.with_host_value (Toy.Str "café")))
    by (vm_compute; reflexivity).
  split; [exact H|].
  apply (@NewValueString_ValueToString_undefined Demo.E _ _ _ _ _ H).
Defined.

(** * What later calls leave of a value handle *)

Create HintDb reads.

Section Preservation.
Context `{E : V8}.
Implicit Types (st : gmap N object) (h p : Ptr).

Lemma reads_ret {A : Type} (a : A) : reads (mret a : M A).
Proof. intros st st' b [= _ <-]. reflexivity. Qed.

Lemma reads_undefined {A : Type} : reads (undefined : M A).
Proof. intros st st' b [=]. Qed.

Lemma reads_fatal {A : Type} : reads (fatal : M A).
Proof. intros st st' b [=]. Qed.

Lemma reads_bind {A B : Type} (m : M A) (k : A -> M B) :
  reads m -> (forall a, reads (k a)) -> reads (m ≫= k).
Proof.
  intros Hm Hk st st' b (a & st1 & Ha & Hb)%bind_inv.
  rewrite (Hk a st1 st' b Hb). exact (Hm st st1 a Ha).
Qed.

Lemma reads_load p : reads (load p).
Proof. intros st st' o [-> _]%load_inv. reflexivity. Qed.

Lemma reads_read {A : Type} (f : field A) : reads (read f).
Proof. destruct f; [apply reads_undefined|apply reads_ret]. Qed.

Lemma reads_deref {T : Type} (l : Local T) : reads (deref l).
Proof. destruct l; [apply reads_ret|apply reads_undefined]. Qed.

Lemma reads_ToLocalChecked {T : Type} (l : MaybeLocal T) :
  reads (ToLocalChecked l).
Proof. destruct l; [apply reads_ret|apply reads_fatal]. Qed.

Lemma reads_ToChecked {T : Type} (l : Maybe T) : reads (ToChecked l).
Proof. destruct l; [apply reads_ret|apply reads_fatal]. Qed.

Lemma reads_as_isolate p : reads (as_isolate p).
Proof. intros st st' o [-> _]%as_isolate_inv. reflexivity. Qed.

Lemma reads_as_ctx p : reads (as_ctx p).
Proof. intros st st' o [-> _]%as_ctx_inv. reflexivity. Qed.

Lemma reads_as_value p : reads (as_value p).
Proof. intros st st' o [-> _]%as_value_inv. reflexivity. Qed.

Lemma reads_as_object_template p : reads (as_object_template p).
Proof. intros st st' o [-> _]%as_object_template_inv. reflexivity. Qed.

Lemma reads_LOCAL_VALUE p : reads (LOCAL_VALUE p).
Proof.
  intros st st' r H. pose proof (LOCAL_VALUE_cases st p) as Hc.
  rewrite H in Hc. destruct Hc as [-> _]. reflexivity.
Qed.

Lemma reads_ExceptionError try_catch iso ctx :
  reads (ExceptionError try_catch iso ctx).
Proof.
  intros st st' r H.
  pose proof (ExceptionError_cases st try_catch iso ctx) as Hc.
  rewrite H in Hc. destruct Hc as [-> _]. reflexivity.
Qed.

#[local] Hint Resolve reads_ret reads_undefined reads_fatal reads_load
  reads_read reads_deref reads_ToLocalChecked reads_ToChecked
  reads_as_isolate reads_as_ctx reads_as_value reads_as_object_template
  reads_LOCAL_VALUE reads_ExceptionError : reads.

(** The conversions and predicates are read-only. *)
Lemma reads_inspect op p : reads (inspect op p).
Proof.
  destruct op;
    unfold inspect, ValueToArrayIndex, ValueToBoolean, ValueToInt32,
      ValueToInteger, ValueToNumber, ValueToDetailString, ValueToString,
      ValueToUint32, ValueToBigInt, ValueIs;
    repeat (apply reads_bind; [|intros ?]); auto with reads.
  all: try match goal with
           | |- reads (match ?x with _ => _ end) =>
               destruct x; auto with reads
           end.
Qed.

Lemma reads_preserves {A : Type} h (m : M A) : reads m -> preserves h m.
Proof. intros Hm st st' a val Hh Ha. rewrite (Hm st st' a Ha). exact Hh. Qed.

Lemma preserves_bind {A B : Type} h (m : M A) (k : A -> M B) :
  preserves h m -> (forall a, preserves h (k a)) -> preserves h (m ≫= k).
Proof.
  intros Hm Hk st st' b val Hh (a & st1 & Ha & Hb)%bind_inv.
  exact (Hk a st1 st' b val (Hm st st1 a val Hh Ha) Hb).
Qed.

Lemma preserves_new h (o : object) : preserves h (new o).
Proof.
  intros st st' p val Hh (-> & _ & Hfree)%new_inv.
  rewrite lookup_insert_ne by congruence. exact Hh.
Qed.

Lemma preserves_store h p o : p <> h -> preserves h (store p o).
Proof.
  intros Hne st st' [] val Hh [= <-].
  rewrite lookup_insert_ne by exact Hne. exact Hh.
Qed.

Lemma preserves_free h p : p <> h -> preserves h (free p).
Proof.
  intros Hne st st' [] val Hh [= <-].
  rewrite lookup_delete_ne by exact Hne. exact Hh.
Qed.

(** Past a cast that succeeded, the address holds an isolate (a context, a
    template): it is not the address of the value. *)
Lemma preserves_as_isolate {B : Type} h p (k : Isolate -> M B) :
  (p <> h -> forall i, preserves h (k i)) -> preserves h (as_isolate p ≫= k).
Proof.
  intros Hk st st' b val Hh (i & st1 & [-> Hi]%as_isolate_inv & Hb)%bind_inv.
  apply (Hk ltac:(congruence) i st st' b val Hh Hb).
Qed.

Lemma preserves_as_ctx {B : Type} h p (k : m_ctx -> M B) :
  (p <> h -> forall c, preserves h (k c)) -> preserves h (as_ctx p ≫= k).
Proof.
  intros Hk st st' b val Hh (c & st1 & [-> Hc]%as_ctx_inv & Hb)%bind_inv.
  apply (Hk ltac:(congruence) c st st' b val Hh Hb).
Qed.

Lemma preserves_as_object_template {B : Type} h p
    (k : m_object_template -> M B) :
  (p <> h -> forall t, preserves h (k t)) ->
  preserves h (as_object_template p ≫= k).
Proof.
  intros Hk st st' b val Hh
    (t & st1 & [-> Ht]%as_object_template_inv & Hb)%bind_inv.
  apply (Hk ltac:(congruence) t st st' b val Hh Hb).
Qed.

(** The isolate a template designates is not the value either. *)
Lemma preserves_LOCAL_OBJECT_TEMPLATE {B : Type} h p
    (k : Ptr * Isolate * Local v8_ObjectTemplate -> M B) :
  (forall l, l.1.1 <> h -> preserves h (k l)) ->
  preserves h (LOCAL_OBJECT_TEMPLATE p ≫= k).
Proof.
  intros Hk st st' b val Hh (l & st1 & Hl & Hb)%bind_inv.
  unfold LOCAL_OBJECT_TEMPLATE, Locker in Hl.
  apply bind_inv in Hl as (ot & st2 & [-> _]%as_object_template_inv & Hl).
  apply bind_inv in Hl as (iso & st3 & Hiso & Hl).
  assert (st3 = st) as ->.
  { destruct (m_object_template_iso ot); [discriminate|].
    injection Hiso as _ <-. reflexivity. }
  apply bind_inv in Hl as (i & st4 & [-> Hi]%as_isolate_inv & [= <- <-]).
  apply (Hk (iso, i, m_object_template_ptr ot) ltac:(cbn; congruence)
           st st' b val Hh Hb).
Qed.

Ltac preserve :=
  repeat first
    [ progress cbn zeta
    | apply reads_preserves; solve [auto with reads]
    | apply preserves_LOCAL_OBJECT_TEMPLATE; intros ? ?
    | apply preserves_new
    | apply preserves_store; assumption
    | apply preserves_free; assumption
    | apply preserves_as_isolate; intros ? ?
    | apply preserves_as_ctx; intros ? ?
    | apply preserves_as_object_template; intros ? ?
    | apply preserves_bind; [|intros ?] ].

Lemma preserves_NewValue h c iso_ptr : preserves h (NewValue c iso_ptr).
Proof.
  destruct c;
    unfold NewValue, NewValueInteger, NewValueIntegerFromUnsigned,
      NewValueString, NewValueBoolean, NewValueNumber, NewValueBigInt,
      NewValueBigIntFromUnsigned, NewValueBigIntFromWords, ISOLATE_SCOPE,
      Locker, new_m_value;
    preserve.
  destruct (_ <? _); preserve.
Qed.

Lemma preserves_NewContext h iso_ptr tmpl :
  preserves h (NewContext iso_ptr tmpl).
Proof. unfold NewContext, Locker. preserve. case_decide; preserve. Qed.

Lemma preserves_RunScript h ctx_ptr source origin :
  preserves h (RunScript ctx_ptr source origin).
Proof.
  unfold RunScript, Locker. preserve.
  destruct (Script_Compile _ _ _); preserve.
  destruct (Script_Run _ _ _).1; preserve.
Qed.

(** No exported function other than [ValueDispose] on the handle itself
    changes what the handle designates. *)
Lemma preserves_run_call h c :
  c <> CallValueDispose h -> preserves h (run_call c).
Proof.
  intros Hc. destruct c; unfold run_call.
  - unfold NewIsolate. preserve.
  - unfold IsolateDispose. case_decide; preserve.
  - unfold IsolateTerminateExecution. preserve.
  - unfold IsolationGetHeapStatistics. case_decide; preserve.
  - unfold NewObjectTemplate, Locker. preserve.
  - unfold ObjectTemplateDispose. case_decide; preserve.
  - unfold ObjectTemplateSetValue. preserve.
  - unfold ObjectTemplateSetObjectTemplate. preserve.
  - apply preserves_bind; [apply preserves_NewContext|intros ?; preserve].
  - apply preserves_bind; [apply preserves_RunScript|intros ?; preserve].
  - unfold ContextDispose. case_decide; preserve.
  - apply preserves_bind; [apply preserves_NewValue|intros ?; preserve].
  - unfold ValueDispose. case_decide; preserve.
    assert (ptr <> h) by congruence. preserve.
  - apply reads_preserves, reads_inspect.
Qed.

Lemma preserves_run_calls h cs :
  Forall (fun c => c <> CallValueDispose h) cs -> preserves h (run_calls cs).
Proof.
  induction 1 as [|c cs Hc _ IH]; simpl.
  - preserve.
  - apply preserves_bind; [apply preserves_run_call, Hc|intros ?; exact IH].
Qed.

(** X6.  A host-constructed value stays as it was created: whatever calls
    follow, short of disposing of the handle, its [ctx_ptr] is still
    indeterminate and every inspection of it is still undefined. *)
Lemma host_value_stays_uninspectable st st1 st2 c iso_ptr ptr cs op :
  NewValue c iso_ptr st = Ret (ptr, st1) ->
  Forall (fun c => c <> CallValueDispose ptr) cs ->
  run_calls cs st1 = Ret (tt, st2) ->
  inspect op ptr st2 = Undefined.
Proof.
  intros Hnew Hcs Hrun.
  destruct (NewValue_inv _ _ _ _ _ Hnew) as (v & Hptr).
  pose proof (preserves_run_calls ptr cs Hcs st1 st2 tt _ Hptr Hrun) as Hptr2.
  apply inspect_LOCAL_VALUE_Undefined.
  apply (LOCAL_VALUE_Indeterminate _ _ _ Hptr2). reflexivity.
Qed.

End Preservation.

(** A host value, a context, a script run in it: the value is still not
    inspectable. *)
Example host_value_after_script :
  exists ptr st1 st2,
    @NewValue Demo.E (Integer 7) Demo.iso Demo.fresh_isolate = Ret (ptr, st1) /\
    @run_calls Demo.E
      [CallNewContext Demo.iso nullptr; CallRunScript 3%N "1+1" "main.js";
       CallInspect (Is IsNumber) 4%N] st1 = Ret (tt, st2) /\
    @inspect Demo.E ToInt32 ptr st2 = Undefined.
Proof.
  eexists _, _, _. split; [vm_compute; reflexivity|].
  split; [vm_compute; reflexivity|]. vm_compute. reflexivity.
Qed.

(** The handle of the constructor, three calls later. *)
Lemma host_value_stays_uninspectable_witness :
  @inspect Demo.E ToInt32 2%N
    (@store_after Demo.E
       [CallNewContext Demo.iso nullptr; CallRunScript 3%N "1+1" "main.js";
        CallInspect (Is IsNumber) 4%N]
       (<[2%N := Demo.value_object Demo.E (Toy.Num 7) Indeterminate]>
          Demo.fresh_isolate))
  = Undefined.
Proof.
  apply (@host_value_stays_uninspectable Demo.E Demo.fresh_isolate
           (<[2%N := Demo.value_object Demo.E (Toy.Num 7) Indeterminate]>
              Demo.fresh_isolate)
           _ (Integer 7) Demo.iso 2%N
           [CallNewContext Demo.iso nullptr; CallRunScript 3%N "1+1" "main.js";
            CallInspect (Is IsNumber) 4%N]
           ToInt32).
  - vm_compute. reflexivity.
  - repeat (constructor; [discriminate|]). constructor.
  - vm_compute. reflexivity.
Defined.

(** * The text handed to the host *)

Lemma c_str_prefix (s : string) :
  exists rest,
    s = c_str s +:+ rest /\
    (rest = EmptyString \/ exists r, rest = String NUL r).
Proof.
  induction s as [|c s (rest & Hs & Hrest)]; simpl.
  - exists EmptyString. split; [reflexivity|left; reflexivity].
  - destruct (Ascii.eqb c NUL) eqn:Hc.
    + apply Ascii.eqb_eq in Hc as ->. exists (String NUL s).
      split; [reflexivity|right; eauto].
    + exists rest. split; [|exact Hrest].
      change (String c s = String c (c_str s +:+ rest)). f_equal. exact Hs.
Qed.

(** X1.  [CopyString] on a [std::string] never returns a null pointer.
    The C string it returns holds the bytes of the argument up to, and
    without, its first zero byte: all of them when there is none.  What a
    reader of the [char*] gets is therefore a prefix of the argument, and
    the rest of the argument, if any, starts with the zero byte. *)
Theorem CopyString_prefix_to_NUL (str : string) :
  exists t rest,
    CopyString str = Some t /\
    is_c_str t /\
    str = t +:+ rest /\
    (rest = EmptyString \/ exists r, rest = String NUL r).
Proof.
  destruct (c_str_prefix str) as (rest & Hstr & Hrest).
  exists (c_str str), rest. split; [apply CopyString_text|].
  split; [apply c_str_idemp|]. split; [exact Hstr|exact Hrest].
Qed.

(** * Isolates *)

(** X2.  [NewIsolate] returns in every store.  Its handle is not null and
    was not in use; the isolate does not capture stack traces yet and has
    the heap of a new engine isolate; no other address changes.  The handle
    is usable at once, [NewContext] on it returns, and [IsolateDispose] on
    it gives back the store [NewIsolate] started from. *)
Theorem NewIsolate_fresh_and_usable `{E : V8} (st : gmap N object) :
  exists p st',
    NewIsolate st = Ret (p, st') /\
    p <> nullptr /\
    st !! p = None /\
    st' = <[p := OIsolate
                   {| capture_stack_trace_for_uncaught_exceptions := false;
                      heap := Isolate_New |}]> st /\
    (exists ctx st'', NewContext p nullptr st' = Ret (ctx, st'')) /\
    IsolateDispose p st' = Ret (tt, st).
Proof.
  unfold NewIsolate. allocate p Hnew Hnull Hfree.
  eexists p, _. split; [exact Hnew|]. split; [exact Hnull|].
  split; [exact Hfree|]. split; [reflexivity|].
  assert (Hp : (<[p := OIsolate
                         {| capture_stack_trace_for_uncaught_exceptions := false;
                            heap := Isolate_New |}]> st) !! p
               = Some (OIsolate
                         {| capture_stack_trace_for_uncaught_exceptions := false;
                            heap := Isolate_New |}))
    by apply lookup_insert_eq.
  split.
  - destruct (NewContext_Ret _ p nullptr _ _ _ Hp
                (or_introl (conj eq_refl (conj eq_refl eq_refl))))
      as (ctx & _ & _ & _ & Hctx).
    eexists ctx, _. exact Hctx.
  - unfold IsolateDispose. rewrite decide_False by exact Hnull.
    rewrite (bind_Ret _ _ _ _ _ (as_isolate_Ret _ _ _ Hp)).
    unfold free. rewrite delete_insert_id by exact Hfree. reflexivity.
Qed.

(** * What a call changes *)

Section Frames.
Context `{E : V8}.
Implicit Types (st : gmap N object) (p q : Ptr) (t : option Ptr).

#[local] Hint Resolve reads_ret reads_undefined reads_fatal reads_load
  reads_read reads_deref reads_ToLocalChecked reads_ToChecked
  reads_as_isolate reads_as_ctx reads_as_value reads_as_object_template
  reads_LOCAL_VALUE reads_ExceptionError : reads.

Lemma reads_frames {A : Type} t (m : M A) : reads m -> frames t m.
Proof. intros Hm st st' a q o _ Hq Ha. rewrite (Hm st st' a Ha). exact Hq. Qed.

Lemma frames_bind {A B : Type} t (m : M A) (k : A -> M B) :
  frames t m -> (forall a, frames t (k a)) -> frames t (m ≫= k).
Proof.
  intros Hm Hk st st' b q o Ht Hq (a & st1 & Ha & Hb)%bind_inv.
  exact (Hk a st1 st' b q o Ht (Hm st st1 a q o Ht Hq Ha) Hb).
Qed.

Lemma frames_new t (o : object) : frames t (new o).
Proof.
  intros st st' p q o' _ Hq (-> & _ & Hfree)%new_inv.
  rewrite lookup_insert_ne by congruence. exact Hq.
Qed.

Lemma frames_store p o : frames (Some p) (store p o).
Proof.
  intros st st' [] q o' Ht Hq [= <-].
  rewrite lookup_insert_ne by congruence. exact Hq.
Qed.

Lemma frames_free p : frames (Some p) (free p).
Proof.
  intros st st' [] q o' Ht Hq [= <-].
  rewrite lookup_delete_ne by congruence. exact Hq.
Qed.

Ltac frame :=
  repeat first
    [ progress cbn zeta
    | apply reads_frames; solve [auto with reads]
    | apply frames_new
    | apply frames_store
    | apply frames_free
    | apply frames_bind; [|intros ?] ].

Lemma frames_NewValue c iso_ptr : frames (Some iso_ptr) (NewValue c iso_ptr).
Proof.
  destruct c;
    unfold NewValue, NewValueInteger, NewValueIntegerFromUnsigned,
      NewValueString, NewValueBoolean, NewValueNumber, NewValueBigInt,
      NewValueBigIntFromUnsigned, NewValueBigIntFromWords, ISOLATE_SCOPE,
      Locker, new_m_value;
    frame.
  destruct (_ <? _); frame.
Qed.

Lemma frames_NewContext iso_ptr tmpl :
  frames (Some iso_ptr) (NewContext iso_ptr tmpl).
Proof. unfold NewContext, Locker. frame. case_decide; frame. Qed.

(** What [LOCAL_OBJECT_TEMPLATE] returns, when it returns. *)
Lemma LOCAL_OBJECT_TEMPLATE_inv st p l st' :
  LOCAL_OBJECT_TEMPLATE p st = Ret (l, st') ->
  st' = st /\
  exists ot i,
    st !! p = Some (OObjectTemplate ot) /\
    m_object_template_iso ot = Assigned l.1.1 /\
    st !! l.1.1 = Some (OIsolate i) /\
    l = (l.1.1, i, m_object_template_ptr ot).
Proof.
  unfold LOCAL_OBJECT_TEMPLATE, Locker. intros Hl.
  apply bind_inv in Hl as (ot & st2 & [-> Hot]%as_object_template_inv & Hl).
  apply bind_inv in Hl as (iso & st3 & Hiso & Hl).
  destruct (m_object_template_iso ot) as [|iso'] eqn:Hf; [discriminate|].
  injection Hiso as <- <-.
  apply bind_inv in Hl as (i & st4 & [-> Hi]%as_isolate_inv & [= <- <-]).
  split; [reflexivity|]. exists ot, i. auto.
Qed.

Lemma LOCAL_OBJECT_TEMPLATE_Ret st p ot iso i :
  st !! p = Some (OObjectTemplate ot) ->
  m_object_template_iso ot = Assigned iso ->
  st !! iso = Some (OIsolate i) ->
  LOCAL_OBJECT_TEMPLATE p st = Ret ((iso, i, m_object_template_ptr ot), st).
Proof.
  intros Hot Hiso Hi. unfold LOCAL_OBJECT_TEMPLATE, Locker.
  rewrite (bind_Ret _ _ _ _ _ (as_object_template_Ret _ _ _ Hot)).
  rewrite Hiso. cbn [read]. rewrite (bind_Ret _ _ st iso st eq_refl).
  rewrite (bind_Ret _ _ _ _ _ (as_isolate_Ret _ _ _ Hi)). reflexivity.
Qed.

(** [RunScript] writes to the isolate of its context only. *)
Lemma frames_RunScript st ctx_ptr source origin st' rtn q o :
  st !! ctx_ptr ≫= iso_of <> Some q -> st !! q = Some o ->
  RunScript ctx_ptr source origin st = Ret (rtn, st') ->
  st' !! q = Some o.
Proof.
  intros Ht Hq. unfold RunScript.
  intros (mc & st1 & [-> Hmc]%as_ctx_inv & H)%bind_inv.
  rewrite Hmc in Ht. cbn in Ht.
  destruct (m_ctx_iso mc) as [|iso] eqn:Hiso.
  { apply bind_inv in H as (? & ? & [=] & _). }
  cbn in Ht.
  apply bind_inv in H as (iso' & st1 & [= <- <-] & H).
  match type of H with
  | ?m st = _ => assert (Hf : frames (Some iso) m)
  end.
  { unfold Locker. frame.
    destruct (Script_Compile _ _ _); frame.
    destruct (Script_Run _ _ _).1; frame. }
  exact (Hf st st' rtn q o Ht Hq H).
Qed.

(** The template setters write to the isolate of the template only. *)
Lemma frames_setter {B : Type} st p
    (k : Ptr * Isolate * Local v8_ObjectTemplate -> M B) st' b q o :
  (forall l, frames (Some l.1.1) (k l)) ->
  st !! p ≫= iso_of <> Some q -> st !! q = Some o ->
  (LOCAL_OBJECT_TEMPLATE p ≫= k) st = Ret (b, st') ->
  st' !! q = Some o.
Proof.
  intros Hk Ht Hq (l & st1 & Hl & H)%bind_inv.
  apply LOCAL_OBJECT_TEMPLATE_inv in Hl as (-> & ot & i & Hot & Hiso & _ & _).
  rewrite Hot in Ht. cbn in Ht. rewrite Hiso in Ht. cbn in Ht.
  exact (Hk l st st' b q o Ht Hq H).
Qed.

(** Every exported function, one by one. *)
Lemma frames_run_call st c st' q o :
  target st c <> Some q -> st !! q = Some o ->
  run_call c st = Ret (tt, st') ->
  st' !! q = Some o.
Proof.
  intros Ht Hq Hrun.
  destruct c; cbn [target] in Ht; unfold run_call in Hrun;
    try (match type of Hrun with
         | ?m st = _ =>
             match type of Ht with
             | Some ?p <> _ => assert (Hf : frames (Some p) m)
             | None <> _ => assert (Hf : frames None m)
             end;
             [|exact (Hf st st' tt q o Ht Hq Hrun)]
         end).
  - unfold NewIsolate. frame.
  - unfold IsolateDispose. case_decide; frame.
  - unfold IsolateTerminateExecution. frame.
  - unfold IsolationGetHeapStatistics. case_decide; frame.
  - unfold NewObjectTemplate, Locker. frame.
  - unfold ObjectTemplateDispose. case_decide; frame.
  - revert Hrun. unfold ObjectTemplateSetValue.
    apply frames_setter; [intros l; frame|exact Ht|exact Hq].
  - revert Hrun. unfold ObjectTemplateSetObjectTemplate.
    apply frames_setter; [intros l; frame|exact Ht|exact Hq].
  - apply frames_bind; [apply frames_NewContext|intros ?; frame].
  - apply bind_inv in Hrun as (rtn & st1 & Hrun & [= <-]).
    exact (frames_RunScript _ _ _ _ _ _ _ _ Ht Hq Hrun).
  - unfold ContextDispose. case_decide; frame.
  - apply frames_bind; [apply frames_NewValue|intros ?; frame].
  - unfold ValueDispose. case_decide; frame.
  - rewrite (reads_inspect op ptr st st' tt Hrun). exact Hq.
Qed.

(** A call that returns and is not a disposal found a live isolate at its
    target. *)
Lemma run_call_target_live st c st' p :
  run_call c st = Ret (tt, st') ->
  target st c = Some p ->
  disposes p c = false ->
  exists i, st !! p = Some (OIsolate i).
Proof.
  intros Hrun Ht Hd.
  destruct c; cbn [target] in Ht; try discriminate;
    try (cbn in Hd; rewrite bool_decide_eq_false in Hd; congruence);
    unfold run_call in Hrun.
  - injection Ht as ->.
    apply bind_inv in Hrun as (i & st1 & [_ Hi]%as_isolate_inv & _). eauto.
  - injection Ht as ->.
    apply bind_inv in Hrun as (r & st1 & H & _).
    apply bind_inv in H as (i & st2 & [_ Hi]%as_isolate_inv & _). eauto.
  - apply bind_inv in Hrun as (l & st1 & Hl & _).
    apply LOCAL_OBJECT_TEMPLATE_inv in Hl
      as (-> & ot & i & Hot & Hiso & Hi & _).
    rewrite Hot in Ht. cbn in Ht. rewrite Hiso in Ht. injection Ht as <-.
    eauto.
  - apply bind_inv in Hrun as (l & st1 & Hl & _).
    apply LOCAL_OBJECT_TEMPLATE_inv in Hl
      as (-> & ot & i & Hot & Hiso & Hi & _).
    rewrite Hot in Ht. cbn in Ht. rewrite Hiso in Ht. injection Ht as <-.
    eauto.
  - injection Ht as ->.
    apply bind_inv in Hrun as (r & st1 & H & _).
    apply bind_inv in H as (i & st2 & [_ Hi]%as_isolate_inv & _). eauto.
  - apply bind_inv in Hrun as (r & st1 & H & _).
    apply bind_inv in H as (mc & st2 & [-> Hmc]%as_ctx_inv & H).
    apply bind_inv in H as (iso & st3 & Hiso & H).
    destruct (m_ctx_iso mc) as [|iso'] eqn:Hf; [discriminate|].
    injection Hiso as <- <-.
    apply bind_inv in H as (i & st4 & [_ Hi]%as_isolate_inv & _).
    rewrite Hmc in Ht. cbn in Ht. rewrite Hf in Ht. injection Ht as <-. eauto.
  - injection Ht as ->.
    apply bind_inv in Hrun as (r & st1 & H & _).
    destruct c;
      apply bind_inv in H as (i & st2 & [_ Hi]%as_isolate_inv & _); eauto.
  - assert (Hdef : inspect op ptr st <> Undefined) by congruence.
    destruct (inspect_defined op st ptr Hdef) as (r & Hlocal).
    pose proof (LOCAL_VALUE_cases st ptr) as Hcases. rewrite Hlocal in Hcases.
    destruct Hcases as (_ & val & ctx & iso & i & mc & lc & Hval & _ & Hiso
                          & Hi & _).
    rewrite Hval in Ht. cbn in Ht. rewrite Hiso in Ht. injection Ht as <-.
    eauto.
Qed.

(** X4.  A call of an exported function that returns leaves every object
    of the store as it was, except at most the one at its [target]: the
    handle it disposes of, or else one isolate, the one given as argument
    or the one its context, template or value argument is bound to.  So a
    call scoped to one isolate changes no other isolate and no wrapper of
    another handle. *)
Theorem call_changes_only_its_target (st st' : gmap N object) (c : call)
    (q : Ptr) (o : object) :
  run_call c st = Ret (tt, st') ->
  st !! q = Some o ->
  target st c <> Some q ->
  st' !! q = Some o.
Proof.
  intros Hrun Hq Ht. revert Hrun. apply frames_run_call; assumption.
Qed.

Lemma reads_stays {A : Type} q (m : M A) : reads m -> stays_isolate q m.
Proof. intros Hm st st' a i Hq Ha. rewrite (Hm st st' a Ha). eauto. Qed.

Lemma stays_bind {A B : Type} q (m : M A) (k : A -> M B) :
  stays_isolate q m -> (forall a, stays_isolate q (k a)) ->
  stays_isolate q (m ≫= k).
Proof.
  intros Hm Hk st st' b i Hq (a & st1 & Ha & Hb)%bind_inv.
  destruct (Hm st st1 a i Hq Ha) as (i1 & Hq1).
  exact (Hk a st1 st' b i1 Hq1 Hb).
Qed.

Lemma stays_new q (o : object) : stays_isolate q (new o).
Proof.
  intros st st' p i Hq (-> & _ & Hfree)%new_inv.
  rewrite lookup_insert_ne by congruence. eauto.
Qed.

(** The code writes isolates over isolates. *)
Lemma stays_store q p (i : Isolate) : stays_isolate q (store p (OIsolate i)).
Proof.
  intros st st' [] i0 Hq [= <-]. destruct (decide (p = q)) as [->|Hne].
  - rewrite lookup_insert_eq. eauto.
  - rewrite lookup_insert_ne by exact Hne. eauto.
Qed.

Lemma stays_free q p : p <> q -> stays_isolate q (free p).
Proof.
  intros Hne st st' [] i Hq [= <-].
  rewrite lookup_delete_ne by exact Hne. eauto.
Qed.

Ltac stay :=
  repeat first
    [ progress cbn zeta
    | progress unfold with_heap
    | apply reads_stays; solve [auto with reads]
    | apply stays_new
    | apply stays_store
    | apply stays_free; assumption
    | apply stays_bind; [|intros ?] ].

Lemma stays_run_call q c :
  disposes q c = false -> stays_isolate q (run_call c).
Proof.
  intros Hd.
  assert (Hne : forall p, bool_decide (p = q) = false -> p <> q)
    by (intros p Hp; apply bool_decide_eq_false in Hp; exact Hp).
  destruct c; cbn [disposes] in Hd; try apply Hne in Hd; unfold run_call.
  - unfold NewIsolate. stay.
  - unfold IsolateDispose. case_decide; stay.
  - unfold IsolateTerminateExecution. stay.
  - unfold IsolationGetHeapStatistics. case_decide; stay.
  - unfold NewObjectTemplate, Locker. stay.
  - unfold ObjectTemplateDispose. case_decide; stay.
  - unfold ObjectTemplateSetValue. stay.
  - unfold ObjectTemplateSetObjectTemplate. stay.
  - unfold NewContext, Locker. stay. case_decide; stay.
  - unfold RunScript, Locker. stay.
    destruct (Script_Compile _ _ _); stay.
    destruct (Script_Run _ _ _).1; stay.
  - unfold ContextDispose. case_decide; stay.
  - destruct c;
      unfold NewValue, NewValueInteger, NewValueIntegerFromUnsigned,
        NewValueString, NewValueBoolean, NewValueNumber, NewValueBigInt,
        NewValueBigIntFromUnsigned, NewValueBigIntFromWords, ISOLATE_SCOPE,
        Locker, new_m_value;
      stay.
    destruct (_ <? _); stay.
  - unfold ValueDispose. case_decide; stay.
  - apply reads_stays, reads_inspect.
Qed.

(** X5.  A handle stays valid until it is disposed of.  After any
    sequence of calls that returns and holds no disposal of the handle, a
    context, template or value handle designates the very object it
    designated before (wrappers are written when they are created and never
    again), and an isolate handle still designates an isolate. *)
Theorem handle_stable_until_disposed st st' h o (cs : list call) :
  st !! h = Some o ->
  Forall (fun c => disposes h c = false) cs ->
  run_calls cs st = Ret (tt, st') ->
  if is_wrapper o then st' !! h = Some o
  else exists i, st' !! h = Some (OIsolate i).
Proof.
  intros Hh Hcs. revert st o Hh.
  induction Hcs as [|c cs Hc _ IH]; intros st o Hh; simpl.
  - intros [= <-]. destruct o; cbn; eauto.
  - intros ([] & st1 & Hrun & Hrest)%bind_inv.
    destruct (is_wrapper o) eqn:Hw.
    + assert (Hh1 : st1 !! h = Some o).
      { apply (frames_run_call st c st1 h o); [|exact Hh|exact Hrun].
        intros Ht.
        destruct (run_call_target_live st c st1 h Hrun Ht Hc) as (i & Hi).
        rewrite Hi in Hh. injection Hh as <-. discriminate. }
      specialize (IH st1 o Hh1 Hrest). rewrite Hw in IH. exact IH.
    + destruct o as [i| | |]; try discriminate.
      destruct (stays_run_call h c Hc st st1 tt i Hh Hrun) as (i1 & Hh1).
      exact (IH st1 (OIsolate i1) Hh1 Hrest).
Qed.

End Frames.

(** A script run in the context at address 2 leaves that context as it
    was. *)
Lemma call_changes_only_its_target_witness :
  @store_after Demo.E [CallRunScript Demo.ctx "1+1" "main.js"] Demo.booted
    !! Demo.ctx
  = Some (Demo.context_object Demo.E Demo.the_context).
Proof.
  apply (@call_changes_only_its_target Demo.E Demo.booted _
           (CallRunScript Demo.ctx "1+1" "main.js")).
  - vm_compute. reflexivity.
  - vm_compute. reflexivity.
  - vm_compute. discriminate.
Defined.

(** The context made from the template is untouched by the three calls
    that follow it in [Tour.session]. *)
Lemma handle_stable_until_disposed_witness :
  Tour.after_session !! 6%N
  = Some (@OContext Demo.E
            (@Build_m_ctx Demo.E
               (Some {| Toy.context_id := 1;
                        Toy.global_names := ["seven"%string] |})
               (Assigned 1%N))).
Proof.
  apply (@handle_stable_until_disposed Demo.E
           (@store_after Demo.E (take 7 Tour.session) ∅) Tour.after_session
           6%N
           (@OContext Demo.E
              (@Build_m_ctx Demo.E
                 (Some {| Toy.context_id := 1;
                          Toy.global_names := ["seven"%string] |})
                 (Assigned 1%N)))
           (drop 7 Tour.session)).
  - vm_compute. reflexivity.
  - repeat constructor.
  - vm_compute. reflexivity.
Defined.

(** * Well-formed stores *)

Section WellFormed.
Context `{E : V8}.
Implicit Types (st : gmap N object) (p q : Ptr).

#[local] Hint Resolve reads_ret reads_undefined reads_fatal reads_load
  reads_read reads_deref reads_ToLocalChecked reads_ToChecked
  reads_as_isolate reads_as_ctx reads_as_value reads_as_object_template
  reads_LOCAL_VALUE reads_ExceptionError : reads.

Lemma well_formed_insert st p o :
  well_formed st -> p <> nullptr -> initialised o = true ->
  well_formed (<[p := o]> st).
Proof.
  intros [Hnull Hall] Hp Ho. split.
  - rewrite lookup_insert_ne by exact Hp. exact Hnull.
  - intros q o'. destruct (decide (q = p)) as [->|Hne].
    + rewrite lookup_insert_eq. intros [= <-]. exact Ho.
    + rewrite lookup_insert_ne by congruence. apply Hall.
Qed.

Lemma well_formed_delete st p : well_formed st -> well_formed (delete p st).
Proof.
  intros [Hnull Hall]. split.
  - apply lookup_delete_None. right. exact Hnull.
  - intros q o [_ Hq]%lookup_delete_Some. exact (Hall q o Hq).
Qed.

Lemma reads_keeps {A : Type} (m : M A) : reads m -> keeps_well_formed m.
Proof. intros Hm st st' a Hwf Ha. rewrite (Hm st st' a Ha). exact Hwf. Qed.

Lemma keeps_bind {A B : Type} (m : M A) (k : A -> M B) :
  keeps_well_formed m -> (forall a, keeps_well_formed (k a)) ->
  keeps_well_formed (m ≫= k).
Proof.
  intros Hm Hk st st' b Hwf (a & st1 & Ha & Hb)%bind_inv.
  exact (Hk a st1 st' b (Hm st st1 a Hwf Ha) Hb).
Qed.

Lemma keeps_new (o : object) :
  initialised o = true -> keeps_well_formed (new o).
Proof.
  intros Ho st st' p Hwf (-> & Hp & _)%new_inv.
  apply well_formed_insert; assumption.
Qed.

Lemma keeps_store p (o : object) :
  p <> nullptr -> initialised o = true -> keeps_well_formed (store p o).
Proof.
  intros Hp Ho st st' [] Hwf [= <-]. apply well_formed_insert; assumption.
Qed.

Lemma keeps_free p : keeps_well_formed (free p).
Proof. intros st st' [] Hwf [= <-]. apply well_formed_delete, Hwf. Qed.

(** Past a cast that succeeded in a well-formed store, the address is not
    null. *)
Lemma keeps_as_isolate {B : Type} p (k : Isolate -> M B) :
  (p <> nullptr -> forall i, keeps_well_formed (k i)) ->
  keeps_well_formed (as_isolate p ≫= k).
Proof.
  intros Hk st st' b Hwf (i & st1 & [-> Hi]%as_isolate_inv & Hb)%bind_inv.
  assert (Hp : p <> nullptr).
  { intros ->. destruct Hwf as [Hnull _]. congruence. }
  exact (Hk Hp i st st' b Hwf Hb).
Qed.

Lemma keeps_LOCAL_OBJECT_TEMPLATE {B : Type} p
    (k : Ptr * Isolate * Local v8_ObjectTemplate -> M B) :
  (forall l, l.1.1 <> nullptr -> keeps_well_formed (k l)) ->
  keeps_well_formed (LOCAL_OBJECT_TEMPLATE p ≫= k).
Proof.
  intros Hk st st' b Hwf (l & st1 & Hl & Hb)%bind_inv.
  apply LOCAL_OBJECT_TEMPLATE_inv in Hl as (-> & ot & i & _ & _ & Hi & _).
  assert (Hp : l.1.1 <> nullptr).
  { intros Heq. rewrite Heq in Hi. destruct Hwf as [Hnull _]. congruence. }
  exact (Hk l Hp st st' b Hwf Hb).
Qed.

Ltac keep :=
  repeat first
    [ progress cbn zeta
    | apply reads_keeps; solve [auto with reads]
    | apply keeps_LOCAL_OBJECT_TEMPLATE; intros ? ?
    | apply keeps_new; reflexivity
    | apply keeps_store; [assumption|reflexivity]
    | apply keeps_free
    | apply keeps_as_isolate; intros ? ?
    | apply keeps_bind; [|intros ?] ].

Lemma keeps_run_call c : keeps_well_formed (run_call c).
Proof.
  destruct c; unfold run_call.
  - unfold NewIsolate. keep.
  - unfold IsolateDispose. case_decide; keep.
  - unfold IsolateTerminateExecution. keep.
  - unfold IsolationGetHeapStatistics. case_decide; keep.
  - unfold NewObjectTemplate, Locker. keep.
  - unfold ObjectTemplateDispose. case_decide; keep.
  - unfold ObjectTemplateSetValue. keep.
  - unfold ObjectTemplateSetObjectTemplate. keep.
  - unfold NewContext, Locker. keep. case_decide; keep.
  - unfold RunScript, Locker. keep.
    destruct (Script_Compile _ _ _); keep.
    destruct (Script_Run _ _ _).1; keep.
  - unfold ContextDispose. case_decide; keep.
  - destruct c;
      unfold NewValue, NewValueInteger, NewValueIntegerFromUnsigned,
        NewValueString, NewValueBoolean, NewValueNumber, NewValueBigInt,
        NewValueBigIntFromUnsigned, NewValueBigIntFromWords, ISOLATE_SCOPE,
        Locker, new_m_value;
      keep.
    destruct (_ <? _); keep.
  - unfold ValueDispose. case_decide; keep.
  - apply reads_keeps, reads_inspect.
Qed.

(** X3.  Well-formedness is an invariant of the exported functions: from a
    store in which no object lives at the null address and every context,
    template and value wrapper has a non-empty persistent handle and an
    assigned [iso] member (the empty store is one), every sequence of calls
    that returns leads to such a store.  No function ever allocates at the
    null address, resets a handle or leaves [iso] unassigned; the only
    member a wrapper can lack is the [ctx_ptr] of a value. *)
Theorem calls_keep_store_well_formed (cs : list call) st st' :
  well_formed st ->
  run_calls cs st = Ret (tt, st') ->
  well_formed st'.
Proof.
  revert st. induction cs as [|c cs IH]; intros st Hwf; simpl.
  - intros [= <-]. exact Hwf.
  - intros (u & st1 & Hc & Hcs)%bind_inv.
    exact (IH st1 (keeps_run_call c st st1 u Hwf Hc) Hcs).
Qed.

End WellFormed.

(** The store [Tour.session] leaves is well formed. *)
Lemma calls_keep_store_well_formed_witness :
  @well_formed Demo.E Tour.after_session.
Proof.
  apply (@calls_keep_store_well_formed Demo.E Tour.session ∅).
  - split; [reflexivity|]. intros p o H. rewrite lookup_empty in H.
    discriminate.
  - vm_compute. reflexivity.
Defined.

(** * Scripts: what a run leaves in the store *)

Lemma with_heap_same `{E : V8} (i : Isolate) :
  with_heap i (heap i) = OIsolate i.
Proof. destruct i. reflexivity. Qed.

(** X7.  A [RunScript] call that fails, at compilation or at run time, and
    returns its error record allocates nothing: the value member of the
    result is null, the store holds the same addresses as before, and it
    differs from the store before the call at most in the heap of the
    isolate, which is the heap the engine left (the effects of a script
    that ran until it threw are kept). *)
Theorem RunScript_failure_allocates_nothing `{E : V8} (st st' : gmap N object)
    (ctx_ptr iso : Ptr) (mc : m_ctx) (i : Isolate) (local_ctx : v8_Context)
    (source origin : string) (src ogn : v8_Value)
    (try_catch : TryCatch v8_Value) (rtn : RtnValue) :
  st !! ctx_ptr = Some (OContext mc) ->
  m_ctx_iso mc = Assigned iso ->
  st !! iso = Some (OIsolate i) ->
  m_ctx_ptr mc = Some local_ctx ->
  String_NewFromUtf8 (c_str source) = Some src ->
  String_NewFromUtf8 (c_str origin) = Some ogn ->
  (submit local_ctx src ogn (heap i)).1 = inr try_catch ->
  RunScript ctx_ptr source origin st = Ret (rtn, st') ->
  value rtn = nullptr /\
  st' = <[iso := with_heap i (submit local_ctx src ogn (heap i)).2]> st /\
  dom st' = dom st.
Proof.
  intros Hctx Hiso Hi Hlc Hsrc Hogn Hsub.
  rewrite (RunScript_entered _ _ _ _ _ _ _ _ _ _ Hctx Hiso Hi Hlc Hsrc Hogn).
  unfold submit in *.
  assert (Hdom : forall o, dom (<[iso := o]> st) = dom st).
  { intros o. apply dom_insert_lookup_L. eauto. }
  destruct (Script_Compile local_ctx src ogn) as [script|tc].
  - cbn zeta. rewrite Hsub.
    intros (e & st1 & He & [= <- <-])%bind_inv.
    pose proof (ExceptionError_cases
                  (<[iso := OIsolate
                       {| capture_stack_trace_for_uncaught_exceptions :=
                            capture_stack_trace_for_uncaught_exceptions i;
                          heap := (Script_Run script local_ctx (heap i)).2 |}]>
                     st) try_catch iso (Some local_ctx)) as Hcases.
    rewrite He in Hcases. destruct Hcases as [-> _].
    split; [reflexivity|]. split; [reflexivity|]. apply Hdom.
  - injection Hsub as ->.
    intros (e & st1 & He & [= <- <-])%bind_inv.
    pose proof (ExceptionError_cases st try_catch iso (Some local_ctx))
      as Hcases.
    rewrite He in Hcases. destruct Hcases as [-> _].
    split; [reflexivity|]. cbn [snd]. rewrite with_heap_same.
    rewrite insert_id by exact Hi. split; reflexivity.
Qed.

(** A call of a function that does not exist: the record is returned and
    the store is the one before the call. *)
Lemma RunScript_failure_allocates_nothing_witness :
  value (@Build_RtnValue nullptr
           {| msg := Some "ReferenceError: nonexistentFn is not defined"%string;
              location := Some "main.js:1:1"%string;
              stack := Some "ReferenceError: nonexistentFn is not defined at main.js:1:1"%string |})
    = nullptr /\
  Demo.booted
  = <[Demo.iso := @with_heap Demo.E
                    (@Build_Isolate Demo.E true Demo.one_context)
                    (@submit Demo.E Demo.the_context
                       (Toy.Str "nonexistentFn()") (Toy.Str "main.js")
                       Demo.one_context).2]> Demo.booted /\
  dom Demo.booted = dom Demo.booted.
Proof.
  apply (@RunScript_failure_allocates_nothing Demo.E Demo.booted Demo.booted
           Demo.ctx Demo.iso
           (@Build_m_ctx Demo.E (Some Demo.the_context) (Assigned Demo.iso))
           (@Build_Isolate Demo.E true Demo.one_context) Demo.the_context
           "nonexistentFn()" "main.js" (Toy.Str "nonexistentFn()")
           (Toy.Str "main.js")
           (Demo.caught
              (Toy.Str "ReferenceError: nonexistentFn is not defined")
              "main.js" 1 0
              (Some (Toy.Str "ReferenceError: nonexistentFn is not defined at main.js:1:1"))));
    vm_compute; reflexivity.
Defined.

(** X8.  The handle a successful [RunScript] returns can be inspected at
    once, in the store the call leaves: it is bound to the context the
    script ran in, which is still live.  Each of the fifty-four predicates
    answers 1 or 0 as the engine classifies the result of the script,
    [ValueToBoolean] gives its truth value, and [ValueToString] the text of
    its string conversion.  (A handle made by a [NewValue] constructor, by
    contrast, is never inspectable.) *)
Theorem RunScript_result_inspectable `{E : V8} (st : gmap N object)
    (ctx_ptr iso : Ptr) (mc : m_ctx) (i : Isolate) (local_ctx : v8_Context)
    (source origin : string) (src ogn result : v8_Value) :
  st !! ctx_ptr = Some (OContext mc) ->
  m_ctx_iso mc = Assigned iso ->
  st !! iso = Some (OIsolate i) ->
  m_ctx_ptr mc = Some local_ctx ->
  String_NewFromUtf8 (c_str source) = Some src ->
  String_NewFromUtf8 (c_str origin) = Some ogn ->
  (submit local_ctx src ogn (heap i)).1 = inl result ->
  exists val st',
    RunScript ctx_ptr source origin st
      = Ret ({| value := val; error := RtnError_null |}, st') /\
    (forall k, ValueIs k val st'
               = Ret (if Value_Is k result then 1 else 0, st')) /\
    ValueToBoolean val st'
      = Ret (if Value_BooleanValue result then 1 else 0, st') /\
    ValueToString val st'
      = Ret (CopyString_Utf8Value (String_Utf8Value result), st').
Proof.
  intros Hctx Hiso Hi Hlc Hsrc Hogn Hsub.
  rewrite (RunScript_entered _ _ _ _ _ _ _ _ _ _ Hctx Hiso Hi Hlc Hsrc Hogn).
  unfold submit in Hsub.
  destruct (Script_Compile local_ctx src ogn) as [script|tc];
    [|discriminate].
  cbn zeta. rewrite Hsub.
  allocate val Hnew Hnull Hfree.
  rewrite (bind_Ret _ _ _ _ _ Hnew).
  eexists val, _. split; [reflexivity|].
  assert (Hne_iso : val <> iso).
  { intros ->. rewrite lookup_insert_eq in Hfree. discriminate. }
  rewrite lookup_insert_ne in Hfree by congruence.
  assert (Hne_ctx : val <> ctx_ptr) by congruence.
  assert (Hne : ctx_ptr <> iso) by congruence.
  set (i1 := {| capture_stack_trace_for_uncaught_exceptions :=
                  capture_stack_trace_for_uncaught_exceptions i;
                heap := (Script_Run script local_ctx (heap i)).2 |}).
  set (v := {| m_value_ptr := Some result; m_value_iso := Assigned iso;
               m_value_ctx_ptr := Assigned ctx_ptr |}).
  set (st' := <[val := OValue v]> (<[iso := OIsolate i1]> st)).
  assert (Hv : st' !! val = Some (OValue v)) by apply lookup_insert_eq.
  assert (Hi1 : st' !! iso = Some (OIsolate i1)).
  { unfold st'. rewrite lookup_insert_ne by congruence.
    apply lookup_insert_eq. }
  assert (Hmc : st' !! ctx_ptr = Some (OContext mc)).
  { unfold st'. rewrite !lookup_insert_ne by congruence. exact Hctx. }
  pose proof (LOCAL_VALUE_Ret st' val v ctx_ptr iso i1 mc local_ctx
                Hv eq_refl eq_refl Hi1 Hmc Hlc) as Hlocal.
  repeat split; intros;
    unfold ValueIs, ValueToBoolean, ValueToString;
    rewrite (bind_Ret _ _ _ _ _ Hlocal); reflexivity.
Qed.

(** The result of ["1+1"]: a number, true, with the text ["2"]. *)
Lemma RunScript_result_inspectable_witness :
  exists val st',
    @RunScript Demo.E Demo.ctx "1+1" "main.js" Demo.booted
      = Ret ({| value := val; error := RtnError_null |}, st') /\
    (forall k, @ValueIs Demo.E k val st'
               = Ret (if Toy.holds k (Toy.Num 2) then 1 else 0, st')) /\
    @ValueToBoolean Demo.E val st' = Ret (1, st') /\
    @ValueToString Demo.E val st' = Ret (Some "2"%string, st').
Proof.
  apply (@RunScript_result_inspectable Demo.E Demo.booted Demo.ctx Demo.iso
           (@Build_m_ctx Demo.E (Some Demo.the_context) (Assigned Demo.iso))
           (@Build_Isolate Demo.E true Demo.one_context) Demo.the_context
           "1+1" "main.js" (Toy.Str "1+1") (Toy.Str "main.js") (Toy.Num 2));
    vm_compute; reflexivity.
Defined.

(** * Conversions of a value bound to a live context *)

Section BoundHandle.
Context `{E : V8}.
Variables (st : gmap N object) (ptr ctx iso : Ptr) (val : m_value)
  (i : Isolate) (c : m_ctx) (local_ctx : v8_Context) (v : v8_Value).
Hypothesis Hptr : st !! ptr = Some (OValue val).
Hypothesis Hctx : m_value_ctx_ptr val = Assigned ctx.
Hypothesis Hiso : m_value_iso val = Assigned iso.
Hypothesis Hi : st !! iso = Some (OIsolate i).
Hypothesis Hc : st !! ctx = Some (OContext c).
Hypothesis Hlc : m_ctx_ptr c = Some local_ctx.
Hypothesis Hv : m_value_ptr val = Some v.

Lemma LOCAL_VALUE_bound :
  LOCAL_VALUE ptr st = Ret ((iso, local_ctx, Some v), st).
Proof.
  rewrite <- Hv.
  exact (LOCAL_VALUE_Ret _ _ _ _ _ _ _ _ Hptr Hctx Hiso Hi Hc Hlc).
Qed.

(** X9.  On a value handle bound to a live isolate and a live context,
    the four numeric conversions [ValueToInt32], [ValueToInteger],
    [ValueToNumber] and [ValueToUint32] return the number the engine
    converts the value to; when the engine has none (the conversion threw),
    [ToChecked] aborts the process: the failure is not reported to the
    caller, no error value is returned. *)
Theorem checked_conversions_abort :
  ValueToInt32 ptr st
  = match Value_Int32Value local_ctx v with
    | Some n => Ret (n, st)
    | None => Fatal
    end /\
  ValueToInteger ptr st
  = match Value_IntegerValue local_ctx v with
    | Some n => Ret (n, st)
    | None => Fatal
    end /\
  ValueToNumber ptr st
  = match Value_NumberValue local_ctx v with
    | Some n => Ret (n, st)
    | None => Fatal
    end /\
  ValueToUint32 ptr st
  = match Value_Uint32Value local_ctx v with
    | Some n => Ret (n, st)
    | None => Fatal
    end.
Proof.
  unfold ValueToInt32, ValueToInteger, ValueToNumber, ValueToUint32.
  rewrite !(bind_Ret _ _ _ _ _ LOCAL_VALUE_bound).
  unfold deref, ToChecked, fatal, mbind, M_bind, mret, M_ret.
  cbn.
  repeat split;
    match goal with
    | |- _ = match ?x with _ => _ end => destruct x; reflexivity
    end.
Qed.

(** X10.  On such a handle [ValueToArrayIndex] and [ValueToBigInt] always
    return, and report a value that has no conversion through their
    result: [ValueToArrayIndex] gives a null pointer when the value is not
    an array index and a pointer to the index otherwise; [ValueToBigInt]
    gives the record with a null word array, no word and sign 0 when the
    value has no BigInt conversion, and otherwise the words, the count and
    the sign the engine writes into an array sized by its word count. *)
Theorem nullable_conversions_return :
  ValueToArrayIndex ptr st = Ret (Value_ToArrayIndex local_ctx v, st) /\
  ValueToBigInt ptr st
  = Ret (match Value_ToBigInt local_ctx v with
         | Some bint =>
             let written :=
               BigInt_ToWordsArray bint (BigInt_WordCount bint) in
             {| words := Some written.2;
                word_count := written.1.2;
                sign_bit := written.1.1 |}
         | None => {| words := None; word_count := 0; sign_bit := 0 |}
         end, st).
Proof.
  unfold ValueToArrayIndex, ValueToBigInt.
  rewrite !(bind_Ret _ _ _ _ _ LOCAL_VALUE_bound).
  unfold deref, mbind, M_bind, mret, M_ret.
  cbn.
  split; [reflexivity|].
  destruct (Value_ToBigInt local_ctx v); reflexivity.
Qed.

(** X11.  On such a handle [ValueToString] always returns: the text of the
    string conversion of the value, or a null pointer when the value has no
    string conversion or the text is empty.  [ValueToDetailString] returns
    the text of the detail string in the same way, but aborts the process
    when the engine produces no detail string. *)
Theorem string_conversions :
  ValueToString ptr st
  = Ret (CopyString_Utf8Value (String_Utf8Value v), st) /\
  ValueToDetailString ptr st
  = match Value_ToDetailString local_ctx v with
    | Some ds => Ret (CopyString_Utf8Value (String_Utf8Value ds), st)
    | None => Fatal
    end.
Proof.
  unfold ValueToString, ValueToDetailString.
  rewrite !(bind_Ret _ _ _ _ _ LOCAL_VALUE_bound).
  unfold deref, ToLocalChecked, fatal, mbind, M_bind, mret, M_ret.
  cbn.
  split; [reflexivity|].
  destruct (Value_ToDetailString local_ctx v); reflexivity.
Qed.

End BoundHandle.

(** A symbol has no number: the four conversions abort. *)
Lemma checked_conversions_abort_witness :
  @ValueToInt32 Demo.E 3%N (Demo.with_result Toy.Sym) = Fatal /\
  @ValueToInteger Demo.E 3%N (Demo.with_result Toy.Sym) = Fatal /\
  @ValueToNumber Demo.E 3%N (Demo.with_result Toy.Sym) = Fatal /\
  @ValueToUint32 Demo.E 3%N (Demo.with_result Toy.Sym) = Fatal.
Proof.
  apply (@checked_conversions_abort Demo.E (Demo.with_result Toy.Sym) 3%N
           Demo.ctx Demo.iso
           (@Build_m_value Demo.E (Some Toy.Sym) (Assigned Demo.iso)
              (Assigned Demo.ctx))
           (@Build_Isolate Demo.E true Demo.one_context)
           (@Build_m_ctx Demo.E (Some Demo.the_context) (Assigned Demo.iso))
           Demo.the_context Toy.Sym);
    vm_compute; reflexivity.
Defined.

(** The number 2 is an array index and has no BigInt conversion. *)
Lemma nullable_conversions_return_witness :
  @ValueToArrayIndex Demo.E 3%N (Demo.with_result (Toy.Num 2))
  = Ret (Some 2, Demo.with_result (Toy.Num 2)) /\
  @ValueToBigInt Demo.E 3%N (Demo.with_result (Toy.Num 2))
  = Ret ({| words := None; word_count := 0; sign_bit := 0 |},
         Demo.with_result (Toy.Num 2)).
Proof.
  apply (@nullable_conversions_return Demo.E (Demo.with_result (Toy.Num 2))
           3%N Demo.ctx Demo.iso
           (@Build_m_value Demo.E (Some (Toy.Num 2)) (Assigned Demo.iso)
              (Assigned Demo.ctx))
           (@Build_Isolate Demo.E true Demo.one_context)
           (@Build_m_ctx Demo.E (Some Demo.the_context) (Assigned Demo.iso))
           Demo.the_context (Toy.Num 2));
    vm_compute; reflexivity.
Defined.

(** A symbol has no string conversion but a detail string. *)
Lemma string_conversions_witness :
  @ValueToString Demo.E 3%N (Demo.with_result Toy.Sym)
  = Ret (None, Demo.with_result Toy.Sym) /\
  @ValueToDetailString Demo.E 3%N (Demo.with_result Toy.Sym)
  = Ret (Some "Symbol()"%string, Demo.with_result Toy.Sym).
Proof.
  apply (@string_conversions Demo.E (Demo.with_result Toy.Sym) 3%N
           Demo.ctx Demo.iso
           (@Build_m_value Demo.E (Some Toy.Sym) (Assigned Demo.iso)
              (Assigned Demo.ctx))
           (@Build_Isolate Demo.E true Demo.one_context)
           (@Build_m_ctx Demo.E (Some Demo.the_context) (Assigned Demo.iso))
           Demo.the_context Toy.Sym);
    vm_compute; reflexivity.
Defined.

(** X12.  Whatever the handle and the store, a predicate [ValueIs...] and
    [ValueToBoolean] answer 1 or 0 and nothing else when they return, they
    leave the store as it was, and they never abort the process: the
    [bool] of the engine is converted to [int]. *)
Theorem predicates_answer_0_or_1 `{E : V8} (st : gmap N object)
    (k : predicate) (ptr : Ptr) :
  match ValueIs k ptr st with
  | Ret (r, st') => (r = 0 \/ r = 1) /\ st' = st
  | Undefined => True
  | Fatal => False
  end /\
  match ValueToBoolean ptr st with
  | Ret (r, st') => (r = 0 \/ r = 1) /\ st' = st
  | Undefined => True
  | Fatal => False
  end.
Proof.
  pose proof (LOCAL_VALUE_cases st ptr) as Hcases.
  unfold ValueIs, ValueToBoolean, mbind, M_bind.
  destruct (LOCAL_VALUE ptr st) as [[l st1]| |];
    [|split; exact I|contradiction].
  destruct Hcases as [-> _].
  destruct l.2 as [v|]; cbn; [|split; exact I].
  split.
  - destruct (Value_Is k v); auto.
  - destruct (Value_BooleanValue v); auto.
Qed.

(** * Disposal and stale handles *)

Section Disposal.
Context `{E : V8}.
Implicit Types (st : gmap N object) (p q : Ptr).

#[local] Hint Resolve reads_ret reads_undefined reads_fatal reads_load
  reads_read reads_deref reads_ToLocalChecked reads_ToChecked
  reads_as_isolate reads_as_ctx reads_as_value reads_as_object_template
  reads_LOCAL_VALUE reads_ExceptionError : reads.

(** Every operation on a handle starts by reading the object the handle
    designates. *)
Lemma dangling_cast st p :
  st !! p = None ->
  as_isolate p st = Undefined /\ as_ctx p st = Undefined /\
  as_value p st = Undefined /\ as_object_template p st = Undefined.
Proof.
  intros H. unfold as_isolate, as_ctx, as_value, as_object_template, load,
    mbind, M_bind.
  rewrite H. repeat split.
Qed.

Lemma reads_leaves_free {A : Type} p (m : M A) : reads m -> leaves_free p m.
Proof. intros Hm st st' a Hp Ha. rewrite (Hm st st' a Ha). exact Hp. Qed.

Lemma leaves_free_bind {A B : Type} p (m : M A) (k : A -> M B) :
  leaves_free p m -> (forall a, leaves_free p (k a)) ->
  leaves_free p (m ≫= k).
Proof.
  intros Hm Hk st st' b Hp (a & st1 & Ha & Hb)%bind_inv.
  exact (Hk a st1 st' b (Hm st st1 a Hp Ha) Hb).
Qed.

Lemma leaves_free_free p q : leaves_free p (free q).
Proof.
  intros st st' [] Hp [= <-]. apply lookup_delete_None. right. exact Hp.
Qed.

Lemma leaves_free_store p q (o : object) :
  q <> p -> leaves_free p (store q o).
Proof.
  intros Hne st st' [] Hp [= <-].
  rewrite lookup_insert_ne by exact Hne. exact Hp.
Qed.

(** The isolate a setter writes to is alive, hence not at a free
    address. *)
Lemma leaves_free_LOCAL_OBJECT_TEMPLATE {B : Type} p q
    (k : Ptr * Isolate * Local v8_ObjectTemplate -> M B) :
  (forall l, l.1.1 <> p -> leaves_free p (k l)) ->
  leaves_free p (LOCAL_OBJECT_TEMPLATE q ≫= k).
Proof.
  intros Hk st st' b Hp (l & st1 & Hl & Hb)%bind_inv.
  apply LOCAL_OBJECT_TEMPLATE_inv in Hl as (-> & ot & i & _ & _ & Hi & _).
  assert (Hne : l.1.1 <> p) by congruence.
  exact (Hk l Hne st st' b Hp Hb).
Qed.

Ltac stale :=
  repeat first
    [ progress cbn zeta
    | apply reads_leaves_free; solve [auto with reads]
    | apply leaves_free_LOCAL_OBJECT_TEMPLATE; intros ? ?
    | apply leaves_free_free
    | apply leaves_free_store; assumption
    | apply leaves_free_bind; [|intros ?] ].

Lemma leaves_free_run_call p c :
  allocates c = false -> leaves_free p (run_call c).
Proof.
  destruct c; try discriminate; intros _; unfold run_call.
  - unfold IsolateDispose. case_decide; stale.
  - unfold IsolateTerminateExecution. stale.
  - unfold IsolationGetHeapStatistics. case_decide; stale.
  - unfold ObjectTemplateDispose. case_decide; stale.
  - unfold ObjectTemplateSetValue. stale.
  - unfold ObjectTemplateSetObjectTemplate. stale.
  - unfold ContextDispose. case_decide; stale.
  - unfold ValueDispose. case_decide; stale.
  - apply reads_leaves_free, reads_inspect.
Qed.

(** Only a constructor can give a free address to an object again. *)
Lemma leaves_free_run_calls p (cs : list call) :
  Forall (fun c => allocates c = false) cs -> leaves_free p (run_calls cs).
Proof.
  induction 1 as [|c cs Hc _ IH]; simpl.
  - apply reads_leaves_free, reads_ret.
  - apply leaves_free_bind;
      [apply leaves_free_run_call, Hc|intros ?; exact IH].
Qed.

(** A context, template or value that no call of the sequence disposes of
    is left as it is. *)
Lemma wrapper_kept st st' h o (cs : list call) :
  st !! h = Some o ->
  is_wrapper o = true ->
  Forall (fun c => disposes h c = false) cs ->
  run_calls cs st = Ret (tt, st') ->
  st' !! h = Some o.
Proof.
  intros Hh Hw Hcs. revert st Hh.
  induction Hcs as [|c cs Hc _ IH]; intros st Hh; simpl.
  - intros [= <-]. exact Hh.
  - intros ([] & st1 & Hrun & Hrest)%bind_inv.
    apply (IH st1); [|exact Hrest].
    apply (frames_run_call st c st1 h o); [|exact Hh|exact Hrun].
    intros Ht.
    destruct (run_call_target_live st c st1 h Hrun Ht Hc) as (i & Hi).
    rewrite Hi in Hh. injection Hh as <-. discriminate.
Qed.

(** A wrapper bound to an isolate that is gone cannot be entered. *)
Lemma LOCAL_VALUE_dead_isolate st v val iso :
  st !! v = Some (OValue val) -> m_value_iso val = Assigned iso ->
  st !! iso = None -> LOCAL_VALUE v st = Undefined.
Proof.
  intros Hv Hiso Hfree.
  pose proof (LOCAL_VALUE_cases st v) as Hcases.
  destruct (LOCAL_VALUE v st) as [[r st1]| |]; [|reflexivity|contradiction].
  destruct Hcases as (_ & val' & ctx' & iso' & i' & c' & lc' & Hv2 & _
                        & Hi2 & Hl2 & _).
  rewrite Hv in Hv2. injection Hv2 as <-.
  rewrite Hiso in Hi2. injection Hi2 as <-. congruence.
Qed.

Lemma LOCAL_VALUE_dead_context st v val ctx_ptr :
  st !! v = Some (OValue val) -> m_value_ctx_ptr val = Assigned ctx_ptr ->
  st !! ctx_ptr = None -> LOCAL_VALUE v st = Undefined.
Proof.
  intros Hv Hback Hfree.
  pose proof (LOCAL_VALUE_cases st v) as Hcases.
  destruct (LOCAL_VALUE v st) as [[r st1]| |]; [|reflexivity|contradiction].
  destruct Hcases as (_ & val' & ctx' & iso' & i' & c' & lc' & Hv2 & Hb2
                        & _ & _ & Hc2 & _).
  rewrite Hv in Hv2. injection Hv2 as <-.
  rewrite Hback in Hb2. injection Hb2 as <-. congruence.
Qed.

(** X13.  A disposal of a non-null handle that designates a live object
    of the kind the function expects (for [ContextDispose], a context whose
    isolate is alive) returns and removes exactly that object: the store
    afterwards is the store before without the address of the handle.  From
    then on the handle is stale.  After any further calls that return, and
    for as long as its address has not been given to a new object, which
    only a constructor can do, disposing of the handle again, with any of
    the four functions, is undefined behaviour. *)
Theorem dispose_frees_exactly_the_handle st p :
  p <> nullptr ->
  (forall i, st !! p = Some (OIsolate i) ->
     IsolateDispose p st = Ret (tt, delete p st)) /\
  (forall ot, st !! p = Some (OObjectTemplate ot) ->
     ObjectTemplateDispose p st = Ret (tt, delete p st)) /\
  (forall v, st !! p = Some (OValue v) ->
     ValueDispose p st = Ret (tt, delete p st)) /\
  (forall c iso i,
     st !! p = Some (OContext c) -> m_ctx_iso c = Assigned iso ->
     st !! iso = Some (OIsolate i) ->
     ContextDispose p st = Ret (tt, delete p st)) /\
  (forall (cs : list call) st'',
     run_calls cs (delete p st) = Ret (tt, st'') ->
     (Forall (fun c => allocates c = false) cs -> st'' !! p = None) /\
     (st'' !! p = None ->
      IsolateDispose p st'' = Undefined /\
      ObjectTemplateDispose p st'' = Undefined /\
      ValueDispose p st'' = Undefined /\
      ContextDispose p st'' = Undefined)).
Proof.
  intros Hp.
  split; [|split; [|split; [|split]]].
  - intros i Hi. unfold IsolateDispose. rewrite decide_False by exact Hp.
    rewrite (bind_Ret _ _ _ _ _ (as_isolate_Ret _ _ _ Hi)). reflexivity.
  - intros ot Ho. unfold ObjectTemplateDispose.
    rewrite decide_False by exact Hp.
    rewrite (bind_Ret _ _ _ _ _ (as_object_template_Ret _ _ _ Ho)).
    reflexivity.
  - intros v Hv. unfold ValueDispose. rewrite decide_False by exact Hp.
    rewrite (bind_Ret _ _ _ _ _ (as_value_Ret _ _ _ Hv)). reflexivity.
  - intros c iso i Hc _ _. unfold ContextDispose.
    rewrite decide_False by exact Hp.
    rewrite (bind_Ret _ _ _ _ _ (as_ctx_Ret _ _ _ Hc)). reflexivity.
  - intros cs st'' Hrun. split.
    + intros Hcs.
      exact (leaves_free_run_calls p cs Hcs _ _ _ (lookup_delete_eq st p)
               Hrun).
    + intros Hfree.
      destruct (dangling_cast st'' p Hfree) as (Hiso & Hctx & Hval & Hot).
      unfold IsolateDispose, ObjectTemplateDispose, ValueDispose,
        ContextDispose.
      rewrite !decide_False by exact Hp.
      repeat split; apply bind_Undefined; assumption.
Qed.

(** X14.  [ContextDispose] on a live context frees the context and nothing
    else, and it does not look for the values that were produced in it:
    every value handle whose [ctx_ptr] designates the context is left in
    the store with a dangling [ctx_ptr], and [ValueDispose] on it still
    returns.  After any further calls that return, the value is still what
    it was unless it was disposed of, and, for as long as the address of the
    context has not been given to a new object, which only a constructor
    can do, [RunScript] on the disposed context and every conversion and
    predicate on such a value are undefined behaviour. *)
Theorem ContextDispose_strands_its_values st ctx_ptr mc iso i v val :
  ctx_ptr <> nullptr ->
  st !! ctx_ptr = Some (OContext mc) ->
  m_ctx_iso mc = Assigned iso ->
  st !! iso = Some (OIsolate i) ->
  v <> nullptr ->
  st !! v = Some (OValue val) ->
  m_value_ctx_ptr val = Assigned ctx_ptr ->
  exists st',
    ContextDispose ctx_ptr st = Ret (tt, st') /\
    (forall q, q <> ctx_ptr -> st' !! q = st !! q) /\
    ValueDispose v st' = Ret (tt, delete v st') /\
    (forall (cs : list call) st'',
       run_calls cs st' = Ret (tt, st'') ->
       (Forall (fun c => allocates c = false) cs ->
        st'' !! ctx_ptr = None) /\
       (Forall (fun c => c <> CallValueDispose v) cs ->
        st'' !! v = Some (OValue val)) /\
       (st'' !! ctx_ptr = None ->
        (forall source origin,
           RunScript ctx_ptr source origin st'' = Undefined) /\
        (Forall (fun c => c <> CallValueDispose v) cs ->
         forall op, inspect op v st'' = Undefined))).
Proof.
  intros Hnull Hctx _ _ Hvnull Hv Hback.
  exists (delete ctx_ptr st).
  assert (Hvne : v <> ctx_ptr) by congruence.
  assert (Hv' : delete ctx_ptr st !! v = Some (OValue val)).
  { rewrite lookup_delete_ne by congruence. exact Hv. }
  split; [|split; [|split]].
  - unfold ContextDispose. rewrite decide_False by exact Hnull.
    rewrite (bind_Ret _ _ _ _ _ (as_ctx_Ret _ _ _ Hctx)). reflexivity.
  - intros q Hq. apply lookup_delete_ne. congruence.
  - unfold ValueDispose. rewrite decide_False by exact Hvnull.
    rewrite (bind_Ret _ _ _ _ _ (as_value_Ret _ _ _ Hv')). reflexivity.
  - intros cs st'' Hrun.
    assert (Hkept : Forall (fun c => c <> CallValueDispose v) cs ->
                    st'' !! v = Some (OValue val)).
    { intros Hcs.
      exact (preserves_run_calls v cs Hcs _ _ tt val Hv' Hrun). }
    split; [|split; [exact Hkept|]].
    + intros Hcs.
      exact (leaves_free_run_calls ctx_ptr cs Hcs _ _ _
               (lookup_delete_eq st ctx_ptr) Hrun).
    + intros Hfree. split.
      * intros source origin.
        destruct (dangling_cast st'' ctx_ptr Hfree) as (_ & Hcast & _ & _).
        unfold RunScript. apply bind_Undefined, Hcast.
      * intros Hcs op. apply inspect_LOCAL_VALUE_Undefined.
        exact (LOCAL_VALUE_dead_context st'' v val ctx_ptr (Hkept Hcs) Hback
                 Hfree).
Qed.

(** X15.  [IsolateDispose] on a live isolate disposes of the isolate and
    of nothing else: the contexts, templates and values bound to it stay
    allocated, and after any further calls that return each is still what
    it was unless it was disposed of.  For as long as the address of the
    isolate has not been given to a new object, which only a constructor
    can do, every function that enters the isolate is undefined behaviour:
    the three constructors given its handle, [RunScript] on a context bound
    to it, every conversion and predicate on a value bound to it, and the
    two setters on a template bound to it. *)
Theorem IsolateDispose_invalidates st iso i :
  iso <> nullptr ->
  st !! iso = Some (OIsolate i) ->
  exists st',
    IsolateDispose iso st = Ret (tt, st') /\
    (forall q, q <> iso -> st' !! q = st !! q) /\
    (forall (cs : list call) st'',
       run_calls cs st' = Ret (tt, st'') ->
       (Forall (fun c => allocates c = false) cs -> st'' !! iso = None) /\
       (forall h o,
          st !! h = Some o -> is_wrapper o = true ->
          Forall (fun c => disposes h c = false) cs ->
          st'' !! h = Some o) /\
       (st'' !! iso = None ->
        NewObjectTemplate iso st'' = Undefined /\
        (forall tmpl, NewContext iso tmpl st'' = Undefined) /\
        (forall c, NewValue c iso st'' = Undefined) /\
        (forall ctx_ptr mc source origin,
           st'' !! ctx_ptr = Some (OContext mc) ->
           m_ctx_iso mc = Assigned iso ->
           RunScript ctx_ptr source origin st'' = Undefined) /\
        (forall v val op,
           st'' !! v = Some (OValue val) -> m_value_iso val = Assigned iso ->
           inspect op v st'' = Undefined) /\
        (forall tmpl ot name val_ptr attributes,
           st'' !! tmpl = Some (OObjectTemplate ot) ->
           m_object_template_iso ot = Assigned iso ->
           ObjectTemplateSetValue tmpl name val_ptr attributes st''
           = Undefined /\
           ObjectTemplateSetObjectTemplate tmpl name val_ptr attributes st''
           = Undefined))).
Proof.
  intros Hnull Hi. exists (delete iso st).
  split; [|split].
  - unfold IsolateDispose. rewrite decide_False by exact Hnull.
    rewrite (bind_Ret _ _ _ _ _ (as_isolate_Ret _ _ _ Hi)). reflexivity.
  - intros q Hq. apply lookup_delete_ne. congruence.
  - intros cs st'' Hrun. split; [|split].
    + intros Hcs.
      exact (leaves_free_run_calls iso cs Hcs _ _ _ (lookup_delete_eq st iso)
               Hrun).
    + intros h o Hh Hw Hcs.
      apply (wrapper_kept (delete iso st) st'' h o cs); try assumption.
      rewrite lookup_delete_ne; [exact Hh|]. intros ->.
      rewrite Hi in Hh. injection Hh as <-. discriminate.
    + intros Hfree.
      destruct (dangling_cast st'' iso Hfree) as (Hcast & _ & _ & _).
      split; [|split; [|split; [|split; [|split]]]].
      * unfold NewObjectTemplate, Locker. apply bind_Undefined, Hcast.
      * intros tmpl. unfold NewContext, Locker. apply bind_Undefined, Hcast.
      * intros c.
        destruct c; unfold NewValue, NewValueInteger,
          NewValueIntegerFromUnsigned, NewValueString, NewValueBoolean,
          NewValueNumber, NewValueBigInt, NewValueBigIntFromUnsigned,
          NewValueBigIntFromWords, ISOLATE_SCOPE, Locker;
          apply bind_Undefined, Hcast.
      * intros ctx_ptr mc source origin Hmc Hiso. unfold RunScript, Locker.
        rewrite (bind_Ret _ _ _ _ _ (as_ctx_Ret _ _ _ Hmc)).
        rewrite Hiso. cbn [read].
        rewrite (bind_Ret _ _ st'' iso st'' eq_refl).
        apply bind_Undefined, Hcast.
      * intros v val op Hv Hiso. apply inspect_LOCAL_VALUE_Undefined.
        exact (LOCAL_VALUE_dead_isolate st'' v val iso Hv Hiso Hfree).
      * intros tmpl ot name val_ptr attributes Hot Hiso.
        assert (Hl : LOCAL_OBJECT_TEMPLATE tmpl st'' = Undefined).
        { unfold LOCAL_OBJECT_TEMPLATE, Locker.
          rewrite (bind_Ret _ _ _ _ _ (as_object_template_Ret _ _ _ Hot)).
          rewrite Hiso. cbn [read].
          rewrite (bind_Ret _ _ st'' iso st'' eq_refl).
          apply bind_Undefined, Hcast. }
        split; unfold ObjectTemplateSetValue, ObjectTemplateSetObjectTemplate;
          apply bind_Undefined, Hl.
Qed.

(** X16.  Only the four disposals and [IsolationGetHeapStatistics] test
    their handle for null.  Every other function dereferences the handle
    it is given: called with a handle at whose address no object lives (a
    null handle, in a well-formed store, or the handle of an object that
    was disposed of), it is undefined behaviour, and so are, for such a
    handle that is not null, [IsolationGetHeapStatistics] and [NewContext]
    given the handle as its template. *)
Theorem stale_handle_is_undefined st p :
  st !! p = None ->
  IsolateTerminateExecution p st = Undefined /\
  NewObjectTemplate p st = Undefined /\
  (forall tmpl, NewContext p tmpl st = Undefined) /\
  (forall c, NewValue c p st = Undefined) /\
  (forall source origin, RunScript p source origin st = Undefined) /\
  (forall op, inspect op p st = Undefined) /\
  (forall name val_ptr attributes,
     ObjectTemplateSetValue p name val_ptr attributes st = Undefined /\
     ObjectTemplateSetObjectTemplate p name val_ptr attributes st
     = Undefined) /\
  (p <> nullptr -> IsolationGetHeapStatistics p st = Undefined) /\
  (p <> nullptr ->
   forall iso i, st !! iso = Some (OIsolate i) ->
                 NewContext iso p st = Undefined).
Proof.
  intros Hp. destruct (dangling_cast st p Hp) as (Hiso & Hctx & Hval & Hot).
  split; [|split; [|split; [|split; [|split; [|split; [|split; [|split]]]]]]].
  - unfold IsolateTerminateExecution. apply bind_Undefined, Hiso.
  - unfold NewObjectTemplate, Locker. apply bind_Undefined, Hiso.
  - intros tmpl. unfold NewContext, Locker. apply bind_Undefined, Hiso.
  - intros c.
    destruct c; unfold NewValue, NewValueInteger, NewValueIntegerFromUnsigned,
      NewValueString, NewValueBoolean, NewValueNumber, NewValueBigInt,
      NewValueBigIntFromUnsigned, NewValueBigIntFromWords, ISOLATE_SCOPE,
      Locker; apply bind_Undefined, Hiso.
  - intros source origin. unfold RunScript. apply bind_Undefined, Hctx.
  - intros op. apply inspect_LOCAL_VALUE_Undefined.
    unfold LOCAL_VALUE. apply bind_Undefined, Hval.
  - intros name val_ptr attributes.
    split; unfold ObjectTemplateSetValue, ObjectTemplateSetObjectTemplate,
      LOCAL_OBJECT_TEMPLATE;
      apply bind_Undefined, bind_Undefined, Hot.
  - intros Hnull. unfold IsolationGetHeapStatistics.
    rewrite decide_False by exact Hnull. apply bind_Undefined, Hiso.
  - intros Hnull iso i Hi. unfold NewContext, Locker.
    rewrite (bind_Ret _ _ _ _ _ (as_isolate_Ret _ _ _ Hi)).
    rewrite decide_True by exact Hnull.
    apply bind_Undefined, bind_Undefined, Hot.
Qed.

End Disposal.

(** The context of [Demo.booted], disposed of, then a query of the heap,
    then disposed of again. *)
Lemma dispose_frees_exactly_the_handle_witness :
  @ContextDispose Demo.E Demo.ctx Demo.booted
  = Ret (tt, delete Demo.ctx Demo.booted) /\
  @ContextDispose Demo.E Demo.ctx
    (@store_after Demo.E [CallIsolationGetHeapStatistics Demo.iso]
       (delete Demo.ctx Demo.booted))
  = Undefined.
Proof.
  destruct (@dispose_frees_exactly_the_handle Demo.E Demo.booted Demo.ctx
              ltac:(discriminate))
    as (_ & _ & _ & Hfirst & Hlater).
  split.
  - refine (Hfirst (@Build_m_ctx Demo.E (Some Demo.the_context)
                      (Assigned Demo.iso))
              Demo.iso (@Build_Isolate Demo.E true Demo.one_context) _ _ _);
      vm_compute; reflexivity.
  - assert (Hrun : @run_calls Demo.E [CallIsolationGetHeapStatistics Demo.iso]
                       (delete Demo.ctx Demo.booted)
                     = Ret (tt, @store_after Demo.E
                                  [CallIsolationGetHeapStatistics Demo.iso]
                                  (delete Demo.ctx Demo.booted)))
      by (vm_compute; reflexivity).
    destruct (Hlater _ _ Hrun) as (Hfree & Hundefined).
    apply Hundefined, Hfree. repeat constructor.
Defined.

(** The result of a script, after the context it ran in is gone and the
    heap was queried. *)
Lemma ContextDispose_strands_its_values_witness :
  exists st',
    @ContextDispose Demo.E Demo.ctx (Demo.with_result (Toy.Num 2))
    = Ret (tt, st') /\
    @ValueDispose Demo.E 3%N st' = Ret (tt, delete 3%N st') /\
    @RunScript Demo.E Demo.ctx "1+1" "main.js"
      (@store_after Demo.E [CallIsolationGetHeapStatistics Demo.iso] st')
    = Undefined /\
    @inspect Demo.E ToString 3%N
      (@store_after Demo.E [CallIsolationGetHeapStatistics Demo.iso] st')
    = Undefined.
Proof.
  destruct (@ContextDispose_strands_its_values Demo.E
              (Demo.with_result (Toy.Num 2)) Demo.ctx
              (@Build_m_ctx Demo.E (Some Demo.the_context) (Assigned Demo.iso))
              Demo.iso (@Build_Isolate Demo.E true Demo.one_context) 3%N
              (@Build_m_value Demo.E (Some (Toy.Num 2)) (Assigned Demo.iso)
                 (Assigned Demo.ctx))
              ltac:(discriminate) ltac:(vm_compute; reflexivity)
              ltac:(reflexivity) ltac:(vm_compute; reflexivity)
              ltac:(discriminate) ltac:(vm_compute; reflexivity)
              ltac:(reflexivity))
    as (st' & Hdispose & _ & Hvalue & Hlater).
  exists st'. split; [exact Hdispose|]. split; [exact Hvalue|].
  assert (Hst' : st' = delete Demo.ctx (Demo.with_result (Toy.Num 2))).
  { assert (H : @ContextDispose Demo.E Demo.ctx (Demo.with_result (Toy.Num 2))
                = Ret (tt, delete Demo.ctx (Demo.with_result (Toy.Num 2))))
      by (vm_compute; reflexivity).
    rewrite H in Hdispose. injection Hdispose as <-. reflexivity. }
  assert (Hcalls : @run_calls Demo.E
                      [CallIsolationGetHeapStatistics Demo.iso] st'
                    = Ret (tt, @store_after Demo.E
                                 [CallIsolationGetHeapStatistics Demo.iso]
                                 st'))
    by (rewrite Hst'; vm_compute; reflexivity).
  destruct (Hlater _ _ Hcalls) as (Hfree & _ & Hundefined).
  destruct (Hundefined (Hfree ltac:(repeat constructor)))
    as (Hrun & Hinspect).
  split; [apply Hrun|]. apply Hinspect.
  repeat (constructor; [discriminate|]). constructor.
Defined.

(** The isolate of [Demo.with_result], disposed of before its context and
    its value; a template handle is then disposed of in vain. *)
Lemma IsolateDispose_invalidates_witness :
  exists st',
    @IsolateDispose Demo.E Demo.iso (Demo.with_result (Toy.Num 2))
    = Ret (tt, st') /\
    st' !! Demo.ctx = Demo.with_result (Toy.Num 2) !! Demo.ctx /\
    @RunScript Demo.E Demo.ctx "1+1" "main.js"
      (@store_after Demo.E [CallObjectTemplateDispose nullptr] st')
    = Undefined /\
    @inspect Demo.E ToString 3%N
      (@store_after Demo.E [CallObjectTemplateDispose nullptr] st')
    = Undefined.
Proof.
  destruct (@IsolateDispose_invalidates Demo.E (Demo.with_result (Toy.Num 2))
              Demo.iso (@Build_Isolate Demo.E true Demo.one_context)
              ltac:(discriminate) ltac:(vm_compute; reflexivity))
    as (st' & Hdispose & Hframe & Hlater).
  exists st'. split; [exact Hdispose|].
  split; [apply Hframe; discriminate|].
  assert (Hcalls : @run_calls Demo.E [CallObjectTemplateDispose nullptr] st'
                   = Ret (tt, @store_after Demo.E
                                [CallObjectTemplateDispose nullptr] st'))
    by reflexivity.
  destruct (Hlater _ _ Hcalls) as (Hfree & Hkept & Hundefined).
  destruct (Hundefined (Hfree ltac:(repeat constructor)))
    as (_ & _ & _ & Hrun & Hinspect & _).
  split.
  - refine (Hrun Demo.ctx
              (@Build_m_ctx Demo.E (Some Demo.the_context) (Assigned Demo.iso))
              "1+1" "main.js" _ eq_refl).
    apply (Hkept Demo.ctx (Demo.context_object Demo.E Demo.the_context));
      [vm_compute; reflexivity|reflexivity|repeat constructor].
  - refine (Hinspect 3%N
              (@Build_m_value Demo.E (Some (Toy.Num 2)) (Assigned Demo.iso)
                 (Assigned Demo.ctx))
              ToString _ eq_refl).
    apply (Hkept 3%N
             (Demo.value_object Demo.E (Toy.Num 2) (Assigned Demo.ctx)));
      [vm_compute; reflexivity|reflexivity|repeat constructor].
Defined.

(** The null handle in [Demo.booted]. *)
Lemma stale_handle_is_undefined_witness :
  @IsolateTerminateExecution Demo.E nullptr Demo.booted = Undefined /\
  @NewObjectTemplate Demo.E nullptr Demo.booted = Undefined /\
  @RunScript Demo.E nullptr "1+1" "main.js" Demo.booted = Undefined /\
  @inspect Demo.E (Is IsNumber) nullptr Demo.booted = Undefined.
Proof.
  destruct (@stale_handle_is_undefined Demo.E Demo.booted nullptr
              ltac:(vm_compute; reflexivity))
    as (Hterminate & Htemplate & _ & _ & Hrun & Hinspect & _).
  split; [exact Hterminate|]. split; [exact Htemplate|].
  split; [apply Hrun|apply Hinspect].
Defined.

(** * Templates *)

Section Templates.
Context `{E : V8}.
Implicit Types (st : gmap N object) (p q : Ptr).

(** X18.  On a live template and a name the engine accepts,
    [ObjectTemplateSetValue] with a live value handle and
    [ObjectTemplateSetObjectTemplate] with a live template handle return,
    and change one thing: the heap of the isolate the first template is
    bound to, which becomes the heap the engine leaves after
    [ObjectTemplate::Set] with the engine string of the name (the C text of
    [name]), the value or template behind the second handle, and the
    attributes.  The second handle is bound to the same isolate; its
    [ctx_ptr] is not read, so that the value may be one a [NewValue]
    constructor made.  A second handle at whose address no object lives is
    undefined behaviour. *)
Theorem template_setters_write_the_heap st tmpl ot iso i t name prop_name
    attributes :
  st !! tmpl = Some (OObjectTemplate ot) ->
  m_object_template_iso ot = Assigned iso ->
  st !! iso = Some (OIsolate i) ->
  m_object_template_ptr ot = Some t ->
  String_NewFromUtf8 (c_str name) = Some prop_name ->
  (forall val_ptr val v,
     st !! val_ptr = Some (OValue val) -> m_value_iso val = Assigned iso ->
     m_value_ptr val = Some v ->
     ObjectTemplateSetValue tmpl name val_ptr attributes st
     = Ret (tt, <[iso := with_heap i
                           (ObjectTemplate_Set (heap i) t prop_name (inl v)
                              attributes)]> st)) /\
  (forall obj_ptr obj o,
     st !! obj_ptr = Some (OObjectTemplate obj) ->
     m_object_template_iso obj = Assigned iso ->
     m_object_template_ptr obj = Some o ->
     ObjectTemplateSetObjectTemplate tmpl name obj_ptr attributes st
     = Ret (tt, <[iso := with_heap i
                           (ObjectTemplate_Set (heap i) t prop_name (inr o)
                              attributes)]> st)) /\
  (forall ptr,
     st !! ptr = None ->
     ObjectTemplateSetValue tmpl name ptr attributes st = Undefined /\
     ObjectTemplateSetObjectTemplate tmpl name ptr attributes st = Undefined).
Proof.
  intros Hot Hiso Hi Ht Hname.
  pose proof (LOCAL_OBJECT_TEMPLATE_Ret st tmpl ot iso i Hot Hiso Hi) as Hl.
  assert (Hprop : ToLocalChecked (String_NewFromUtf8 (c_str name)) st
                  = Ret (prop_name, st)) by (rewrite Hname; reflexivity).
  split; [|split].
  - intros val_ptr val v Hval _ Hv. unfold ObjectTemplateSetValue.
    rewrite (bind_Ret _ _ _ _ _ Hl), (bind_Ret _ _ _ _ _ Hprop).
    rewrite (bind_Ret _ _ _ _ _ (as_value_Ret _ _ _ Hval)).
    cbn [fst snd]. rewrite Ht, Hv. reflexivity.
  - intros obj_ptr obj o Hobj _ Ho. unfold ObjectTemplateSetObjectTemplate.
    rewrite (bind_Ret _ _ _ _ _ Hl), (bind_Ret _ _ _ _ _ Hprop).
    rewrite (bind_Ret _ _ _ _ _ (as_object_template_Ret _ _ _ Hobj)).
    cbn [fst snd]. rewrite Ht, Ho. reflexivity.
  - intros ptr Hptr.
    destruct (dangling_cast st ptr Hptr) as (_ & _ & Hval & Hobj).
    split; unfold ObjectTemplateSetValue, ObjectTemplateSetObjectTemplate;
      rewrite (bind_Ret _ _ _ _ _ Hl), (bind_Ret _ _ _ _ _ Hprop);
      apply bind_Undefined; assumption.
Qed.

(** X17.  The three steps by which a host gives a context its globals
    compose.  On a live isolate, with a live value handle bound to it (a
    host value will do) and a name the engine accepts: [NewObjectTemplate] returns a
    template handle, [ObjectTemplateSetValue] on it returns, and
    [NewContext] with the template handle returns a context handle.  The
    context is the one the engine creates from that very template, in the
    heap in which the value was set on it; the isolate captures stack
    traces; the template and the value are still live and unchanged, so
    that both can be used again. *)
Theorem template_pipeline st iso i name prop_name val_ptr val v attributes :
  st !! iso = Some (OIsolate i) ->
  st !! val_ptr = Some (OValue val) ->
  m_value_iso val = Assigned iso ->
  m_value_ptr val = Some v ->
  String_NewFromUtf8 (c_str name) = Some prop_name ->
  let made := ObjectTemplate_New (heap i) in
  let populated :=
    ObjectTemplate_Set made.2 made.1 prop_name (inl v) attributes in
  let created := Context_New populated (Some made.1) in
  exists tmpl ctx st1 st2 st3,
    NewObjectTemplate iso st = Ret (tmpl, st1) /\
    ObjectTemplateSetValue tmpl name val_ptr attributes st1 = Ret (tt, st2) /\
    NewContext iso tmpl st2 = Ret (ctx, st3) /\
    st3 !! ctx = Some (OContext {| m_ctx_ptr := Some created.1;
                                   m_ctx_iso := Assigned iso |}) /\
    st3 !! iso = Some (OIsolate
                         {| capture_stack_trace_for_uncaught_exceptions := true;
                            heap := created.2 |}) /\
    st3 !! tmpl = Some (OObjectTemplate
                          {| m_object_template_ptr := Some made.1;
                             m_object_template_iso := Assigned iso |}) /\
    st3 !! val_ptr = Some (OValue val).
Proof.
  intros Hi Hval _ Hv Hname made populated created.
  (* NewObjectTemplate *)
  unfold NewObjectTemplate, Locker.
  rewrite (bind_Ret _ _ _ _ _ (as_isolate_Ret _ _ _ Hi)). cbn zeta.
  fold made.
  rewrite (bind_Ret (store iso _) _ st tt _ eq_refl).
  allocate tmpl Hnew Hnull Hfree. rewrite Hnew.
  assert (Htmpl_iso : tmpl <> iso).
  { intros ->. rewrite lookup_insert_eq in Hfree. discriminate. }
  rewrite lookup_insert_ne in Hfree by congruence.
  assert (Hval_iso : val_ptr <> iso) by congruence.
  assert (Hval_tmpl : val_ptr <> tmpl) by congruence.
  set (ot := {| m_object_template_ptr := Some made.1;
                m_object_template_iso := Assigned iso |}).
  set (st1 := <[tmpl := OObjectTemplate ot]>
                (<[iso := with_heap i made.2]> st)).
  assert (H1t : st1 !! tmpl = Some (OObjectTemplate ot))
    by apply lookup_insert_eq.
  assert (H1i : st1 !! iso = Some (with_heap i made.2)).
  { unfold st1. rewrite lookup_insert_ne by congruence.
    apply lookup_insert_eq. }
  assert (H1v : st1 !! val_ptr = Some (OValue val)).
  { unfold st1. rewrite !lookup_insert_ne by congruence. exact Hval. }
  (* ObjectTemplateSetValue *)
  pose proof (LOCAL_OBJECT_TEMPLATE_Ret st1 tmpl ot iso _ H1t eq_refl H1i)
    as Hl.
  set (st2 := <[iso := OIsolate
                         {| capture_stack_trace_for_uncaught_exceptions :=
                              capture_stack_trace_for_uncaught_exceptions i;
                            heap := populated |}]> st1).
  assert (Hset : ObjectTemplateSetValue tmpl name val_ptr attributes st1
                 = Ret (tt, st2)).
  { unfold ObjectTemplateSetValue. rewrite (bind_Ret _ _ _ _ _ Hl).
    rewrite Hname. cbn [ToLocalChecked].
    rewrite (bind_Ret _ _ st1 prop_name st1 eq_refl).
    rewrite (bind_Ret _ _ _ _ _ (as_value_Ret _ _ _ H1v)). rewrite Hv.
    reflexivity. }
  assert (H2t : st2 !! tmpl = Some (OObjectTemplate ot)).
  { unfold st2. rewrite lookup_insert_ne by congruence. exact H1t. }
  assert (H2i : st2 !! iso
                = Some (OIsolate
                          {| capture_stack_trace_for_uncaught_exceptions :=
                               capture_stack_trace_for_uncaught_exceptions i;
                             heap := populated |})) by apply lookup_insert_eq.
  assert (H2v : st2 !! val_ptr = Some (OValue val)).
  { unfold st2. rewrite lookup_insert_ne by congruence. exact H1v. }
  (* NewContext *)
  destruct (NewContext_Ret st2 iso tmpl _ (Some made.1) populated H2i
              (or_intror (conj Hnull
                 (ex_intro _ ot (conj H2t (conj eq_refl eq_refl))))))
    as (ctx & Hctx_null & Hctx_free & Hctx_iso & Hctx).
  exists tmpl, ctx, st1, st2. eexists. split; [reflexivity|].
  split; [exact Hset|]. split; [exact Hctx|].
  assert (Hctx_tmpl : ctx <> tmpl) by congruence.
  assert (Hctx_val : ctx <> val_ptr) by congruence.
  split; [apply lookup_insert_eq|].
  split; [rewrite lookup_insert_ne by congruence; apply lookup_insert_eq|].
  split; rewrite !lookup_insert_ne by congruence; assumption.
Qed.

End Templates.

(** The host value 7 set as ["seven"] on the template of [Tour.workshop]:
    the heap records the name. *)
Lemma template_setters_write_the_heap_witness :
  @ObjectTemplateSetValue Demo.E 3%N "seven" 4%N 0 Tour.workshop
  = Ret (tt, <[1%N := Demo.isolate_object Demo.E true
                        {| Toy.contexts := 1;
                           Toy.templates := [[]; ["seven"%string]] |}]>
               Tour.workshop).
Proof.
  destruct (@template_setters_write_the_heap Demo.E Tour.workshop 3%N
              (@Build_m_object_template Demo.E (Some 1%nat) (Assigned 1%N))
              1%N (@Build_Isolate Demo.E true Tour.workshop_heap) 1%nat
              "seven" (Toy.Str "seven") 0
              ltac:(vm_compute; reflexivity) ltac:(reflexivity)
              ltac:(vm_compute; reflexivity) ltac:(reflexivity)
              ltac:(reflexivity))
    as (Hvalue & _ & _).
  refine (Hvalue 4%N
            (@Build_m_value Demo.E (Some (Toy.Num 7)) (Assigned 1%N)
               Indeterminate)
            (Toy.Num 7) _ _ _); vm_compute; reflexivity.
Defined.

(** The host value 7 becomes the global ["seven"] of a new context. *)
Lemma template_pipeline_witness :
  exists tmpl ctx st1 st2 st3,
    @NewObjectTemplate Demo.E Demo.iso (Demo.with_host_value (Toy.Num 7))
      = Ret (tmpl, st1) /\
    @ObjectTemplateSetValue Demo.E tmpl "seven" 3%N 0 st1 = Ret (tt, st2) /\
    @NewContext Demo.E Demo.iso tmpl st2 = Ret (ctx, st3) /\
    st3 !! ctx
    = Some (@OContext Demo.E
              (@Build_m_ctx Demo.E
                 (Some {| Toy.context_id := 1;
                          Toy.global_names := ["seven"%string] |})
                 (Assigned Demo.iso))) /\
    st3 !! Demo.iso
    = Some (Demo.isolate_object Demo.E true
              {| Toy.contexts := 2;
                 Toy.templates := [[]; ["seven"%string]] |}) /\
    st3 !! tmpl
    = Some (@OObjectTemplate Demo.E
              (@Build_m_object_template Demo.E (Some 1%nat)
                 (Assigned Demo.iso))) /\
    st3 !! 3%N = Some (Demo.value_object Demo.E (Toy.Num 7) Indeterminate).
Proof.
  apply (@template_pipeline Demo.E (Demo.with_host_value (Toy.Num 7))
           Demo.iso (@Build_Isolate Demo.E true Demo.one_context)
           "seven" (Toy.Str "seven") 3%N
           (@Build_m_value Demo.E (Some (Toy.Num 7)) (Assigned Demo.iso)
              Indeterminate)
           (Toy.Num 7) 0);
    vm_compute; reflexivity.
Defined.

(** * Constructors, the marshaller, and strings the engine rejects *)

Section Constructors.
Context `{E : V8}.
Implicit Types (st : gmap N object) (p q : Ptr).

(** X19.  On a live isolate the six constructors [NewValueInteger],
    [NewValueIntegerFromUnsigned], [NewValueBoolean], [NewValueNumber],
    [NewValueBigInt] and [NewValueBigIntFromUnsigned] always return.  The
    handle is not null and was not in use; the store afterwards is the
    store before with one more object, a value wrapper bound to the isolate
    whose [ctx_ptr] is not assigned; no wrapper and no isolate of the store
    changes.  [NewValueBoolean] wraps the engine's [true] for every
    argument other than 0. *)
Theorem scalar_constructors_return st iso_ptr i (c : construction) :
  st !! iso_ptr = Some (OIsolate i) ->
  scalar c = true ->
  exists ptr v,
    NewValue c iso_ptr st
    = Ret (ptr, <[ptr := OValue {| m_value_ptr := Some v;
                                   m_value_iso := Assigned iso_ptr;
                                   m_value_ctx_ptr := Indeterminate |}]> st) /\
    ptr <> nullptr /\
    st !! ptr = None /\
    (forall b, c = Boolean b -> v = Boolean_New (negb (b =? 0))).
Proof.
  intros Hi Hc.
  destruct c; try discriminate;
    unfold NewValue, NewValueInteger, NewValueIntegerFromUnsigned,
      NewValueBoolean, NewValueNumber, NewValueBigInt,
      NewValueBigIntFromUnsigned, ISOLATE_SCOPE, Locker, new_m_value;
    rewrite (bind_Ret _ _ _ _ _ (as_isolate_Ret _ _ _ Hi));
    allocate ptr Hnew Hnull Hfree;
    eexists ptr, _; (split; [exact Hnew|]); (split; [exact Hnull|]);
    (split; [exact Hfree|]); intros b Hb; try discriminate.
  injection Hb as ->. reflexivity.
Qed.

(** X20.  [ExceptionError] returns a record, leaving the store as it is,
    exactly when the isolate is alive and the captured exception is
    [marshallable]: it is a termination, or else the resource name of its
    message, if it has a message, has a string conversion and its start
    column plus one is an [int].  In every other case the call is undefined
    behaviour; it never aborts the process. *)
Theorem ExceptionError_defined_iff st (try_catch : TryCatch v8_Value) iso ctx :
  ((exists e, ExceptionError try_catch iso ctx st = Ret (e, st)) <->
   (exists i, st !! iso = Some (OIsolate i)) /\ marshallable try_catch) /\
  (ExceptionError try_catch iso ctx st = Undefined <->
   ~ ((exists i, st !! iso = Some (OIsolate i)) /\ marshallable try_catch)).
Proof.
  pose proof (ExceptionError_cases st try_catch iso ctx) as Hcases.
  split.
  - split.
    + intros (e & He). rewrite He in Hcases.
      destruct Hcases as (_ & Hi & Hm & _). auto.
    + intros ((i & Hi) & Hm).
      exact (ExceptionError_returns st try_catch iso ctx i Hi Hm).
  - destruct (ExceptionError try_catch iso ctx st) as [[e st']| |].
    + destruct Hcases as (_ & Hi & Hm & _). split; [discriminate|].
      intros Hn. destruct Hn. auto.
    + split; [|reflexivity]. intros _ ((i & Hi) & Hm).
      destruct Hcases as [Hn|Hn]; [exact (Hn i Hi)|exact (Hn Hm)].
    + contradiction.
Qed.

(** X21.  A string the engine does not accept ([String::NewFromUtf8]
    returns an empty handle) aborts the process wherever the code makes an
    engine string with [ToLocalChecked]: in [NewValueString] on a live
    isolate, in [RunScript] on a live context as the source and as the
    origin, and in the two template setters on a live template as the
    property name, whatever their second handle is.  The failure is not
    returned as an error record. *)
Theorem rejected_string_aborts st (s : string) :
  String_NewFromUtf8 (c_str s) = None ->
  (forall iso i,
     st !! iso = Some (OIsolate i) -> NewValueString iso s st = Fatal) /\
  (forall ctx_ptr mc iso i local_ctx other,
     st !! ctx_ptr = Some (OContext mc) ->
     m_ctx_iso mc = Assigned iso ->
     st !! iso = Some (OIsolate i) ->
     m_ctx_ptr mc = Some local_ctx ->
     RunScript ctx_ptr s other st = Fatal /\
     (String_NewFromUtf8 (c_str other) <> None ->
      RunScript ctx_ptr other s st = Fatal)) /\
  (forall tmpl ot iso i ptr attributes,
     st !! tmpl = Some (OObjectTemplate ot) ->
     m_object_template_iso ot = Assigned iso ->
     st !! iso = Some (OIsolate i) ->
     ObjectTemplateSetValue tmpl s ptr attributes st = Fatal /\
     ObjectTemplateSetObjectTemplate tmpl s ptr attributes st = Fatal).
Proof.
  intros Hs.
  assert (Hfatal : forall B (k : v8_Value -> M B),
             (ToLocalChecked (String_NewFromUtf8 (c_str s)) ≫= k) st = Fatal).
  { intros B k. rewrite Hs. reflexivity. }
  split; [|split].
  - intros iso i Hi. unfold NewValueString, ISOLATE_SCOPE, Locker.
    rewrite (bind_Ret _ _ _ _ _ (as_isolate_Ret _ _ _ Hi)). apply Hfatal.
  - intros ctx_ptr mc iso i local_ctx other Hmc Hiso Hi Hlc.
    unfold RunScript, Locker.
    rewrite !(bind_Ret _ _ _ _ _ (as_ctx_Ret _ _ _ Hmc)).
    rewrite Hiso. cbn [read]. rewrite !(bind_Ret _ _ st iso st eq_refl).
    rewrite !(bind_Ret _ _ _ _ _ (as_isolate_Ret _ _ _ Hi)).
    rewrite Hlc. cbn [deref]. rewrite !(bind_Ret _ _ st local_ctx st eq_refl).
    split; [apply Hfatal|].
    intros Hother.
    destruct (String_NewFromUtf8 (c_str other)) as [src|] eqn:Hsrc;
      [|contradiction].
    cbn [ToLocalChecked]. rewrite (bind_Ret _ _ st src st eq_refl).
    apply Hfatal.
  - intros tmpl ot iso i ptr attributes Hot Hiso Hi.
    pose proof (LOCAL_OBJECT_TEMPLATE_Ret st tmpl ot iso i Hot Hiso Hi) as Hl.
    split; unfold ObjectTemplateSetValue, ObjectTemplateSetObjectTemplate;
      rewrite (bind_Ret _ _ _ _ _ Hl); apply Hfatal.
Qed.

End Constructors.

(** [NewValueBoolean(iso, 2)] on a new isolate. *)
Lemma scalar_constructors_return_witness :
  exists ptr v,
    @NewValue Demo.E (Boolean 2) Demo.iso Demo.fresh_isolate
    = Ret (ptr, <[ptr := @OValue Demo.E
                           (@Build_m_value Demo.E (Some v)
                              (Assigned Demo.iso) Indeterminate)]>
                  Demo.fresh_isolate) /\
    ptr <> nullptr /\
    Demo.fresh_isolate !! ptr = None /\
    (forall b, @Boolean Demo.E 2 = Boolean b ->
               v = @Boolean_New Demo.E (negb (b =? 0))).
Proof.
  apply (@scalar_constructors_return Demo.E Demo.fresh_isolate Demo.iso
           (@Build_Isolate Demo.E false
              {| Toy.contexts := O; Toy.templates := [] |})
           (Boolean 2)).
  - vm_compute. reflexivity.
  - reflexivity.
Defined.

(** A string of nine bytes for an engine that takes eight. *)
Lemma rejected_string_aborts_witness :
  @NewValueString (Tour.limited 8) 1%N "123456789" Tour.cramped = Fatal /\
  @RunScript (Tour.limited 8) 2%N "123456789" "main.js" Tour.cramped
  = Fatal /\
  @ObjectTemplateSetValue (Tour.limited 8) 3%N "123456789" nullptr 0
    Tour.cramped = Fatal.
Proof.
  destruct (@rejected_string_aborts (Tour.limited 8) Tour.cramped
              "123456789" ltac:(vm_compute; reflexivity))
    as (Hnew & Hrun & Hset).
  pose (i := @Build_Isolate (Tour.limited 8) true Tour.workshop_heap).
  split; [|split].
  - apply (Hnew 1%N i). vm_compute. reflexivity.
  - refine (proj1 (Hrun 2%N
                     (@Build_m_ctx (Tour.limited 8) (Some Demo.the_context)
                        (Assigned 1%N))
                     1%N i Demo.the_context "main.js" _ _ _ _));
      vm_compute; reflexivity.
  - refine (proj1 (Hset 3%N
                     (@Build_m_object_template (Tour.limited 8) (Some 1%nat)
                        (Assigned 1%N))
                     1%N i nullptr 0 _ _ _));
      vm_compute; reflexivity.
Defined.
